(** * CloudDrop: the content-addressed upload store of the backend

    A shallow embedding of [InternetFileService] (upload, download, delete,
    delete-all), of the [RedisClient] wrapper it talks to, of [S3Service]
    (the put of the staging-area download, the file list, the presigned
    URL) and of the [ProfileController] handlers on top of it.

    The service is asynchronous JavaScript whose [await]s are sequential, so
    every method is a state transformer over a [World]: the upload directory,
    the Redis keyspace, the in-memory counting bloom filter, the persisted
    filter snapshot, the S3 bucket and a trace of the effects issued, in
    program order.  Exceptions are the [Thrown] outcome; the world reached
    when an exception is thrown is kept, as on the real machine. *)

From Stdlib Require Import ZArith List String Ascii Lia.
From Stdlib Require Import QArith Qabs Qround DecimalString.
From stdpp Require Import base gmap strings list fin_maps.
Import ListNotations.

Close Scope Q_scope.

Local Open Scope string_scope.
Local Open Scope list_scope.

(** A Node.js [Buffer]: a sequence of bytes, one character per byte. *)
Abbreviation Buffer := string (only parsing).

(** ** JavaScript strings and values *)

Module Js.

(** [s.startsWith(p)] *)
Definition startsWith (s p : string) : bool := String.prefix p s.

(** [s.includes(p)]: [p] occurs somewhere in [s]. *)
Fixpoint includes (s p : string) : bool :=
  String.prefix p s ||
  match s with
  | EmptyString => false
  | String _ s' => includes s' p
  end.

(** [ToString] of a value that is a string or [null]: the search argument
    of [startsWith] and [includes] goes through it. *)
Definition toString (v : option string) : string :=
  match v with
  | Some s => s
  | None => "null"
  end.

(** Truthiness of a value that is a string or [undefined]. *)
Definition truthy (v : option string) : bool :=
  match v with
  | Some EmptyString => false
  | Some _ => true
  | None => false
  end.

(** An exception object: [name] and [message]. *)
Record Error := mkError { name : string; message : string }.

(** [String(err)] *)
Definition errorToString (e : Error) : string :=
  name e +:+ ": " +:+ message e.

(** [new Error(msg)] *)
Definition newError (msg : string) : Error := mkError "Error" msg.

(** A JSON document, as [JSON.parse] returns it. *)
#[warnings="-register-all"]
Inductive JSON :=
| JNull
| JBool (b : bool)
| JNum (n : Z)
| JStr (s : string)
| JArr (items : list JSON)
| JObj (fields : list (string * JSON)).

(** Property read on a JSON object: the first field of that name. *)
Fixpoint getField (fields : list (string * JSON)) (k : string) : option JSON :=
  match fields with
  | [] => None
  | (k', v) :: rest => if String.eqb k k' then Some v else getField rest k
  end.

End Js.

(** ** The counting bloom filter of the [bloom-filters] package

    [_filter] is an array of [_size] cells [[bit, counter]].  The package
    derives [_nbHashes] cell positions from an element by double hashing and
    reduces each modulo [_size]; the hash itself is a parameter here
    ([hashIndex e n] is the [n]-th unreduced position of element [e]). *)

Module CountingBloomFilter.

Record t := mk {
  _size : nat;
  _nbHashes : nat;
  _filter : list (Z * Z);
  _length : Z;
}.

Section Hashing.
Variable hashIndex : Buffer -> nat -> nat.

(** [getIndexes(element, size, hashCount)] *)
Definition getIndexes (element : Buffer) (size hashCount : nat) : list nat :=
  map (fun n => hashIndex element n mod size) (seq 0 hashCount).

(** [new CountingBloomFilter(size, nbHashes)]: throws when [nbHashes < 1]. *)
Definition create (size nbHashes : nat) : option t :=
  if (nbHashes <? 1)%nat then None
  else Some (mk size nbHashes (replicate size (0, 0)%Z) 0).

(** One step of the loop of [add]: increment the counter, set the bit
    when the counter is positive. *)
Definition increment (cell : Z * Z) : Z * Z :=
  let counter := (snd cell + 1)%Z in
  (if (0 <? counter)%Z then 1%Z else fst cell, counter).

(** One step of the loop of [remove]: decrement the counter, clear the
    bit when the counter is not positive. *)
Definition decrement (cell : Z * Z) : Z * Z :=
  let counter := (snd cell - 1)%Z in
  (if (counter <=? 0)%Z then 0%Z else fst cell, counter).

Definition updateCells (f : Z * Z -> Z * Z) (indexes : list nat)
    (cells : list (Z * Z)) : list (Z * Z) :=
  fold_left (fun acc i => alter f i acc) indexes cells.

Definition add (filter : t) (element : Buffer) : t :=
  let indexes := getIndexes element (_size filter) (_nbHashes filter) in
  mk (_size filter) (_nbHashes filter)
     (updateCells increment indexes (_filter filter))
     (_length filter + 1).

Definition remove (filter : t) (element : Buffer) : t :=
  let indexes := getIndexes element (_size filter) (_nbHashes filter) in
  mk (_size filter) (_nbHashes filter)
     (updateCells decrement indexes (_filter filter))
     (_length filter - 1).

(** [has]: every cell of the element has a truthy bit.  (A position
    outside the array, possible only when [_size] is 0, answers false
    here; the package would fail on it.) *)
Definition has (filter : t) (element : Buffer) : bool :=
  forallb
    (fun i => match _filter filter !! i with
              | Some (bit, _) => negb (bit =? 0)%Z
              | None => false
              end)
    (getIndexes element (_size filter) (_nbHashes filter)).
End Hashing.

(** [saveAsJSON()] *)
Definition cellToJSON (cell : Z * Z) : Js.JSON :=
  Js.JArr [Js.JNum (fst cell); Js.JNum (snd cell)].

Definition saveAsJSON (filter : t) : Js.JSON :=
  Js.JObj
    [ ("type", Js.JStr "CountingBloomFilter");
      ("_size", Js.JNum (Z.of_nat (_size filter)));
      ("_nbHashes", Js.JNum (Z.of_nat (_nbHashes filter)));
      ("_filter", Js.JArr (map cellToJSON (_filter filter)));
      ("_length", Js.JNum (_length filter)) ].

Definition cellOfJSON (j : Js.JSON) : option (Z * Z) :=
  match j with
  | Js.JArr [Js.JNum bit; Js.JNum counter] => Some (bit, counter)
  | _ => None
  end.

Fixpoint cellsOfJSON (items : list Js.JSON) : option (list (Z * Z)) :=
  match items with
  | [] => Some []
  | j :: rest =>
      match cellOfJSON j, cellsOfJSON rest with
      | Some c, Some cs => Some (c :: cs)
      | _, _ => None
      end
  end.

(** [CountingBloomFilter.fromJSON(json)]: [None] when the document is not
    the export of a counting bloom filter. *)
Definition fromJSON (json : Js.JSON) : option t :=
  match json with
  | Js.JObj fields =>
      match Js.getField fields "type", Js.getField fields "_size",
            Js.getField fields "_nbHashes", Js.getField fields "_filter",
            Js.getField fields "_length" with
      | Some (Js.JStr ty), Some (Js.JNum size), Some (Js.JNum nbHashes),
        Some (Js.JArr items), Some (Js.JNum len) =>
          if negb (String.eqb ty "CountingBloomFilter") then None
          else if (size <? 0)%Z || (nbHashes <? 0)%Z then None
          else match cellsOfJSON items with
               | Some cells =>
                   Some (mk (Z.to_nat size) (Z.to_nat nbHashes) cells len)
               | None => None
               end
      | _, _, _, _, _ => None
      end
  | _ => None
  end.

End CountingBloomFilter.

(** ** The environment of the process

    What the service takes from Node.js, from its configuration and from
    the machines around it, and does not compute itself. *)

Class Env := {
  (** [crypto.createHash('sha256').update(b).digest('hex')] *)
  sha256_hex : Buffer -> string;
  (** [path.extname] *)
  extname : string -> string;
  (** [decodeURIComponent]; [None] is its [URIError] *)
  decodeURIComponent : string -> option string;
  encodeURIComponent : string -> string;
  (** the successive results of [crypto.randomUUID()] *)
  randomUUID : nat -> string;
  (** the double hashing of the bloom filter, before reduction *)
  hashIndex : Buffer -> nat -> nat;
  (** the cell and hash counts [CountingBloomFilter.create] derives from
      [BLOOM_FILTER_ESTIMATED_FILE_COUNT] and [BLOOM_FILTER_ERROR_RATE] *)
  filterSize : nat;
  filterHashes : nat;
  (** [Date.prototype.getTimezoneOffset()]: minutes to add to local time
      to reach UTC *)
  timezoneOffset : Z;
  AWS_BUCKET_NAME : string;
  AWS_REGION : string;
  (** the hash table of the Redis keyspace: the slot of a key, and the
      number of slots a [SCAN] walks through *)
  keySlot : string -> nat;
  tableSize : nat;
}.

(** ** The world the service acts on *)

(** A Redis string key: its value, and its expiry (Unix time, in
    milliseconds) when it has one. *)
Record RedisEntry := mkEntry { value : string; expiry : option Z }.

Record S3Object := mkObject {
  objectKey : string;
  objectBody : Buffer;
  originalName : string;
}.

Inductive Event :=
| RandomUUID (id : string)
| RedisConnect
| RedisSet (key val : string)
| RedisExpire (key : string) (seconds : Z)
| RedisExpireAt (key : string) (timestamp : Z)
| RedisGet (key : string)
| RedisDel (keys : list string)
| RedisScan (cursor : nat) (pattern : string)
| FilterLoad
| FilterSave (json : Js.JSON)
| BloomCreate
| BloomHas (element : Buffer) (answer : bool)
| BloomAdd (element : Buffer)
| BloomRemove (element : Buffer)
| FsReaddir
| FsWriteFile (file : string)
| FsReadFile (file : string)
| FsOpen (file : string)
| FsUnlink (file : string)
| FsExists (file : string)
| S3Put (key : string).

Record World := mkWorld {
  (** the upload directory: file name to content *)
  uploads : gmap string Buffer;
  (** the Redis keyspace *)
  redis : gmap string RedisEntry;
  (** the bloom filter snapshot kept in Redis *)
  snapshot : option Js.JSON;
  (** [this.bloomFilter], once [initFilter] has run *)
  bloomFilter : CountingBloomFilter.t;
  (** the S3 bucket *)
  bucket : list S3Object;
  (** [Date.now()], in milliseconds *)
  clock : Z;
  (** how many UUIDs have been drawn *)
  drawn : nat;
  (** faults of the environment: the disk refuses writes, S3 refuses puts *)
  diskFails : bool;
  s3Fails : bool;
  (** the effects issued so far, oldest first *)
  trace : list Event;
}.

Definition setUploads (w : World) (u : gmap string Buffer) : World :=
  mkWorld u (redis w) (snapshot w) (bloomFilter w) (bucket w) (clock w)
          (drawn w) (diskFails w) (s3Fails w) (trace w).
Definition setRedis (w : World) (r : gmap string RedisEntry) : World :=
  mkWorld (uploads w) r (snapshot w) (bloomFilter w) (bucket w) (clock w)
          (drawn w) (diskFails w) (s3Fails w) (trace w).
Definition setSnapshot (w : World) (s : option Js.JSON) : World :=
  mkWorld (uploads w) (redis w) s (bloomFilter w) (bucket w) (clock w)
          (drawn w) (diskFails w) (s3Fails w) (trace w).
Definition setBloomFilter (w : World) (f : CountingBloomFilter.t) : World :=
  mkWorld (uploads w) (redis w) (snapshot w) f (bucket w) (clock w)
          (drawn w) (diskFails w) (s3Fails w) (trace w).
Definition setBucket (w : World) (b : list S3Object) : World :=
  mkWorld (uploads w) (redis w) (snapshot w) (bloomFilter w) b (clock w)
          (drawn w) (diskFails w) (s3Fails w) (trace w).
Definition setDrawn (w : World) (n : nat) : World :=
  mkWorld (uploads w) (redis w) (snapshot w) (bloomFilter w) (bucket w)
          (clock w) n (diskFails w) (s3Fails w) (trace w).
Definition setTrace (w : World) (t : list Event) : World :=
  mkWorld (uploads w) (redis w) (snapshot w) (bloomFilter w) (bucket w)
          (clock w) (drawn w) (diskFails w) (s3Fails w) t.

(** ** Tasks: an [async] function as a state transformer *)

Inductive Outcome (A : Type) :=
| Returned (a : A)
| Thrown (e : Js.Error)
| OutOfFuel.
Arguments Returned {A} a.
Arguments Thrown {A} e.
Arguments OutOfFuel {A}.

Definition Task (A : Type) : Type := World -> Outcome A * World.

Definition ret {A} (a : A) : Task A := fun w => (Returned a, w).

Definition throw {A} (e : Js.Error) : Task A := fun w => (Thrown e, w).

Definition bind {A B} (c : Task A) (k : A -> Task B) : Task B :=
  fun w =>
    match c w with
    | (Returned a, w') => k a w'
    | (Thrown e, w') => (Thrown e, w')
    | (OutOfFuel, w') => (OutOfFuel, w')
    end.

(** [try { c } catch (err) { handler(err) }] *)
Definition tryCatch {A} (c : Task A) (handler : Js.Error -> Task A) : Task A :=
  fun w =>
    match c w with
    | (Thrown e, w') => handler e w'
    | other => other
    end.

Notation "'let*' x ':=' c 'in' k" := (bind c (fun x => k))
  (at level 10, x name, c at level 100, k at level 200).
Notation "c ';;' k" := (bind c (fun _ => k))
  (at level 100, k at level 200, right associativity).

(** Record an effect in the trace. *)
Definition emit (e : Event) : Task unit :=
  fun w => (Returned tt, setTrace w (trace w ++ [e])).

(** A call to an [async] function whose promise is dropped: [f(x);] with
    neither [await] nor [.catch].  The callee runs up to its first
    [await], which is where the calls below hand their command to the
    client, and the caller goes on at once: it never sees how the call
    ends, so a rejection reaches no [catch] of the caller.  The command
    is taken to have its effect when it is handed over, its place in the
    queue of the one connection; that the reply comes later than the
    caller's next steps is not shown. *)
Definition unawaited {A} (c : Task A) : Task unit :=
  fun w => (Returned tt, snd (c w)).

(** [for (const x of xs) { body(x) }] *)
Fixpoint forOf {A} (xs : list A) (body : A -> Task unit) : Task unit :=
  match xs with
  | [] => ret tt
  | x :: rest => body x ;; forOf rest body
  end.

(** ** String helpers for Redis keys and patterns *)

(** Redis glob patterns with [*] (any run of characters) and [?] (any one
    character); the patterns of the service use no other construct. *)
Fixpoint globMatch (pattern s : string) : bool :=
  match pattern with
  | EmptyString => match s with EmptyString => true | _ => false end
  | String c pattern' =>
      if Ascii.eqb c "*" then
        (fix star (s : string) : bool :=
           globMatch pattern' s ||
           match s with
           | EmptyString => false
           | String _ s' => star s'
           end) s
      else
        match s with
        | EmptyString => false
        | String d s' =>
            (Ascii.eqb c "?" || Ascii.eqb c d) && globMatch pattern' s'
        end
  end.

Fixpoint stripPrefix (p s : string) : option string :=
  match p, s with
  | EmptyString, _ => Some s
  | String a p', String b s' =>
      if Ascii.eqb a b then stripPrefix p' s' else None
  | String _ _, EmptyString => None
  end.

Fixpoint stripSuffix (suffix s : string) : option string :=
  if String.eqb s suffix then Some EmptyString
  else match s with
       | EmptyString => None
       | String c s' => option_map (String c) (stripSuffix suffix s')
       end.

(** The key layout of a file record. *)
Definition hashKey (fileId : string) : string := "file:" +:+ fileId +:+ ":hash".
Definition filenameKey (fileId : string) : string :=
  "file:" +:+ fileId +:+ ":filename".

(** The file id inside a key of the form [file:{id}:hash]. *)
Definition fileIdOfHashKey (key : string) : option string :=
  match stripPrefix "file:" key with
  | Some rest => stripSuffix ":hash" rest
  | None => None
  end.

(** ** The Redis server, as the client sees it *)

Section Redis.
Context `{Env}.

Definition expired (now : Z) (e : RedisEntry) : bool :=
  match expiry e with
  | Some t => (t <=? now)%Z
  | None => false
  end.

(** A key that is stored and has not expired. *)
Definition liveEntry (w : World) (key : string) : option RedisEntry :=
  match redis w !! key with
  | Some e => if expired (clock w) e then None else Some e
  | None => None
  end.

(** [SET key value]: stores the value and drops any expiry. *)
Definition clientSet (key val : string) : Task unit :=
  emit (RedisSet key val) ;;
  fun w => (Returned tt, setRedis w (<[key := mkEntry val None]> (redis w))).

(** [EXPIRE key seconds]: a relative time to live; a non-positive one
    deletes the key. *)
Definition clientExpire (key : string) (seconds : Z) : Task unit :=
  emit (RedisExpire key seconds) ;;
  fun w =>
    match liveEntry w key with
    | Some e =>
        if (seconds <=? 0)%Z
        then (Returned tt, setRedis w (delete key (redis w)))
        else (Returned tt,
              setRedis w (<[key := mkEntry (value e)
                                     (Some (clock w + seconds * 1000)%Z)]>
                            (redis w)))
    | None => (Returned tt, w)
    end.

(** [EXPIREAT key timestamp]: an absolute Unix time in seconds; one that
    is not in the future deletes the key. *)
Definition clientExpireAt (key : string) (timestamp : Z) : Task unit :=
  emit (RedisExpireAt key timestamp) ;;
  fun w =>
    match liveEntry w key with
    | Some e =>
        if (timestamp * 1000 <=? clock w)%Z
        then (Returned tt, setRedis w (delete key (redis w)))
        else (Returned tt,
              setRedis w (<[key := mkEntry (value e)
                                     (Some (timestamp * 1000)%Z)]>
                            (redis w)))
    | None => (Returned tt, w)
    end.

(** [GET key]: [None] is [null]. *)
Definition clientGet (key : string) : Task (option string) :=
  emit (RedisGet key) ;;
  fun w => (Returned (option_map value (liveEntry w key)), w).

(** [DEL key ...] *)
Definition clientDel (keys : list string) : Task unit :=
  emit (RedisDel keys) ;;
  fun w => (Returned tt, setRedis w (foldr delete (redis w) keys)).

(** The slot of a key in the keyspace table. *)
Definition slotOf (key : string) : nat := keySlot key mod tableSize.

(** [SCAN cursor MATCH pattern COUNT count]: the call walks the slots
    [cursor .. cursor + count - 1] and answers the stored keys found
    there that match the pattern, with the cursor to continue from: 0
    once the table has been walked to its end. *)
Definition scanKeys (w : World) (cursor count : nat) (pattern : string)
    : list string :=
  List.filter
    (fun key => (cursor <=? slotOf key)%nat
                && (slotOf key <? cursor + count)%nat
                && globMatch pattern key)
    (map fst (map_to_list (redis w))).

(** [client.scan(cursor, 'MATCH', pattern, 'COUNT', count)], with the
    pattern and the count taken to reach Redis as the MATCH and the COUNT
    of the SCAN.  A client that does not pass them on scans every key, in
    batches of its own size. *)
Definition clientScan (cursor : nat) (pattern : string) (count : nat)
    : Task (nat * list string) :=
  emit (RedisScan cursor pattern) ;;
  fun w =>
    (Returned (if (cursor + count <? tableSize)%nat then (cursor + count)%nat
               else 0%nat,
               scanKeys w cursor count pattern), w).
End Redis.

(** ** [Date] *)

Section Date.
Context `{Env}.

Definition msPerDay : Z := 86400000.
Definition msPerHour : Z := 3600000.

(** The offset of local time from UTC, in milliseconds. *)
Definition localTZA : Z := (- timezoneOffset * 60000)%Z.

(** The time of day of a time value, in local time. *)
Definition localTimeOfDay (t : Z) : Z := ((t + localTZA) mod msPerDay)%Z.

(** The local calendar day of a time value. *)
Definition localDay (t : Z) : Z := ((t + localTZA) / msPerDay)%Z.

(** [new Date(now).setHours(hours, 0, 0, 0)]: the time value of that hour
    of the same local day. *)
Definition setHours (now hours : Z) : Z :=
  (localDay now * msPerDay + hours * msPerHour - localTZA)%Z.

(** [parseInt(x / d)] for an integer time value [x]: the quotient,
    truncated. *)
Definition parseIntDiv (x d : Z) : Z := Z.quot x d.
End Date.

(** ** [RedisClient] (clients/redisClient.js) *)

Module RedisClient.
Section RedisClient.
Context `{Env}.

(** [try { ... } catch (err) { logWithFileInfo(...); throw err; }] *)
Definition logAndRethrow {A} (c : Task A) : Task A :=
  tryCatch c (fun err => throw err).

(** Redis is taken to be reachable and to answer every command: none of
    the calls below is made to fail. *)
Definition connect : Task unit := logAndRethrow (emit RedisConnect).

Definition set (key val : string) : Task unit :=
  logAndRethrow (clientSet key val).

(** [setExpire(key, second = 0)] *)
Definition setExpire (key : string) (second : Z) : Task unit :=
  logAndRethrow
    (if (second =? 0)%Z then
       fun w =>
         let todayEnd := setHours (clock w) 3 in
         clientExpireAt key (parseIntDiv todayEnd 1000) w
     else clientExpire key second).

Definition get (key : string) : Task (option string) :=
  logAndRethrow (clientGet key).

Definition del (key : string) : Task unit :=
  logAndRethrow (clientDel [key]).

(** The [do ... while (cursor !== 0)] loop of [deleteByPattern], entered
    with the given cursor. *)
Fixpoint deleteByPatternFrom (fuel : nat) (pattern : string) (cursor : nat)
    : Task unit :=
  match fuel with
  | O => fun w => (OutOfFuel, w)
  | S fuel' =>
      let* cursor' :=
        logAndRethrow
          (let* reply := clientScan cursor pattern 100 in
           let keys := snd reply in
           (match keys with
            | [] => ret tt
            | _ :: _ => clientDel keys
            end) ;;
           ret (fst reply)) in
      if (cursor' =? 0)%nat then ret tt
      else deleteByPatternFrom fuel' pattern cursor'
  end.

Definition deleteByPattern (fuel : nat) (pattern : string) : Task unit :=
  deleteByPatternFrom fuel pattern 0.

(** Modelled from the spec: [loadBloomFilter] is called by the service
    and is not in the sources at hand.  FilterPersistence:
    [load() -> SerializedIndexState | absent]. *)
Definition loadBloomFilter : Task (option Js.JSON) :=
  emit FilterLoad ;;
  fun w => (Returned (snapshot w), w).

(** Modelled from the spec: [saveBloomFilter] is called by the service
    and is not in the sources at hand.  FilterPersistence: [save(index)]
    stores the serialized snapshot of the index. *)
Definition saveBloomFilter (filter : CountingBloomFilter.t) : Task unit :=
  let json := CountingBloomFilter.saveAsJSON filter in
  emit (FilterSave json) ;;
  fun w => (Returned tt, setSnapshot w (Some json)).

(** Modelled from the spec: [deleteFileInfoByFileId] is called by the
    service and is not in the sources at hand.  FileRecordStore:
    [deleteByFileId(fileId)] removes both entries. *)
Definition deleteFileInfoByFileId (fileId : string) : Task unit :=
  del (hashKey fileId) ;;
  del (filenameKey fileId).

(** Modelled from the spec: [deleteFileInfoWithSameHash] is called by the
    service and is not in the sources at hand.  FileRecordStore:
    [deleteAllWithHash(hash)] performs a full keyspace scan (cursor-based,
    bounded batch size) to find and remove every record sharing a content
    hash, resuming from the returned cursor until it reports zero. *)
Fixpoint deleteFileInfoWithSameHashFrom (fuel : nat)
    (fileHash : option string) (cursor : nat) : Task unit :=
  match fuel with
  | O => fun w => (OutOfFuel, w)
  | S fuel' =>
      let* reply := clientScan cursor "*" 100 in
      forOf (snd reply)
        (fun key =>
           match fileIdOfHashKey key with
           | Some fileId =>
               let* v := get key in
               if bool_decide (v = fileHash)
               then deleteFileInfoByFileId fileId
               else ret tt
           | None => ret tt
           end) ;;
      if (fst reply =? 0)%nat then ret tt
      else deleteFileInfoWithSameHashFrom fuel' fileHash (fst reply)
  end.

Definition deleteFileInfoWithSameHash (fuel : nat)
    (fileHash : option string) : Task unit :=
  deleteFileInfoWithSameHashFrom fuel fileHash 0.
End RedisClient.
End RedisClient.

(** ** [S3Service] (the part the staging-area download uses) *)

Module S3Service.
Section S3Service.
Context `{Env}.

Definition _generateS3Key (type id filename : string) : Task string :=
  if String.eqb type "user" then ret ("user/" +:+ id +:+ "/" +:+ filename)
  else if String.eqb type "room" then ret ("room/" +:+ id +:+ "/" +:+ filename)
  else throw (Js.newError ("[S3Service] Invalid type: " +:+ type)).

(** [fs.existsSync(path)], for a path inside the upload directory. *)
Definition existsSync (file : string) : Task bool :=
  emit (FsExists file) ;;
  fun w => (Returned (bool_decide (is_Some (uploads w !! file))), w).

(** [this._s3.send(new PutObjectCommand(...))], the body streamed from the
    file. *)
Definition putObject (key file metadataName : string) : Task unit :=
  emit (S3Put key) ;;
  fun w =>
    if s3Fails w then (Thrown (Js.mkError "S3ServiceException" "put failed"), w)
    else
      (Returned tt,
       setBucket w (mkObject key (default "" (uploads w !! file)) metadataName
                      :: bucket w)).

(** [uploadFile(file, filename, type, id)], with [file.tempFilePath] the
    path of [tempFile] in the upload directory and [file.name] the
    metadata name.  Answers [uploadResult.location]. *)
Definition uploadFile (tempFile name filename type id : string)
    : Task string :=
  let* key := _generateS3Key type id filename in
  let* present := existsSync tempFile in
  if negb present
  then throw (Js.newError ("[S3Service] File not found: " +:+ tempFile))
  else
    tryCatch (putObject key tempFile name) (fun err => throw err) ;;
    ret ("https://" +:+ AWS_BUCKET_NAME +:+ ".s3." +:+ AWS_REGION
           +:+ ".amazonaws.com/" +:+ key).
End S3Service.
End S3Service.

(** ** [InternetFileService] (services/internetFileService.js) *)

(** [req.file], as multer's memory storage leaves it. *)
Record UploadedFile := mkFile { buffer : Buffer; originalname : string }.

(** What [download] resolves to. *)
Inductive Download :=
| LocalDownload (stream : Buffer) (filename : option string)
| StagingAreaDownload (fileId : string) (filename : option string)
    (location : string)
| NoDownload.

Module InternetFileService.
Section InternetFileService.
Context `{Env}.

(** *** The file system calls, on the upload directory

    [path.join(this.uploadPath, name)] names the entry [name] of the
    directory: the names joined are directory entries, or a digest
    followed by an extension, and hold no path separator. *)

Definition readdir : Task (list string) :=
  emit FsReaddir ;;
  fun w => (Returned (map fst (map_to_list (uploads w))), w).

Definition writeFile (file : string) (data : Buffer) : Task unit :=
  emit (FsWriteFile file) ;;
  fun w =>
    if diskFails w
    then (Thrown (Js.mkError "Error" "ENOSPC: no space left on device, write"), w)
    else (Returned tt, setUploads w (<[file := data]> (uploads w))).

Definition noEntry {A} (call file : string) : Task A :=
  throw (Js.mkError "Error"
           ("ENOENT: no such file or directory, " +:+ call +:+ " " +:+ file)).

Definition readFile (file : string) : Task Buffer :=
  emit (FsReadFile file) ;;
  fun w =>
    match uploads w !! file with
    | Some data => (Returned data, w)
    | None => noEntry "open" file w
    end.

(** [fs.promises.open(path, 'r')] followed by [fs.createReadStream] on the
    descriptor: the stream yields the content of the file. *)
Definition openStream (file : string) : Task Buffer :=
  emit (FsOpen file) ;;
  fun w =>
    match uploads w !! file with
    | Some data => (Returned data, w)
    | None => noEntry "open" file w
    end.

(** [fs.promises.unlink]: fails on a missing file; a refusal to unlink a
    file that is there (a permission, a busy file) is not modelled. *)
Definition unlink (file : string) : Task unit :=
  emit (FsUnlink file) ;;
  fun w =>
    match uploads w !! file with
    | Some _ => (Returned tt, setUploads w (delete file (uploads w)))
    | None => noEntry "unlink" file w
    end.

(** *** The calls on [this.bloomFilter] *)

Definition bloomHas (element : Buffer) : Task bool :=
  fun w =>
    let answer := CountingBloomFilter.has hashIndex (bloomFilter w) element in
    (emit (BloomHas element answer) ;; ret answer) w.

Definition bloomAdd (element : Buffer) : Task unit :=
  emit (BloomAdd element) ;;
  fun w =>
    (Returned tt,
     setBloomFilter w (CountingBloomFilter.add hashIndex (bloomFilter w) element)).

Definition bloomRemove (element : Buffer) : Task unit :=
  emit (BloomRemove element) ;;
  fun w =>
    (Returned tt,
     setBloomFilter w
       (CountingBloomFilter.remove hashIndex (bloomFilter w) element)).

(** [new CountingBloomFilter.create(count, errorRate)], with the
    configured count and error rate. *)
Definition createFilter : Task CountingBloomFilter.t :=
  emit BloomCreate ;;
  match CountingBloomFilter.create filterSize filterHashes with
  | Some filter => ret filter
  | None =>
      throw (Js.newError
               "A CountingBloomFilter must use at least one hash function")
  end.

(** *** The service *)

Definition _loadFilter : Task CountingBloomFilter.t :=
  RedisClient.connect ;;
  let* parseData := RedisClient.loadBloomFilter in
  match parseData with
  | None =>
      let* filter := createFilter in
      RedisClient.saveBloomFilter filter ;;
      ret filter
  | Some json =>
      match CountingBloomFilter.fromJSON json with
      | Some filter => ret filter
      | None =>
          throw (Js.newError
                   "Cannot create a CountingBloomFilter from this JSON export")
      end
  end.

Definition initFilter : Task unit :=
  let* filter := _loadFilter in
  fun w => (Returned tt, setBloomFilter w filter).

Definition _generateUniqueFilename (filename fileHash : string) : string :=
  let extension := extname filename in
  fileHash +:+ extension.

Definition _calculateFileHash (file : Buffer) : string := sha256_hex file.

(** [_saveFileInfo] is not [async] and awaits none of its four calls:
    they are made in this order and their promises dropped. *)
Definition _saveFileInfo (fileId fileHash originalFilename : string)
    : Task unit :=
  unawaited (RedisClient.set (hashKey fileId) fileHash) ;;
  unawaited (RedisClient.setExpire (hashKey fileId) (3600 * 24 * 30)) ;;
  unawaited (RedisClient.set (filenameKey fileId) originalFilename) ;;
  unawaited (RedisClient.setExpire (filenameKey fileId) (3600 * 24 * 30)).

(** [crypto.randomUUID()] *)
Definition drawUUID : Task string :=
  fun w =>
    let fileId := randomUUID (drawn w) in
    (emit (RandomUUID fileId) ;; ret fileId) (setDrawn w (S (drawn w))).

(** [uploadFile(req)], with [file] standing for [req.file]. *)
Definition uploadFile (file : option UploadedFile) : Task Js.JSON :=
  tryCatch
    (match file with
     | None => throw (Js.newError "No file was uploaded.")
     | Some file =>
         let fileBuffer := buffer file in
         let* fileId := drawUUID in
         match decodeURIComponent (originalname file) with
         | None => throw (Js.mkError "URIError" "URI malformed")
         | Some originalFilename =>
             let fileHash := _calculateFileHash fileBuffer in
             _saveFileInfo fileId fileHash originalFilename ;;
             let* exist := bloomHas fileBuffer in
             let fullFilename :=
               _generateUniqueFilename originalFilename fileHash in
             (if exist : bool then ret tt
              else
                writeFile fullFilename fileBuffer ;;
                bloomAdd fileBuffer ;;
                RedisClient.connect ;;
                (fun w => RedisClient.saveBloomFilter (bloomFilter w) w)) ;;
             ret (Js.JObj [ ("fileId", Js.JStr fileId);
                            ("fileName", Js.JStr originalFilename) ])
         end
     end)
    (fun err => throw (Js.newError (Js.errorToString err))).

Definition _localDownload (file fileId : string) : Task Download :=
  let* filestream := openStream file in
  RedisClient.connect ;;
  let* originalFilename := RedisClient.get (filenameKey fileId) in
  ret (LocalDownload filestream originalFilename).

Definition _stagingAreaDownload (type file fileName fileId id : string)
    : Task Download :=
  RedisClient.connect ;;
  let* originalFilename := RedisClient.get (filenameKey fileId) in
  let safeFilename := encodeURIComponent (Js.toString originalFilename) in
  let* location := S3Service.uploadFile file safeFilename fileName type id in
  ret (StagingAreaDownload fileId originalFilename location).

(** [download(req)], with [way] and [fileId] standing for [req.params]
    and [type], [id] for [req.query]. *)
Definition download (way fileId : string) (type id : option string)
    : Task Download :=
  RedisClient.connect ;;
  let* fileHash := RedisClient.get (hashKey fileId) in
  let* files := readdir in
  let matchedFile :=
    find (fun file => Js.startsWith file (Js.toString fileHash)) files in
  if negb (Js.truthy matchedFile)
  then throw (Js.newError "File not found")
  else
    let matchedFile := Js.toString matchedFile in
    if String.eqb way "local" then _localDownload matchedFile fileId
    else if String.eqb way "staging-area" then
      if negb (Js.truthy type) || negb (Js.truthy id)
      then throw (Js.newError
        "Type and id query parameters are required for staging-area download.")
      else _stagingAreaDownload (Js.toString type) matchedFile matchedFile
             fileId (Js.toString id)
    else if String.eqb way "google-cloud" then ret NoDownload
    else throw (Js.newError "Invalid download way.").

(** [deleteFile(req)], with [fileId] standing for [req.params.fileId];
    [fuel] bounds the scan loop of the record cleanup. *)
Definition deleteFile (fuel : nat) (fileId : string) : Task Js.JSON :=
  let* files := readdir in
  RedisClient.connect ;;
  let* fileHash := RedisClient.get (hashKey fileId) in
  let matchedFile :=
    find (fun file => Js.includes file (Js.toString fileHash)) files in
  if negb (Js.truthy matchedFile)
  then throw (Js.newError "File not found")
  else
    let matchedFile := Js.toString matchedFile in
    let* fileBuffer := readFile matchedFile in
    bloomRemove fileBuffer ;;
    unlink matchedFile ;;
    (fun w => RedisClient.saveBloomFilter (bloomFilter w) w) ;;
    RedisClient.deleteFileInfoByFileId fileId ;;
    RedisClient.deleteFileInfoWithSameHash fuel fileHash ;;
    ret (Js.JObj [ ("message", Js.JStr "File deleted successfully") ]).

(** [deleteAllFiles(req)]; [fuel] bounds the scan loops. *)
Definition deleteAllFiles (fuel : nat) : Task Js.JSON :=
  let* files := readdir in
  forOf files unlink ;;
  let* filter := createFilter in
  (fun w => (Returned tt, setBloomFilter w filter)) ;;
  RedisClient.connect ;;
  (fun w => RedisClient.saveBloomFilter (bloomFilter w) w) ;;
  RedisClient.deleteByPattern fuel "file:*:hash" ;;
  RedisClient.deleteByPattern fuel "file:*:filename" ;;
  ret (Js.JObj [ ("message", Js.JStr "All files deleted successfully") ]).
End InternetFileService.
End InternetFileService.

(** ** What the bloom filter holds, and when it agrees with the directory *)

Section Consistency.
Context `{Env}.

(** How often the elements hit cell [i]. *)
Definition hits (size hashCount : nat) (elements : list Buffer) (i : nat) : Z :=
  fold_right
    (fun e acc =>
       (Z.of_nat (count_occ Nat.eq_dec
                    (CountingBloomFilter.getIndexes hashIndex e size hashCount) i)
        + acc)%Z)
    0%Z elements.

(** The cell of a counter value. *)
Definition cellFor (counter : Z) : Z * Z :=
  (if (0 <? counter)%Z then 1%Z else 0%Z, counter).

Definition expectedCells (size hashCount : nat) (elements : list Buffer)
    : list (Z * Z) :=
  map (fun i => cellFor (hits size hashCount elements i)) (seq 0 size).

(** The filter holds exactly the given elements. *)
Definition summarises (filter : CountingBloomFilter.t)
    (elements : list Buffer) : Prop :=
  CountingBloomFilter._filter filter =
    expectedCells (CountingBloomFilter._size filter)
                  (CountingBloomFilter._nbHashes filter) elements.

(** A sequence of calls on the filter. *)
Inductive FilterOp :=
| OpAdd (element : Buffer)
| OpRemove (element : Buffer).

Definition applyOp (filter : CountingBloomFilter.t) (op : FilterOp)
    : CountingBloomFilter.t :=
  match op with
  | OpAdd e => CountingBloomFilter.add hashIndex filter e
  | OpRemove e => CountingBloomFilter.remove hashIndex filter e
  end.

Definition applyOps (filter : CountingBloomFilter.t) (ops : list FilterOp)
    : CountingBloomFilter.t :=
  fold_left applyOp ops filter.

(** Take one occurrence of [e] out of the elements held; [None] when there
    is none. *)
Fixpoint removeOne (e : Buffer) (held : list Buffer) : option (list Buffer) :=
  match held with
  | [] => None
  | x :: rest =>
      if String.eqb x e then Some rest
      else option_map (cons x) (removeOne e rest)
  end.

(** The elements held after the calls, when every [remove] was of an
    element held at that point. *)
Fixpoint heldAfter (ops : list FilterOp) (held : list Buffer)
    : option (list Buffer) :=
  match ops with
  | [] => Some held
  | OpAdd e :: rest => heldAfter rest (e :: held)
  | OpRemove e :: rest =>
      match removeOne e held with
      | Some held' => heldAfter rest held'
      | None => None
      end
  end.

(** The blobs of the upload directory. *)
Definition blobs (w : World) : list Buffer :=
  map snd (map_to_list (uploads w)).

(** The files of the directory whose name starts with a digest. *)
Definition blobsOfHash (w : World) (fileHash : string) : list string :=
  List.filter (fun file => Js.startsWith file fileHash)
              (map fst (map_to_list (uploads w))).

(** Every file of the directory is named by the digest of its content,
    followed by some extension. *)
Definition blobNamed (w : World) : Prop :=
  forall file data,
    uploads w !! file = Some data ->
    exists extension, file = sha256_hex data +:+ extension.

Definition isHexChar (c : ascii) : bool :=
  let n := nat_of_ascii c in
  ((48 <=? n)%nat && (n <=? 57)%nat) || ((97 <=? n)%nat && (n <=? 102)%nat).

Fixpoint allHex (s : string) : bool :=
  match s with
  | EmptyString => true
  | String c rest => isHexChar c && allHex rest
  end.

(** What [digest('hex')] of SHA-256 yields: 64 hexadecimal characters. *)
Definition hexDigests : Prop :=
  forall content,
    String.length (sha256_hex content) = 64%nat /\
    allHex (sha256_hex content) = true.

(** The names [readdir] lists. *)
Definition listing (w : World) : list string :=
  map fst (map_to_list (uploads w)).

(** The state of a directory that only uploads have written, with the
    filter that went with them: every file is named by the digest of its
    content, no two files hold content of the same digest, and the filter
    holds exactly the contents of the files. *)
Record Consistent (w : World) : Prop := {
  blob_named : blobNamed w;
  blob_unique : forall file1 data1 file2 data2,
    uploads w !! file1 = Some data1 ->
    uploads w !! file2 = Some data2 ->
    sha256_hex data1 = sha256_hex data2 -> file1 = file2;
  filter_sized : (0 < CountingBloomFilter._size (bloomFilter w))%nat;
  filter_in_sync : summarises (bloomFilter w) (blobs w);
}.

(** No stored blob collides with the payload under SHA-256. *)
Definition collisionFree (w : World) (payload : Buffer) : Prop :=
  forall file data,
    uploads w !! file = Some data ->
    sha256_hex data = sha256_hex payload -> data = payload.

(** The world after the first half of an upload: the UUID drawn, the
    record saved, the filter asked. *)
Definition recorded (w : World) (file : UploadedFile) (name : string) : World :=
  let fileId := randomUUID (drawn w) in
  let fileHash := sha256_hex (buffer file) in
  let deadline := (clock w + 3600 * 24 * 30 * 1000)%Z in
  mkWorld (uploads w)
    (<[filenameKey fileId := mkEntry name (Some deadline)]>
       (<[hashKey fileId := mkEntry fileHash (Some deadline)]> (redis w)))
    (snapshot w) (bloomFilter w) (bucket w) (clock w) (S (drawn w))
    (diskFails w) (s3Fails w)
    (trace w ++
       [ RandomUUID fileId;
         RedisSet (hashKey fileId) fileHash;
         RedisExpire (hashKey fileId) (3600 * 24 * 30);
         RedisSet (filenameKey fileId) name;
         RedisExpire (filenameKey fileId) (3600 * 24 * 30);
         BloomHas (buffer file)
           (CountingBloomFilter.has hashIndex (bloomFilter w) (buffer file)) ]).

Definition uploadAnswer (w : World) (name : string) : Js.JSON :=
  Js.JObj [ ("fileId", Js.JStr (randomUUID (drawn w)));
            ("fileName", Js.JStr name) ].

(** The record of [fileId] is live and holds the hash [fileHash]. *)
Definition sharesHash (w : World) (fileHash : option string)
    (fileId : string) : Prop :=
  option_map value (liveEntry w (hashKey fileId)) = fileHash.

(** What the cleanup may have done to the keyspace of the world [w0] it
    started in: keys have only been deleted, and a record of the hash
    that has lost its hash key has lost its filename key too. *)
Definition cleaned (w0 : World) (fileHash : option string)
    (m : gmap string RedisEntry) : Prop :=
  m ⊆ redis w0 /\
  forall fileId, sharesHash w0 fileHash fileId ->
                 m !! hashKey fileId = None -> m !! filenameKey fileId = None.

(** The effects between two worlds of one run. *)
Definition issued (before after : World) : list Event :=
  drop (length (trace before)) (trace after).

Definition isBlobWrite (e : Event) : bool :=
  match e with
  | FsWriteFile _ | BloomAdd _ | FilterSave _ => true
  | _ => false
  end.

(** Effects that deliver a download: opening the blob, asking the file
    system for it, putting it on S3. *)
Definition isDelivery (e : Event) : bool :=
  match e with
  | FsOpen _ | FsExists _ | S3Put _ => true
  | _ => false
  end.
End Consistency.

(** ** A concrete environment

    A small instance of [Env] on which the service can be run: a digest of
    64 hexadecimal characters (the first 32 bytes of the content, padded),
    the extension of plain file names, percent-decoding, a 16-cell filter
    with two hashes, UTC+8. *)

Module Demo.

Definition hexDigit (n : nat) : ascii :=
  nth n (list_ascii_of_string "0123456789abcdef") "0"%char.

Fixpoint hexString (s : string) : string :=
  match s with
  | EmptyString => EmptyString
  | String c rest =>
      let n := nat_of_ascii c in
      String (hexDigit (n / 16)) (String (hexDigit (n mod 16)) (hexString rest))
  end.

Fixpoint zeroes (n : nat) : string :=
  match n with
  | O => EmptyString
  | S n' => String zero (zeroes n')
  end.

Definition digest (content : Buffer) : string :=
  hexString (String.substring 0 32 (content +:+ zeroes 32)).

(** The text from the last dot on, a leading dot apart. *)
Fixpoint fromLastDot (s : string) : option string :=
  match s with
  | EmptyString => None
  | String c rest =>
      match fromLastDot rest with
      | Some e => Some e
      | None => if Ascii.eqb c "." then Some s else None
      end
  end.

Definition extension (file : string) : string :=
  match file with
  | EmptyString => EmptyString
  | String _ rest => default EmptyString (fromLastDot rest)
  end.

Definition hexValue (c : ascii) : option nat :=
  let n := nat_of_ascii c in
  if (48 <=? n)%nat && (n <=? 57)%nat then Some (n - 48)%nat
  else if (97 <=? n)%nat && (n <=? 102)%nat then Some (n - 87)%nat
  else if (65 <=? n)%nat && (n <=? 70)%nat then Some (n - 55)%nat
  else None.

Fixpoint percentDecode (s : string) : option string :=
  match s with
  | EmptyString => Some EmptyString
  | String c rest =>
      if Ascii.eqb c "%" then
        match rest with
        | String a (String b rest') =>
            match hexValue a, hexValue b, percentDecode rest' with
            | Some x, Some y, Some r =>
                Some (String (ascii_of_nat (16 * x + y)) r)
            | _, _, _ => None
            end
        | _ => None
        end
      else option_map (String c) (percentDecode rest)
  end.

Definition unreserved (c : ascii) : bool :=
  let n := nat_of_ascii c in
  ((48 <=? n)%nat && (n <=? 57)%nat) || ((97 <=? n)%nat && (n <=? 122)%nat)
  || ((65 <=? n)%nat && (n <=? 90)%nat)
  || existsb (Ascii.eqb c) (list_ascii_of_string "-_.!~*'()").

Definition upperHexDigit (n : nat) : ascii :=
  nth n (list_ascii_of_string "0123456789ABCDEF") "0"%char.

Fixpoint percentEncode (s : string) : string :=
  match s with
  | EmptyString => EmptyString
  | String c rest =>
      if unreserved c then String c (percentEncode rest)
      else
        let n := nat_of_ascii c in
        String "%" (String (upperHexDigit (n / 16))
                      (String (upperHexDigit (n mod 16)) (percentEncode rest)))
  end.

(** The [n]-th UUID drawn: [n] in the last group. *)
Definition uuid (n : nat) : string :=
  "3f1c2a9e-5b7d-4e21-9c0a-" +:+
  string_of_list_ascii
    (map (fun i => hexDigit (N.to_nat ((N.of_nat n / 16 ^ N.of_nat i) mod 16)))
         (rev (seq 0 12))).

Fixpoint byteSum (s : string) : nat :=
  match s with
  | EmptyString => 0
  | String c rest => nat_of_ascii c + byteSum rest
  end.

#[global] Instance env : Env := {|
  sha256_hex := digest;
  extname := extension;
  decodeURIComponent := percentDecode;
  encodeURIComponent := percentEncode;
  randomUUID := uuid;
  hashIndex := fun e n => (byteSum e + n * S (String.length e))%nat;
  filterSize := 16;
  filterHashes := 2;
  timezoneOffset := (-480)%Z;
  AWS_BUCKET_NAME := "clouddrop";
  AWS_REGION := "ap-northeast-1";
  keySlot := String.length;
  tableSize := 256;
|}.

Definition emptyFilter : CountingBloomFilter.t :=
  CountingBloomFilter.mk 16 2 (replicate 16 (0, 0)%Z) 0.

(** The service just started on an empty directory and an empty Redis,
    on 2024-11-01 at 10:00 UTC. *)
Definition start : World :=
  mkWorld ∅ ∅ (Some (CountingBloomFilter.saveAsJSON emptyFilter)) emptyFilter
          [] 1730455200000 0 false false [].

Definition hello : UploadedFile := mkFile "ABC" "hello.txt".
End Demo.

(** ** Time passing *)

(** The world [ms] milliseconds later, nothing else having happened. *)
Definition advance (w : World) (ms : Z) : World :=
  mkWorld (uploads w) (redis w) (snapshot w) (bloomFilter w) (bucket w)
          (clock w + ms) (drawn w) (diskFails w) (s3Fails w) (trace w).

(** ** What [deleteByPattern] sends *)


(** ** [RedisClient.deleteHashByFileId] (clients/redisClient.js) *)

Section DeleteHashByFileId.
Context `{Env}.

(** [value.indexOf('_')]: [-1] when there is none. *)
Definition indexOfUnderscore (value : string) : Z :=
  match String.index 0 "_" value with
  | Some i => Z.of_nat i
  | None => (-1)%Z
  end.

(** [value.substring(0, endIndex)]: a negative index counts as 0, one
    past the end as the length. *)
Definition substringTo (value : string) (endIndex : Z) : string :=
  String.substring 0 (Z.to_nat endIndex) value.

(** The test on the value of a key: it is not empty, holds an
    underscore, and the text before its first underscore is the file
    id. *)
Definition ownedBy (specifiedFileId : string) (value : option string) : bool :=
  Js.truthy value && Js.includes (Js.toString value) "_" &&
  let endIndex := indexOfUnderscore (Js.toString value) in
  let fileId := substringTo (Js.toString value) endIndex in
  String.eqb fileId specifiedFileId.

(** The body of the [for] loop, with the counter it updates. *)
Definition deleteOwned (specifiedFileId key : string) (countDeleted : nat)
    : Task nat :=
  let* value := clientGet key in
  if ownedBy specifiedFileId value
  then clientDel [key] ;; ret (S countDeleted)
  else ret countDeleted.

(** [for (const x of xs) { count = body(x, count) }] *)
Fixpoint forOfCounting {A} (xs : list A) (count : nat)
    (body : A -> nat -> Task nat) : Task nat :=
  match xs with
  | [] => ret count
  | x :: rest =>
      let* count' := body x count in
      forOfCounting rest count' body
  end.

(** The [do ... while (cursor !== 0)] loop, entered with the given
    cursor and counter. *)
Fixpoint deleteHashByFileIdFrom (fuel : nat) (specifiedFileId : string)
    (cursor countDeleted : nat) : Task nat :=
  match fuel with
  | O => fun w => (OutOfFuel, w)
  | S fuel' =>
      let* state :=
        RedisClient.logAndRethrow
          (let* reply := clientScan cursor "*" 100 in
           let keys := snd reply in
           let* countDeleted' :=
             forOfCounting keys countDeleted (deleteOwned specifiedFileId) in
           ret (fst reply, countDeleted')) in
      if (fst state =? 0)%nat then ret (snd state)
      else deleteHashByFileIdFrom fuel' specifiedFileId (fst state) (snd state)
  end.

Definition deleteHashByFileId (fuel : nat) (specifiedFileId : string)
    : Task nat :=
  deleteHashByFileIdFrom fuel specifiedFileId 0 0.

(** The live keys [deleteHashByFileId] is after. *)
Definition owned (w : World) (specifiedFileId key : string) : bool :=
  ownedBy specifiedFileId (option_map value (liveEntry w key)).
End DeleteHashByFileId.

(** ** [S3Service]: the file list and the presigned URL *)

(** An entry of [Contents] in the reply to [ListObjectsV2]. *)
Record S3Item := mkItem {
  itemKey : string;
  itemSize : Z;
  (** a time value, in milliseconds *)
  itemLastModified : Z;
}.

(** An entry of the list [getFileList] answers. *)
Record FileEntry := mkFileEntry {
  entryOriginalName : string;
  entryFilename : string;
  entrySize : string;
  entryLastModified : Z;
}.

(** What S3 answers to the read calls of the service, an error being
    the rejection of the call. *)
Class S3Replies := {
  (** [ListObjectsV2Command({ Bucket, Prefix })]: its [Contents], [None]
      when the reply has none *)
  listObjectsV2 : string -> Js.Error + option (list S3Item);
  (** [HeadObjectCommand({ Bucket, Key })]: [Metadata.originalname] of the
      reply, [None] when the reply has no metadata or no such entry *)
  headObject : string -> Js.Error + option string;
  (** [getSignedUrl(client, new GetObjectCommand({ Bucket, Key }),
      { expiresIn })] *)
  getSignedUrl : string -> Z -> Js.Error + string;
  (** which of several rejections pending in a [Promise.all] arrives
      first *)
  firstRejection : Js.Error -> list Js.Error -> Js.Error;
  firstRejection_In :
    forall e rest, In (firstRejection e rest) (e :: rest);
}.

Module S3Files.

Definition units : list string := ["Bytes"; "KB"; "MB"; "GB"; "TB"].

(** The digits of a natural number. *)
Definition decimal (n : Z) : string :=
  NilZero.string_of_uint (N.to_uint (Z.to_N n)).

(** [x.toFixed(2)] for a number given by its exact value, of magnitude
    below 10^21: with [n] the integer for which [n / 100 - x] is closest
    to zero, the larger one of two, the digits of [n], padded to three,
    with a point before the last two; a minus sign before it when [x] is
    negative. *)
Definition toFixed2 (x : Q) : string :=
  let magnitude := Qabs x in
  let n := Qfloor (magnitude * 100 + (1 # 2))%Q in
  (if Qle_bool 0 x then "" else "-") +:+
  decimal (n / 100) +:+ "." +:+
  decimal (n mod 100 / 10) +:+ decimal (n mod 10).

(** The [while] loop of [_formatFileSize]: [unitIndex] starts at 0 and
    grows with every round, so the loop runs at most [units.length - 1]
    times, the number of [rounds] it is given here.  [size] is a double
    that starts as an integer and is divided by 1024, which is exact: it
    is kept as the rational it is. *)
Fixpoint scale (rounds : nat) (size : Q) (unitIndex : nat) : Q * nat :=
  match rounds with
  | O => (size, unitIndex)
  | S rounds' =>
      if Qle_bool 1024 size && (unitIndex <? length units - 1)%nat
      then scale rounds' (size / 1024)%Q (S unitIndex)
      else (size, unitIndex)
  end.

(** [_formatFileSize(bytes)], for the [Size] of an object, an integer. *)
Definition _formatFileSize (bytes : Z) : string :=
  let scaled := scale (length units - 1) (inject_Z bytes) 0 in
  toFixed2 (fst scaled) +:+ " " +:+ nth (snd scaled) units "undefined".

(** [s.split(sep)] for a separator of one character. *)
Fixpoint split (sep : ascii) (s : string) : list string :=
  match s with
  | EmptyString => [EmptyString]
  | String c rest =>
      if Ascii.eqb c sep then EmptyString :: split sep rest
      else match split sep rest with
           | first :: others => String c first :: others
           | [] => [String c EmptyString]
           end
  end.

(** [key.split('/').pop()] *)
Definition lastSegment (key : string) : string :=
  List.last (split "/" key) EmptyString.

Section S3Files.
Context `{Env} `{S3Replies}.

(** The callback mapped over [Contents]: what its promise settles to. *)
Definition describe (item : S3Item) : Js.Error + FileEntry :=
  match headObject (itemKey item) with
  | inl err => inl err
  | inr originalname =>
      if negb (Js.truthy originalname)
      then inl (Js.newError ("Metadata missing for file: " +:+ itemKey item))
      else inr (mkFileEntry (Js.toString originalname)
                            (lastSegment (itemKey item))
                            (_formatFileSize (itemSize item))
                            (itemLastModified item))
  end.

Fixpoint rejections {A} (settled : list (Js.Error + A)) : list Js.Error :=
  match settled with
  | [] => []
  | inl err :: rest => err :: rejections rest
  | inr _ :: rest => rejections rest
  end.

Fixpoint fulfilments {A} (settled : list (Js.Error + A)) : list A :=
  match settled with
  | [] => []
  | inl _ :: rest => fulfilments rest
  | inr a :: rest => a :: fulfilments rest
  end.

(** [Promise.all]: the values in the order of the promises, or the
    rejection that arrives first. *)
Definition promiseAll {A} (settled : list (Js.Error + A)) : Task (list A) :=
  match rejections settled with
  | [] => ret (fulfilments settled)
  | err :: others => throw (firstRejection err others)
  end.

(** [getFileList(userId)] *)
Definition getFileList (userId : option string) : Task (list FileEntry) :=
  if negb (Js.truthy userId)
  then throw (Js.newError "User ID is required to fetch the file list")
  else
    let prefix := "user/" +:+ Js.toString userId +:+ "/" in
    tryCatch
      (match listObjectsV2 prefix with
       | inl err => throw err
       | inr None => ret []
       | inr (Some []) => ret []
       | inr (Some contents) => promiseAll (map describe contents)
       end)
      (fun err => throw err).

(** [generatePresignedUrl(filename, type, id)] *)
Definition generatePresignedUrl (filename type id : string) : Task string :=
  let* key := S3Service._generateS3Key type id filename in
  let signedUrlExpireSeconds := (60 * 60 * 24 * 1)%Z in
  tryCatch
    (match getSignedUrl key signedUrlExpireSeconds with
     | inl err => throw err
     | inr url => ret url
     end)
    (fun err => throw err).
End S3Files.
End S3Files.

(** ** [ProfileController] (controllers/profileController.js) *)

(** What a handler sends: [res.status(code).json(body)]. *)
Record Response := mkResponse { status : Z; body : Js.JSON }.

Module ProfileController.
Section ProfileController.
Context `{Env} `{S3Replies}.

Definition entryToJSON (entry : FileEntry) : Js.JSON :=
  Js.JObj [ ("originalName", Js.JStr (entryOriginalName entry));
            ("filename", Js.JStr (entryFilename entry));
            ("size", Js.JStr (entrySize entry));
            ("lastModified", Js.JNum (entryLastModified entry)) ].

(** Reading the property [k] of a value that is an object or an array:
    an object has its fields, an array its [length] (and its indices,
    which no handler reads); the result is [None] for [undefined]. *)
Definition getProperty (v : Js.JSON) (k : string) : option Js.JSON :=
  match v with
  | Js.JObj fields => Js.getField fields k
  | Js.JArr items =>
      if String.eqb k "length" then Some (Js.JNum (Z.of_nat (length items)))
      else None
  | _ => None
  end.

(** [files.length], for [files] read from a reply: a [TypeError] on
    [undefined]. *)
Definition lengthOf (v : option Js.JSON) : Task (option Js.JSON) :=
  match v with
  | None =>
      throw (Js.mkError "TypeError"
               "Cannot read properties of undefined (reading 'length')")
  | Some v => ret (getProperty v "length")
  end.

(** The properties of an object literal that reach the JSON body:
    [JSON.stringify] leaves out those whose value is [undefined]. *)
Fixpoint defined (properties : list (string * option Js.JSON))
    : list (string * Js.JSON) :=
  match properties with
  | [] => []
  | (k, Some v) :: rest => (k, v) :: defined rest
  | (_, None) :: rest => defined rest
  end.

(** [getStagingFile(req, res)], with [type], [id] and [lastKey] standing
    for [req.query]; the service is called as
    [getFileList(type, id, lastKey)], of which it takes the first
    argument. *)
Definition getStagingFile (type id lastKey : option string) : Task Response :=
  if negb (Js.truthy type) || negb (Js.truthy id)
  then ret (mkResponse 400
              (Js.JObj [ ("message", Js.JStr "Type and ID are required.") ]))
  else
    tryCatch
      (let* fileList := S3Files.getFileList type in
       let reply := Js.JArr (map entryToJSON fileList) in
       let files := getProperty reply "files" in
       let nextLastKey := getProperty reply "lastKey" in
       let* len := lengthOf files in
       match len with
       | Some (Js.JNum 0) =>
           ret (mkResponse 404
                  (Js.JObj [ ("message",
                              Js.JStr "No files found for ${type}: ${id}") ]))
       | _ =>
           ret (mkResponse 200
                  (Js.JObj (defined [ ("file", files);
                                      ("lastKey", nextLastKey) ])))
       end)
      (fun error =>
         ret (mkResponse 500
                (Js.JObj [ ("message", Js.JStr "Failed to fetch staging files.");
                           ("error", Js.JStr (Js.message error)) ]))).

(** [getPresignedUrl(req, res)], with [userId] and [filename] standing
    for [req.query]. *)
Definition getPresignedUrl (userId filename : option string) : Task Response :=
  let type := "user" in
  if negb (Js.truthy userId) || negb (Js.truthy filename)
  then ret (mkResponse 400
              (Js.JObj [ ("message",
                          Js.JStr "Filename and userId are required") ]))
  else
    tryCatch
      (let* presignedUrl :=
         S3Files.generatePresignedUrl (Js.toString filename) type
           (Js.toString userId) in
       ret (mkResponse 200
              (Js.JObj [ ("message",
                          Js.JStr "Presigned URL generated successfully");
                         ("url", Js.JStr presignedUrl) ])))
      (fun error =>
         ret (mkResponse 500
                (Js.JObj [ ("message",
                            Js.JStr "Failed to generate presigned URL");
                           ("error", Js.JStr (Js.message error)) ]))).
End ProfileController.
End ProfileController.

(** ** The service under a sequence of requests *)


Section Requests.
Context `{Env}.



(** A task that leaves a part of the world as it is, whatever its
    outcome. *)
Definition keeps {A X} (part : World -> X) (c : Task A) : Prop :=
  forall w, part (snd (c w)) = part w.



End Requests.

(** * Properties *)

(** ** Strings *)

Lemma append_cons (c : ascii) (a b : string) :
  String c a +:+ b = String c (a +:+ b).
Proof. reflexivity. Qed.

Lemma append_length (a b : string) :
  String.length (a +:+ b) = (String.length a + String.length b)%nat.
Proof.
  induction a as [| c a IH]; [reflexivity |].
  rewrite append_cons. simpl. now rewrite IH.
Qed.

Lemma append_assoc (a b c : string) : (a +:+ b) +:+ c = a +:+ (b +:+ c).
Proof.
  induction a as [| x a IH]; [reflexivity |].
  rewrite !append_cons. now rewrite IH.
Qed.

Lemma append_inv_head (a x y : string) : a +:+ x = a +:+ y -> x = y.
Proof.
  induction a as [| c a IH]; simpl; [trivial |].
  intros [= Heq]. auto.
Qed.

(** Two splittings of a string at the same position are the same. *)
Lemma append_split (a b x y : string) :
  a +:+ x = b +:+ y -> String.length a = String.length b -> a = b /\ x = y.
Proof.
  revert b. induction a as [| c a IH]; intros [| d b]; simpl; try discriminate.
  - auto.
  - intros [= -> Heq] [= Hlen]. destruct (IH b Heq Hlen) as [-> ->]. auto.
Qed.

Lemma prefix_cons (a c : ascii) (p s : string) :
  String.prefix (String a p) (String c s)
  = if ascii_dec a c then String.prefix p s else false.
Proof. reflexivity. Qed.

Lemma prefix_append (p r : string) : String.prefix p (p +:+ r) = true.
Proof.
  induction p as [| c p IH]; simpl; [now destruct r |].
  destruct (ascii_dec c c); [exact IH | congruence].
Qed.

Lemma prefix_inv (p s : string) :
  String.prefix p s = true -> exists r, s = p +:+ r.
Proof.
  revert s. induction p as [| c p IH]; intros s Hp.
  - exists s. reflexivity.
  - destruct s as [| d s]; simpl in Hp; [discriminate |].
    destruct (ascii_dec c d) as [-> |]; [| discriminate].
    destruct (IH s Hp) as [r ->]. exists r. reflexivity.
Qed.

Lemma startsWith_append (p r : string) : Js.startsWith (p +:+ r) p = true.
Proof. apply prefix_append. Qed.

(** A name that begins with a digest, matched against a text of the same
    length: the text is the digest. *)
Lemma startsWith_same_length (digest extension h : string) :
  Js.startsWith (digest +:+ extension) h = true ->
  String.length digest = String.length h -> digest = h.
Proof.
  intros Hp Hlen. apply prefix_inv in Hp as [r Hr].
  now apply append_split in Hr as [? _].
Qed.

Lemma includes_of_startsWith (s p : string) :
  Js.startsWith s p = true -> Js.includes s p = true.
Proof. unfold Js.startsWith. destruct s; simpl; intros ->; reflexivity. Qed.

Lemma hashKey_inj (a b : string) : hashKey a = hashKey b -> a = b.
Proof.
  unfold hashKey. intros Heq. apply append_inv_head in Heq.
  apply append_split in Heq as [-> _]; [reflexivity |].
  apply (f_equal String.length) in Heq. rewrite !append_length in Heq.
  simpl in Heq. lia.
Qed.

(** The last character of a string. *)
Lemma last_char_append (x s : string) :
  s <> EmptyString ->
  String.get (String.length (x +:+ s) - 1) (x +:+ s)
  = String.get (String.length s - 1) s.
Proof.
  intros Hs. induction x as [| d x IH]; [reflexivity |].
  rewrite append_cons. simpl String.length.
  destruct (x +:+ s) as [| e rest] eqn:Hxs.
  - destruct x; [simpl in Hxs; contradiction | discriminate].
  - simpl. simpl in IH. rewrite Nat.sub_0_r in *. exact IH.
Qed.

Lemma hashKey_not_filenameKey (a b : string) : hashKey a <> filenameKey b.
Proof.
  unfold hashKey, filenameKey. intros Heq. apply append_inv_head in Heq.
  assert (Hlast : String.get (String.length (a +:+ ":hash") - 1) (a +:+ ":hash")
                  = String.get (String.length (b +:+ ":filename") - 1)
                               (b +:+ ":filename")) by now rewrite Heq.
  rewrite !last_char_append in Hlast by discriminate.
  discriminate.
Qed.

(** Looking for a text of one character. *)
Lemma prefix_one (a c : ascii) (v : string) :
  String.prefix (String a EmptyString) (String c v) = Ascii.eqb c a.
Proof.
  rewrite prefix_cons. destruct (ascii_dec a c) as [<- | Hne].
  - rewrite Ascii.eqb_refl. now destruct v.
  - symmetry. apply Ascii.eqb_neq. congruence.
Qed.

Lemma includes_one_cons (a c : ascii) (v : string) :
  Js.includes (String c v) (String a EmptyString)
  = Ascii.eqb c a || Js.includes v (String a EmptyString).
Proof.
  change (Js.includes (String c v) (String a EmptyString))
    with (String.prefix (String a EmptyString) (String c v)
          || Js.includes v (String a EmptyString)).
  now rewrite prefix_one.
Qed.

(** ** Generic facts on tasks *)

(** Normalise worlds given by their fields: setters and projections
    only, innermost first. *)
Ltac world_simpl :=
  cbv beta iota zeta delta
    [setUploads setRedis setSnapshot setBloomFilter setBucket setDrawn setTrace
     uploads redis snapshot bloomFilter bucket clock drawn diskFails s3Fails
     trace fst snd] in *.

(** The same for worlds built by a few setters on a world variable. *)
Ltac world_norm :=
  unfold setUploads, setRedis, setSnapshot, setBloomFilter, setBucket,
    setDrawn, setTrace in *;
  cbn [uploads redis snapshot bloomFilter bucket clock drawn diskFails s3Fails
       trace fst snd] in *.

(** Reduce the projections of worlds given by their fields. *)
Ltac world_proj :=
  cbn [uploads redis snapshot bloomFilter bucket clock drawn diskFails s3Fails
       trace fst snd] in *.

Lemma logAndRethrow_run {A} (c : Task A) (w : World) :
  RedisClient.logAndRethrow c w = c w.
Proof.
  unfold RedisClient.logAndRethrow, tryCatch, throw.
  destruct (c w) as [[a | e |] w']; reflexivity.
Qed.

Lemma liveEntry_setTrace (w : World) (t : list Event) (key : string) :
  liveEntry (setTrace w t) key = liveEntry w key.
Proof. reflexivity. Qed.

(** ** [setExpire] and the clock *)

Section DateFacts.
Context `{Env}.

Lemma setHours_whole_seconds now h :
  (parseIntDiv (setHours now h) 1000 * 1000 = setHours now h)%Z.
Proof.
  unfold parseIntDiv, setHours, localTZA, msPerDay, msPerHour.
  set (d := localDay now).
  replace (d * 86400000 + h * 3600000 - - timezoneOffset * 60000)%Z
    with ((d * 86400 + h * 3600 + timezoneOffset * 60) * 1000)%Z by ring.
  now rewrite Z.quot_mul.
Qed.

Lemma setHours_same_day now h :
  (0 <= h < 24)%Z -> localDay (setHours now h) = localDay now.
Proof.
  intros Hh. unfold setHours. unfold localDay at 1.
  replace (localDay now * msPerDay + h * msPerHour - localTZA + localTZA)%Z
    with (h * msPerHour + localDay now * msPerDay)%Z by ring.
  rewrite Z.div_add by (unfold msPerDay; lia).
  rewrite Z.div_small; [lia | unfold msPerDay, msPerHour; lia].
Qed.

Lemma setHours_time_of_day now h :
  (0 <= h < 24)%Z -> localTimeOfDay (setHours now h) = (h * msPerHour)%Z.
Proof.
  intros Hh. unfold setHours, localTimeOfDay.
  replace (localDay now * msPerDay + h * msPerHour - localTZA + localTZA)%Z
    with (h * msPerHour + localDay now * msPerDay)%Z by ring.
  rewrite Z.mod_add by (unfold msPerDay; lia).
  apply Z.mod_small. unfold msPerDay, msPerHour; lia.
Qed.

Lemma setHours_past now h :
  (h * msPerHour < localTimeOfDay now)%Z -> (setHours now h < now)%Z.
Proof.
  unfold setHours, localTimeOfDay, localDay. intros Hlt.
  pose proof (Z.div_mod (now + localTZA) msPerDay) as Hdm.
  unfold msPerDay in *. lia.
Qed.

(** What [setExpire(key)] does to the world. *)
Lemma setExpire_zero_run key w :
  let at3 := parseIntDiv (setHours (clock w) 3) 1000 in
  let w1 := setTrace w (trace w ++ [RedisExpireAt key at3]) in
  RedisClient.setExpire key 0 w =
    (Returned tt,
     match liveEntry w key with
     | Some e =>
         if (at3 * 1000 <=? clock w)%Z
         then setRedis w1 (delete key (redis w))
         else setRedis w1 (<[key := mkEntry (value e) (Some (at3 * 1000)%Z)]>
                             (redis w))
     | None => w1
     end).
Proof.
  intros at3 w1. subst at3 w1. unfold RedisClient.setExpire.
  rewrite logAndRethrow_run.
  change (0 =? 0)%Z with true. cbv iota.
  unfold clientExpireAt, bind, emit, liveEntry.
  destruct w as [u r s f b c d df sf t]. world_simpl.
  destruct (r !! key) as [e |]; [| reflexivity].
  destruct (expired c e); [reflexivity |].
  destruct (_ <=? c)%Z; reflexivity.
Qed.
End DateFacts.

(** C10.  [setExpire(key)] with the default [second = 0] issues a single
    [EXPIREAT] and no [EXPIRE]: the expiry is absolute, at 03:00:00 local
    time of the current calendar day.  A key that is still live afterwards
    carries exactly that expiry, and when the call is made after 03:00 the
    timestamp is in the past and the key is gone at once. *)
Theorem setExpire_default_is_3am_today `{Env} (key : string) (w : World) :
  let at3 := parseIntDiv (setHours (clock w) 3) 1000 in
  let w' := snd (RedisClient.setExpire key 0 w) in
  fst (RedisClient.setExpire key 0 w) = Returned tt /\
  trace w' = (trace w ++ [RedisExpireAt key at3])%list /\
  localDay (at3 * 1000) = localDay (clock w) /\
  localTimeOfDay (at3 * 1000) = (3 * msPerHour)%Z /\
  (forall e, liveEntry w' key = Some e -> expiry e = Some (at3 * 1000)%Z) /\
  ((3 * msPerHour < localTimeOfDay (clock w))%Z ->
   (at3 * 1000 < clock w)%Z /\ liveEntry w' key = None).
Proof.
  intros at3 w'. subst w'. rewrite setExpire_zero_run. fold at3. simpl.
  assert (Hat : (at3 * 1000)%Z = setHours (clock w) 3)
    by apply setHours_whole_seconds.
  split; [reflexivity |].
  split.
  { destruct (liveEntry w key); [destruct (at3 * 1000 <=? clock w)%Z |];
      reflexivity. }
  split; [rewrite Hat; apply setHours_same_day; lia |].
  split; [rewrite Hat; apply setHours_time_of_day; lia |].
  split.
  - intros e. unfold liveEntry at 2.
    destruct (redis w !! key) as [e0 |] eqn:Hk; simpl.
    + destruct (expired (clock w) e0) eqn:Hexp; simpl.
      * unfold liveEntry. simpl. rewrite Hk, Hexp. discriminate.
      * destruct (at3 * 1000 <=? clock w)%Z eqn:Hle; unfold liveEntry; simpl.
        -- rewrite lookup_delete_eq. discriminate.
        -- rewrite lookup_insert_eq. unfold expired. simpl. rewrite Hle.
           intros [= <-]. reflexivity.
    + unfold liveEntry. simpl. rewrite Hk. discriminate.
  - intros Hlate. apply setHours_past in Hlate. rewrite <- Hat in Hlate.
    split; [exact Hlate |].
    assert (Hle : (at3 * 1000 <=? clock w)%Z = true) by (apply Z.leb_le; lia).
    rewrite Hle. unfold liveEntry at 2.
    destruct (redis w !! key) as [e0 |] eqn:Hk; simpl.
    + destruct (expired (clock w) e0) eqn:Hexp; unfold liveEntry; simpl.
      * now rewrite Hk, Hexp.
      * now rewrite lookup_delete_eq.
    + unfold liveEntry. simpl. now rewrite Hk.
Qed.

(** ** Running the Redis client *)

Section RedisRuns.
Context `{Env}.

Lemma set_run key val w :
  RedisClient.set key val w =
    (Returned tt,
     setRedis (setTrace w (trace w ++ [RedisSet key val]))
              (<[key := mkEntry val None]> (redis w))).
Proof. unfold RedisClient.set. now rewrite logAndRethrow_run. Qed.

Lemma setExpire_seconds_run key seconds e w :
  (0 < seconds)%Z ->
  liveEntry w key = Some e ->
  RedisClient.setExpire key seconds w =
    (Returned tt,
     setRedis (setTrace w (trace w ++ [RedisExpire key seconds]))
              (<[key := mkEntry (value e)
                          (Some (clock w + seconds * 1000)%Z)]> (redis w))).
Proof.
  intros Hpos Hlive. unfold RedisClient.setExpire.
  rewrite logAndRethrow_run.
  destruct (seconds =? 0)%Z eqn:Hz; [apply Z.eqb_eq in Hz; lia |].
  unfold clientExpire, bind, emit. rewrite liveEntry_setTrace, Hlive.
  destruct (seconds <=? 0)%Z eqn:Hle; [apply Z.leb_le in Hle; lia |].
  reflexivity.
Qed.

Lemma get_run key w :
  RedisClient.get key w =
    (Returned (option_map value (liveEntry w key)),
     setTrace w (trace w ++ [RedisGet key])).
Proof. unfold RedisClient.get. now rewrite logAndRethrow_run. Qed.

Lemma del_run key w :
  RedisClient.del key w =
    (Returned tt,
     setRedis (setTrace w (trace w ++ [RedisDel [key]]))
              (delete key (redis w))).
Proof. unfold RedisClient.del. now rewrite logAndRethrow_run. Qed.

Lemma connect_run w :
  RedisClient.connect w = (Returned tt, setTrace w (trace w ++ [RedisConnect])).
Proof. unfold RedisClient.connect. now rewrite logAndRethrow_run. Qed.

Lemma liveEntry_fresh w key val (r : gmap string RedisEntry) :
  redis w = <[key := mkEntry val None]> r ->
  liveEntry w key = Some (mkEntry val None).
Proof.
  intros Hr. unfold liveEntry. rewrite Hr, lookup_insert_eq. reflexivity.
Qed.
End RedisRuns.

Section UploadRuns.
Context `{Env}.

(** The Redis keyspace once the record of an upload is saved. *)
Lemma _saveFileInfo_run fileId fileHash originalFilename w :
  let deadline := (clock w + 3600 * 24 * 30 * 1000)%Z in
  InternetFileService._saveFileInfo fileId fileHash originalFilename w =
    (Returned tt,
     setRedis
       (setTrace w
          (trace w ++
             [ RedisSet (hashKey fileId) fileHash;
               RedisExpire (hashKey fileId) (3600 * 24 * 30);
               RedisSet (filenameKey fileId) originalFilename;
               RedisExpire (filenameKey fileId) (3600 * 24 * 30) ]))
       (<[filenameKey fileId := mkEntry originalFilename (Some deadline)]>
          (<[hashKey fileId := mkEntry fileHash (Some deadline)]> (redis w)))).
Proof.
  intros deadline. unfold InternetFileService._saveFileInfo, unawaited, bind.
  rewrite set_run. cbn [snd].
  erewrite setExpire_seconds_run;
    [| lia | eapply liveEntry_fresh; reflexivity].
  rewrite set_run.
  erewrite setExpire_seconds_run;
    [| lia | eapply liveEntry_fresh; reflexivity].
  simpl. rewrite !insert_insert_eq. rewrite <- !app_assoc. reflexivity.
Qed.

Lemma uploadFile_run file name w :
  decodeURIComponent (originalname file) = Some name ->
  let w1 := recorded w file name in
  let blob := sha256_hex (buffer file) +:+ extname name in
  let filter' := CountingBloomFilter.add hashIndex (bloomFilter w) (buffer file) in
  InternetFileService.uploadFile (Some file) w =
    if CountingBloomFilter.has hashIndex (bloomFilter w) (buffer file)
    then (Returned (uploadAnswer w name), w1)
    else if diskFails w
    then (Thrown (Js.newError
            "Error: ENOSPC: no space left on device, write"),
          setTrace w1 (trace w1 ++ [FsWriteFile blob]))
    else
      (Returned (uploadAnswer w name),
       mkWorld (<[blob := buffer file]> (uploads w)) (redis w1)
         (Some (CountingBloomFilter.saveAsJSON filter')) filter'
         (bucket w) (clock w) (S (drawn w)) (diskFails w) (s3Fails w)
         (trace w1 ++
            [ FsWriteFile blob; BloomAdd (buffer file); RedisConnect;
              FilterSave (CountingBloomFilter.saveAsJSON filter') ])).
Proof.
  intros Hname w1 blob filter'. subst w1 blob filter'.
  unfold InternetFileService.uploadFile, tryCatch, bind at 1.
  unfold InternetFileService.drawUUID, bind at 1, emit, ret.
  rewrite Hname. unfold bind at 1.
  rewrite _saveFileInfo_run.
  unfold bind at 1, InternetFileService.bloomHas, bind at 1, emit, ret.
  unfold recorded, uploadAnswer, InternetFileService._calculateFileHash,
    InternetFileService._generateUniqueFilename.
  destruct w as [u r s f b c d df sf t]. world_simpl.
  destruct (CountingBloomFilter.has hashIndex f (buffer file)) eqn:Hhas.
  - unfold bind, ret. rewrite <- !app_assoc. reflexivity.
  - unfold bind at 1, bind at 1, InternetFileService.writeFile, bind at 1, emit.
    world_simpl. destruct df.
    + unfold throw, Js.newError, Js.errorToString. cbn [Js.name Js.message].
      rewrite <- !app_assoc. reflexivity.
    + unfold bind at 1, InternetFileService.bloomAdd, bind at 1, emit.
      world_simpl. unfold bind at 1. rewrite connect_run. world_simpl.
      unfold RedisClient.saveBloomFilter, bind at 1, emit, ret. world_simpl.
      rewrite <- !app_assoc. reflexivity.
Qed.
End UploadRuns.

Section UploadFacts.
Context `{Env}.

Lemma uploadFile_undecodable file w :
  decodeURIComponent (originalname file) = None ->
  exists e w', InternetFileService.uploadFile (Some file) w = (Thrown e, w').
Proof.
  intros Hname.
  unfold InternetFileService.uploadFile, tryCatch, bind.
  unfold InternetFileService.drawUUID, bind, emit, ret. simpl.
  rewrite Hname. unfold throw. eauto.
Qed.

Lemma issued_app (w : World) (evs t : list Event) :
  t = (trace w ++ evs)%list -> drop (length (trace w)) t = evs.
Proof. intros ->. apply drop_app_length. Qed.

(** The record of an upload can be read back from the world [recorded]
    builds, and from any world with the same Redis and clock. *)
Lemma recorded_resolves w file name w' :
  redis w' = redis (recorded w file name) ->
  clock w' = clock w ->
  option_map value (liveEntry w' (hashKey (randomUUID (drawn w))))
    = Some (sha256_hex (buffer file)) /\
  option_map value (liveEntry w' (filenameKey (randomUUID (drawn w))))
    = Some name.
Proof.
  intros Hredis Hclock. unfold liveEntry. rewrite Hredis, Hclock. simpl.
  rewrite lookup_insert_eq.
  rewrite lookup_insert_ne by (intros Heq; symmetry in Heq;
                               now apply hashKey_not_filenameKey in Heq).
  rewrite lookup_insert_eq. unfold expired. simpl.
  assert (Hlater : (clock w + 3600 * 24 * 30 * 1000 <=? clock w)%Z = false)
    by (apply Z.leb_gt; lia).
  rewrite Hlater. auto.
Qed.
End UploadFacts.

(** C1 (as amended).  A successful upload answers an object with exactly
    two properties: [fileId], the UUID generated for this call, and
    [fileName], the percent-decoded original filename.  It carries no
    [alreadyExisted] property, whatever the filter said. *)
Theorem upload_answers_id_and_name `{Env} (file : UploadedFile) (w w' : World)
    (answer : Js.JSON) :
  InternetFileService.uploadFile (Some file) w = (Returned answer, w') ->
  exists name,
    decodeURIComponent (originalname file) = Some name /\
    answer = Js.JObj [ ("fileId", Js.JStr (randomUUID (drawn w)));
                       ("fileName", Js.JStr name) ] /\
    (forall fields, answer = Js.JObj fields ->
                    Js.getField fields "alreadyExisted" = None).
Proof.
  intros Hrun.
  destruct (decodeURIComponent (originalname file)) as [name |] eqn:Hname.
  - exists name. split; [reflexivity |].
    rewrite (uploadFile_run file name w Hname) in Hrun.
    assert (Hanswer : answer = uploadAnswer w name).
    { destruct (CountingBloomFilter.has hashIndex (bloomFilter w) (buffer file));
        [| destruct (diskFails w)]; congruence. }
    subst answer. split; [reflexivity |].
    intros fields [= <-]. reflexivity.
  - destruct (uploadFile_undecodable file w Hname) as (e & w1 & Hthrown).
    congruence.
Qed.

(** C1, the claim as stated fails: the first upload of a payload succeeds
    and its answer has no [alreadyExisted] property, so it is not the
    boolean [false]. *)
Lemma first_upload_has_no_alreadyExisted :
  exists fields w',
    InternetFileService.uploadFile (Some Demo.hello) Demo.start
      = (Returned (Js.JObj fields), w') /\
    Js.getField fields "alreadyExisted" <> Some (Js.JBool false).
Proof.
  eexists _, _. split; [vm_compute; reflexivity |]. vm_compute. discriminate.
Qed.

(** X24.  Whatever becomes of an upload whose name decodes (the content
    already known, the blob written, or the write refused by the disk),
    its calls go out in the order of the source: the UUID, then the four
    commands of the record (SET and EXPIRE of the hash, SET and EXPIRE of
    the filename), then the question to the filter; a blob write, the
    addition to the filter, the connect and the save of the snapshot come
    after, in that order, and the last three only after a write that
    succeeded.  So the commands of the record have been handed to the
    client when the filter is asked and before any write, also when the
    write then fails.  (That Redis has answered them by then is not
    stated: the source awaits none of them.) *)
Theorem upload_issues_record_first `{Env} (file : UploadedFile) (name : string)
    (w : World) :
  decodeURIComponent (originalname file) = Some name ->
  let fileId := randomUUID (drawn w) in
  let fileHash := sha256_hex (buffer file) in
  let blob := fileHash +:+ extname name in
  let known := CountingBloomFilter.has hashIndex (bloomFilter w) (buffer file) in
  let run := InternetFileService.uploadFile (Some file) w in
  let record :=
    [ RandomUUID fileId;
      RedisSet (hashKey fileId) fileHash;
      RedisExpire (hashKey fileId) (3600 * 24 * 30);
      RedisSet (filenameKey fileId) name;
      RedisExpire (filenameKey fileId) (3600 * 24 * 30);
      BloomHas (buffer file) known ] in
  issued w (snd run) =
    (record ++
     if known then []
     else if diskFails w then [FsWriteFile blob]
     else [ FsWriteFile blob; BloomAdd (buffer file); RedisConnect;
            FilterSave (CountingBloomFilter.saveAsJSON (bloomFilter (snd run))) ])%list
  /\ (known = false -> diskFails w = true -> exists e, fst run = Thrown e).
Proof.
  intros Hname fileId fileHash blob known run record.
  subst run record known blob fileHash fileId.
  rewrite (uploadFile_run file name w Hname).
  destruct (CountingBloomFilter.has hashIndex (bloomFilter w) (buffer file))
    eqn:Hknown.
  - split.
    + unfold issued. apply issued_app. unfold recorded. world_proj.
      now rewrite Hknown, app_nil_r.
    + discriminate.
  - destruct (diskFails w) eqn:Hdisk.
    + split.
      * unfold issued. apply issued_app. unfold recorded. world_proj.
        now rewrite Hknown, <- app_assoc.
      * eauto.
    + split.
      * unfold issued. apply issued_app. unfold recorded. world_proj.
        now rewrite Hknown, <- app_assoc.
      * discriminate.
Qed.

(** ** Download *)

Section DownloadRuns.
Context `{Env}.

Lemma names_lookup {A} (m : gmap string A) (file : string) :
  In file (map fst (map_to_list m)) <-> is_Some (m !! file).
Proof.
  rewrite in_map_iff. split.
  - intros ([name data] & <- & Hin). apply list_elem_of_In in Hin.
    apply elem_of_map_to_list in Hin. simpl. eauto.
  - intros [data Hdata]. exists (file, data). split; [reflexivity |].
    apply list_elem_of_In. now apply elem_of_map_to_list.
Qed.

Lemma listing_lookup w file :
  In file (listing w) <-> is_Some (uploads w !! file).
Proof. apply names_lookup. Qed.

Lemma find_nothing {A} (f : A -> bool) (l : list A) :
  (forall x, In x l -> f x = false) -> find f l = None.
Proof.
  induction l as [| a l IH]; intros Hall; [reflexivity |].
  simpl. rewrite (Hall a) by now left. apply IH. intros x Hx. apply Hall.
  now right.
Qed.

(** The lookup that opens [download]: connect, read the hash, list the
    directory; the rest of the method runs from there. *)
Lemma download_run way fileId type id w :
  let fileHash := option_map value (liveEntry w (hashKey fileId)) in
  let matchedFile :=
    find (fun file => Js.startsWith file (Js.toString fileHash)) (listing w) in
  let w1 := setTrace w (trace w ++ [ RedisConnect; RedisGet (hashKey fileId);
                                     FsReaddir ]) in
  InternetFileService.download way fileId type id w =
    (if negb (Js.truthy matchedFile)
     then throw (Js.newError "File not found")
     else
       let matchedFile := Js.toString matchedFile in
       if String.eqb way "local"
       then InternetFileService._localDownload matchedFile fileId
       else if String.eqb way "staging-area" then
         if negb (Js.truthy type) || negb (Js.truthy id)
         then throw (Js.newError
           "Type and id query parameters are required for staging-area download.")
         else InternetFileService._stagingAreaDownload (Js.toString type)
                matchedFile matchedFile fileId (Js.toString id)
       else if String.eqb way "google-cloud" then ret NoDownload
       else throw (Js.newError "Invalid download way.")) w1.
Proof.
  intros fileHash matchedFile w1. subst fileHash matchedFile w1.
  unfold InternetFileService.download, bind at 1.
  rewrite connect_run. unfold bind at 1. rewrite get_run.
  unfold bind at 1. unfold InternetFileService.readdir, bind at 1, emit.
  unfold listing, liveEntry.
  destruct w as [u r s f b c d df sf t]. world_simpl.
  rewrite <- !app_assoc. reflexivity.
Qed.

Lemma _localDownload_run file fileId data w :
  uploads w !! file = Some data ->
  InternetFileService._localDownload file fileId w =
    (Returned (LocalDownload data
                 (option_map value (liveEntry w (filenameKey fileId)))),
     setTrace w (trace w ++ [ FsOpen file; RedisConnect;
                              RedisGet (filenameKey fileId) ])).
Proof.
  intros Hdata.
  unfold InternetFileService._localDownload, bind at 1.
  unfold InternetFileService.openStream, bind at 1, emit.
  destruct w as [u r s f b c d df sf t]. world_simpl.
  rewrite Hdata. unfold bind at 1. rewrite connect_run.
  unfold bind at 1. rewrite get_run. unfold ret, liveEntry. world_simpl.
  rewrite <- !app_assoc. reflexivity.
Qed.

Lemma _stagingAreaDownload_run type file fileId id data w :
  uploads w !! file = Some data ->
  type = "user" \/ type = "room" ->
  s3Fails w = false ->
  let originalFilename := option_map value (liveEntry w (filenameKey fileId)) in
  let key := type +:+ "/" +:+ id +:+ "/" +:+ file in
  InternetFileService._stagingAreaDownload type file file fileId id w =
    (Returned
       (StagingAreaDownload fileId originalFilename
          ("https://" +:+ AWS_BUCKET_NAME +:+ ".s3." +:+ AWS_REGION
             +:+ ".amazonaws.com/" +:+ key)),
     setBucket
       (setTrace w (trace w ++ [ RedisConnect; RedisGet (filenameKey fileId);
                                 FsExists file; S3Put key ]))
       (mkObject key data (encodeURIComponent (Js.toString originalFilename))
          :: bucket w)).
Proof.
  intros Hdata Htype Hs3 originalFilename key. subst originalFilename.
  unfold InternetFileService._stagingAreaDownload, bind at 1.
  rewrite connect_run. unfold bind at 1. rewrite get_run.
  unfold S3Service.uploadFile, bind at 1.
  assert (Hkey : forall w0, S3Service._generateS3Key type id file w0
                            = (Returned key, w0)).
  { intros w0. unfold S3Service._generateS3Key, key.
    destruct Htype as [-> | ->]; reflexivity. }
  unfold bind at 1. rewrite Hkey.
  unfold S3Service.existsSync, S3Service.putObject, tryCatch, bind, emit, ret,
    liveEntry.
  destruct w as [u r s f b c d df sf t]. world_simpl.
  rewrite Hdata, Hs3.
  rewrite bool_decide_eq_true_2 by eauto. cbn [negb].
  world_simpl. rewrite Hdata. cbn [default from_option].
  rewrite <- !app_assoc. reflexivity.
Qed.
End DownloadRuns.

Section DownloadFacts.
Context `{Env}.

(** No digest-named file begins with the text [null]. *)
Lemma blob_name_not_null w file :
  hexDigests -> blobNamed w -> In file (listing w) ->
  Js.startsWith file "null" = false.
Proof.
  intros Hhex Hnamed Hin. apply listing_lookup in Hin as [data Hdata].
  destruct (Hnamed file data Hdata) as [extension ->].
  destruct (Hhex data) as [Hlen Hall].
  destruct (sha256_hex data) as [| c rest]; [discriminate |].
  rewrite append_cons. unfold Js.startsWith. rewrite prefix_cons.
  destruct (ascii_dec "n" c) as [<- |]; [| reflexivity].
  simpl in Hall. discriminate.
Qed.

Lemma download_not_found_run way fileId type id w :
  (forall file, In file (listing w) ->
     Js.startsWith file
       (Js.toString (option_map value (liveEntry w (hashKey fileId)))) = false) ->
  InternetFileService.download way fileId type id w =
    (Thrown (Js.newError "File not found"),
     setTrace w (trace w ++ [ RedisConnect; RedisGet (hashKey fileId);
                              FsReaddir ])).
Proof.
  intros Hnone. rewrite download_run. simpl.
  rewrite find_nothing by exact Hnone. reflexivity.
Qed.
End DownloadFacts.

(** C9.  When no file of the upload directory begins with the hash stored
    for the file id, [download] fails with [File not found] right after the
    lookup: it has connected, read the hash and listed the directory, and
    nothing else; no blob is opened and nothing reaches S3, whatever [way],
    [type] and [id] are.  A file id with no stored hash is looked up under
    the text [null]; in a directory of digest-named blobs no file begins
    with it, so the call fails the same way. *)
Theorem download_without_blob_fails `{Env} (way fileId : string)
    (type id : option string) (w : World) :
  let fileHash := option_map value (liveEntry w (hashKey fileId)) in
  let run := InternetFileService.download way fileId type id w in
  let notFound :=
    fst run = Thrown (Js.newError "File not found") /\
    issued w (snd run) = [ RedisConnect; RedisGet (hashKey fileId); FsReaddir ] /\
    filter isDelivery (issued w (snd run)) = [] /\
    bucket (snd run) = bucket w in
  ((forall file, In file (listing w) ->
      Js.startsWith file (Js.toString fileHash) = false) -> notFound) /\
  (fileHash = None -> hexDigests -> blobNamed w -> notFound).
Proof.
  intros fileHash run notFound.
  assert (Hmain : (forall file, In file (listing w) ->
                     Js.startsWith file (Js.toString fileHash) = false) ->
                  notFound).
  { intros Hnone. subst notFound run.
    rewrite (download_not_found_run way fileId type id w Hnone). simpl.
    assert (Hissued : issued w
              (setTrace w (trace w ++ [ RedisConnect; RedisGet (hashKey fileId);
                                        FsReaddir ]))
            = [ RedisConnect; RedisGet (hashKey fileId); FsReaddir ])
      by (unfold issued; now apply issued_app).
    rewrite Hissued. auto. }
  split; [exact Hmain |].
  intros Hnull Hhex Hnamed. apply Hmain. intros file Hin. rewrite Hnull.
  now apply (blob_name_not_null w).
Qed.

(** C4 (as amended).  With a blob [file] found for the stored hash:
    [local] answers the content of the blob and the stored filename;
    [staging-area] fails with the validation error when [type] or [id] is
    missing or empty, and with [type] one of [user] and [room], S3
    accepting the put, it puts the blob under [{type}/{id}/{file}] and
    answers that location; [google-cloud] answers nothing and raises no
    error; every other [way] fails with [Invalid download way.]. *)
Theorem download_dispatch `{Env} (way fileId file : string)
    (type id : option string) (w : World) :
  let fileHash := option_map value (liveEntry w (hashKey fileId)) in
  let originalFilename := option_map value (liveEntry w (filenameKey fileId)) in
  let run := InternetFileService.download way fileId type id w in
  find (fun file => Js.startsWith file (Js.toString fileHash)) (listing w)
    = Some file ->
  file <> EmptyString ->
  exists data,
    uploads w !! file = Some data /\
    (way = "local" -> fst run = Returned (LocalDownload data originalFilename)) /\
    (way = "staging-area" ->
       (Js.truthy type = false \/ Js.truthy id = false ->
          fst run = Thrown (Js.newError
            "Type and id query parameters are required for staging-area download.")
          /\ bucket (snd run) = bucket w) /\
       (forall t i, type = Some t -> id = Some i ->
          t = "user" \/ t = "room" -> i <> EmptyString -> s3Fails w = false ->
          let key := t +:+ "/" +:+ i +:+ "/" +:+ file in
          let location := "https://" +:+ AWS_BUCKET_NAME +:+ ".s3." +:+ AWS_REGION
                            +:+ ".amazonaws.com/" +:+ key in
          fst run = Returned (StagingAreaDownload fileId originalFilename location)
          /\ bucket (snd run)
             = mkObject key data
                 (encodeURIComponent (Js.toString originalFilename))
               :: bucket w)) /\
    (way = "google-cloud" -> fst run = Returned NoDownload) /\
    (way <> "local" -> way <> "staging-area" -> way <> "google-cloud" ->
       fst run = Thrown (Js.newError "Invalid download way.")).
Proof.
  intros fileHash originalFilename run Hfind Hname.
  assert (Hin : is_Some (uploads w !! file)).
  { apply listing_lookup. now apply find_some in Hfind as [? _]. }
  destruct Hin as [data Hdata]. exists data. split; [exact Hdata |].
  assert (Htruthy : Js.truthy (Some file) = true)
    by (destruct file; [contradiction | reflexivity]).
  subst run. rewrite download_run. fold fileHash. rewrite Hfind, Htruthy.
  cbv zeta. change (negb true) with false. cbv iota.
  change (Js.toString (Some file)) with file.
  split; [| split; [| split]].
  - intros ->. rewrite String.eqb_refl.
    erewrite _localDownload_run by exact Hdata. reflexivity.
  - intros ->. change ("staging-area" =? "local") with false.
    rewrite String.eqb_refl. cbv iota. split.
    + intros Hmissing.
      assert (Hor : negb (Js.truthy type) || negb (Js.truthy id) = true)
        by (destruct Hmissing as [-> | ->]; simpl;
            [reflexivity | apply orb_true_r]).
      rewrite Hor. split; reflexivity.
    + intros t i -> -> Ht Hi Hs3.
      assert (Hor : negb (Js.truthy (Some t)) || negb (Js.truthy (Some i)) = false).
      { destruct i; [contradiction |]. destruct Ht as [-> | ->]; reflexivity. }
      rewrite Hor. change (Js.toString (Some t)) with t.
      change (Js.toString (Some i)) with i.
      erewrite _stagingAreaDownload_run by (exact Hdata || exact Ht || exact Hs3).
      split; reflexivity.
  - intros ->. reflexivity.
  - intros Hl Hs Hg.
    apply String.eqb_neq in Hl, Hs, Hg. rewrite Hl, Hs, Hg. reflexivity.
Qed.

(** C4, the claim as stated fails: with the blob of an upload on disk,
    [google-cloud] is a value of [way] other than [local] and
    [staging-area], and the download returns without an error. *)
Lemma download_google_cloud_does_not_fail :
  let w := snd (InternetFileService.uploadFile (Some Demo.hello) Demo.start) in
  find (fun file => Js.startsWith file (Demo.digest "ABC")) (listing w)
    = Some (Demo.digest "ABC" +:+ ".txt") /\
  fst (InternetFileService.download "google-cloud" (Demo.uuid 0) None None w)
    = Returned NoDownload.
Proof. vm_compute. split; reflexivity. Qed.

(** ** The counting bloom filter *)

Section FilterFacts.
Context `{Env}.

Lemma increment_cellFor c :
  CountingBloomFilter.increment (cellFor c) = cellFor (c + 1).
Proof.
  unfold CountingBloomFilter.increment, cellFor. simpl.
  destruct (0 <? c + 1)%Z eqn:Hnext; [reflexivity |].
  destruct (0 <? c)%Z eqn:Hnow; [lia | reflexivity].
Qed.

Lemma decrement_cellFor c :
  CountingBloomFilter.decrement (cellFor c) = cellFor (c - 1).
Proof.
  unfold CountingBloomFilter.decrement, cellFor. simpl.
  destruct (c - 1 <=? 0)%Z eqn:Hnext.
  - destruct (0 <? c - 1)%Z eqn:Hpos; [lia | reflexivity].
  - destruct (0 <? c)%Z eqn:Hnow; destruct (0 <? c - 1)%Z eqn:Hpos;
      try reflexivity; lia.
Qed.

Lemma iter_increment n c :
  Nat.iter n CountingBloomFilter.increment (cellFor c)
  = cellFor (c + Z.of_nat n).
Proof.
  induction n as [| n IH]; [simpl; f_equal; lia |].
  rewrite Nat.iter_succ, IH, increment_cellFor. f_equal. lia.
Qed.

Lemma iter_decrement n c :
  Nat.iter n CountingBloomFilter.decrement (cellFor c)
  = cellFor (c - Z.of_nat n).
Proof.
  induction n as [| n IH]; [simpl; f_equal; lia |].
  rewrite Nat.iter_succ, IH, decrement_cellFor. f_equal. lia.
Qed.

(** A cell after the loop of [add] or [remove]: the step applied once
    for every occurrence of the cell among the indexes. *)
Lemma updateCells_lookup f indexes cells i :
  CountingBloomFilter.updateCells f indexes cells !! i
  = Nat.iter (count_occ Nat.eq_dec indexes i) f <$> (cells !! i).
Proof.
  unfold CountingBloomFilter.updateCells.
  revert cells. induction indexes as [| j indexes IH]; intros cells.
  - simpl. now destruct (cells !! i).
  - simpl fold_left. rewrite IH. simpl count_occ.
    destruct (Nat.eq_dec j i) as [-> | Hne].
    + rewrite list_lookup_alter_eq.
      destruct (cells !! i) as [cell |]; [| reflexivity].
      cbn [fmap option_fmap option_map]. f_equal.
      symmetry. apply Nat.iter_succ_r.
    + now rewrite list_lookup_alter_ne.
Qed.

Lemma expectedCells_lookup size hashCount elements i :
  expectedCells size hashCount elements !! i
  = if decide (i < size)%nat
    then Some (cellFor (hits size hashCount elements i))
    else None.
Proof.
  unfold expectedCells. rewrite list_lookup_fmap.
  destruct (decide (i < size)%nat) as [Hlt | Hge].
  - now rewrite lookup_seq_lt.
  - rewrite lookup_seq_ge by lia. reflexivity.
Qed.

Lemma hits_nonneg size hashCount elements i :
  (0 <= hits size hashCount elements i)%Z.
Proof. induction elements; simpl; lia. Qed.

Lemma hits_member size hashCount elements e i :
  In e elements ->
  (Z.of_nat (count_occ Nat.eq_dec
               (CountingBloomFilter.getIndexes hashIndex e size hashCount) i)
   <= hits size hashCount elements i)%Z.
Proof.
  induction elements as [| x elements IH]; [contradiction |].
  intros [-> | Hin]; simpl.
  - pose proof (hits_nonneg size hashCount elements i). lia.
  - specialize (IH Hin). lia.
Qed.

Lemma hits_removeOne size hashCount e held held' i :
  removeOne e held = Some held' ->
  hits size hashCount held i
  = (Z.of_nat (count_occ Nat.eq_dec
                 (CountingBloomFilter.getIndexes hashIndex e size hashCount) i)
     + hits size hashCount held' i)%Z.
Proof.
  revert held'. induction held as [| x held IH]; intros held'; [discriminate |].
  simpl. destruct (String.eqb x e) eqn:Hx.
  - apply String.eqb_eq in Hx as ->. now intros [= <-].
  - destruct (removeOne e held) as [rest |]; [| discriminate].
    intros [= <-]. simpl. rewrite (IH rest eq_refl). lia.
Qed.

Lemma create_summarises size nbHashes filter :
  CountingBloomFilter.create size nbHashes = Some filter ->
  summarises filter [] /\ CountingBloomFilter._size filter = size
  /\ CountingBloomFilter._nbHashes filter = nbHashes /\ (1 <= nbHashes)%nat.
Proof.
  unfold CountingBloomFilter.create.
  destruct (nbHashes <? 1)%nat eqn:Hk; [discriminate |]. intros [= <-].
  apply Nat.ltb_ge in Hk. repeat split; try assumption.
  unfold summarises. simpl. apply list_eq. intros i.
  rewrite expectedCells_lookup. destruct (decide (i < size)%nat).
  - now rewrite lookup_replicate_2.
  - apply lookup_replicate_None. lia.
Qed.

Lemma add_summarises filter elements e :
  summarises filter elements ->
  summarises (CountingBloomFilter.add hashIndex filter e) (e :: elements).
Proof.
  unfold summarises. intros Hsum. simpl. apply list_eq. intros i.
  rewrite updateCells_lookup, Hsum, !expectedCells_lookup.
  destruct (decide (i < CountingBloomFilter._size filter)%nat);
    [| reflexivity].
  simpl. rewrite iter_increment. do 2 f_equal. lia.
Qed.

Lemma remove_summarises filter elements elements' e :
  summarises filter elements ->
  removeOne e elements = Some elements' ->
  summarises (CountingBloomFilter.remove hashIndex filter e) elements'.
Proof.
  unfold summarises. intros Hsum Hrem. simpl. apply list_eq. intros i.
  rewrite updateCells_lookup, Hsum, !expectedCells_lookup.
  destruct (decide (i < CountingBloomFilter._size filter)%nat);
    [| reflexivity].
  simpl. rewrite iter_decrement.
  rewrite (hits_removeOne _ _ e elements elements' i Hrem).
  do 2 f_equal. lia.
Qed.

Lemma applyOps_summarises ops filter held held' :
  summarises filter held ->
  heldAfter ops held = Some held' ->
  summarises (applyOps filter ops) held'.
Proof.
  unfold applyOps.
  revert filter held. induction ops as [| [e | e] ops IH];
    intros filter held Hsum Hheld; simpl in *.
  - now injection Hheld as <-.
  - eapply IH; [| exact Hheld]. now apply add_summarises.
  - destruct (removeOne e held) as [rest |] eqn:Hrem; [| discriminate].
    eapply IH; [| exact Hheld]. now apply (remove_summarises _ held).
Qed.

Lemma applyOps_size ops filter :
  CountingBloomFilter._size (applyOps filter ops)
  = CountingBloomFilter._size filter.
Proof.
  unfold applyOps. revert filter.
  induction ops as [| [e | e] ops IH]; intros filter; simpl;
    [reflexivity | now rewrite IH | now rewrite IH].
Qed.

(** No false negative: an element the filter holds is found. *)
Lemma has_held filter elements e :
  summarises filter elements ->
  (0 < CountingBloomFilter._size filter)%nat ->
  In e elements ->
  CountingBloomFilter.has hashIndex filter e = true.
Proof.
  intros Hsum Hsize Hin. unfold CountingBloomFilter.has.
  apply forallb_forall. intros i Hi. rewrite Hsum, expectedCells_lookup.
  assert (Hlt : (i < CountingBloomFilter._size filter)%nat).
  { unfold CountingBloomFilter.getIndexes in Hi.
    apply in_map_iff in Hi as (n & <- & _).
    apply Nat.mod_upper_bound. lia. }
  destruct (decide (i < CountingBloomFilter._size filter)%nat); [| lia].
  unfold cellFor.
  pose proof (hits_member (CountingBloomFilter._size filter)
                (CountingBloomFilter._nbHashes filter) elements e i Hin) as Hle.
  assert (Hocc : (0 < count_occ Nat.eq_dec
                        (CountingBloomFilter.getIndexes hashIndex e
                           (CountingBloomFilter._size filter)
                           (CountingBloomFilter._nbHashes filter)) i)%nat)
    by now apply count_occ_In.
  destruct (0 <? hits _ _ elements i)%Z eqn:Hpos; [reflexivity | lia].
Qed.

Lemma removeOne_keeps e x held held' :
  removeOne e held = Some held' -> x <> e -> In x held -> In x held'.
Proof.
  revert held'. induction held as [| y held IH]; intros held' Hrem Hne Hin;
    [contradiction |].
  simpl in Hrem. destruct (String.eqb y e) eqn:Hy.
  - injection Hrem as <-. apply String.eqb_eq in Hy as ->.
    destruct Hin as [-> |]; [contradiction | assumption].
  - destruct (removeOne e held) as [rest |]; [| discriminate].
    injection Hrem as <-. destruct Hin as [-> | Hin]; [now left |].
    right. now apply IH.
Qed.

(** An element held stays held as long as it is not removed. *)
Lemma heldAfter_keeps ops held held' e :
  heldAfter ops held = Some held' ->
  Forall (fun op => op <> OpRemove e) ops ->
  In e held -> In e held'.
Proof.
  revert held. induction ops as [| [x | x] ops IH]; intros held Hheld Hops Hin;
    simpl in Hheld.
  - now injection Hheld as <-.
  - apply Forall_cons in Hops as [_ Hops].
    apply (IH (x :: held)); [assumption | assumption | now right].
  - destruct (removeOne x held) as [rest |] eqn:Hrem; [| discriminate].
    apply Forall_cons in Hops as [Hx Hops].
    apply (IH rest); [assumption | assumption |].
    apply (removeOne_keeps x e held); [assumption | congruence | assumption].
Qed.

Lemma heldAfter_app ops1 ops2 held held' :
  heldAfter (ops1 ++ ops2) held = Some held' ->
  exists mid, heldAfter ops1 held = Some mid /\ heldAfter ops2 mid = Some held'.
Proof.
  revert held. induction ops1 as [| [x | x] ops1 IH]; intros held Hheld;
    simpl in *.
  - eauto.
  - now apply IH.
  - destruct (removeOne x held); [now apply IH | discriminate].
Qed.

(** *** The snapshot *)

Lemma cellsOfJSON_cellToJSON cells :
  CountingBloomFilter.cellsOfJSON (map CountingBloomFilter.cellToJSON cells)
  = Some cells.
Proof.
  induction cells as [| [bit counter] cells IH]; [reflexivity |].
  simpl. rewrite IH. reflexivity.
Qed.

Lemma fromJSON_saveAsJSON filter :
  CountingBloomFilter.fromJSON (CountingBloomFilter.saveAsJSON filter)
  = Some filter.
Proof.
  destruct filter as [size nbHashes cells len].
  unfold CountingBloomFilter.fromJSON, CountingBloomFilter.saveAsJSON. simpl.
  destruct (Z.of_nat size <? 0)%Z eqn:Hs; [apply Z.ltb_lt in Hs; lia |].
  destruct (Z.of_nat nbHashes <? 0)%Z eqn:Hk; [apply Z.ltb_lt in Hk; lia |].
  simpl. rewrite cellsOfJSON_cellToJSON, !Nat2Z.id. reflexivity.
Qed.

(** Saving the filter and loading it when the process starts gives the
    same filter back. *)
Lemma _loadFilter_after_save filter w :
  fst (InternetFileService._loadFilter
         (snd (RedisClient.saveBloomFilter filter w)))
  = Returned filter.
Proof.
  unfold InternetFileService._loadFilter, RedisClient.loadBloomFilter,
    RedisClient.saveBloomFilter, bind, emit.
  rewrite connect_run. world_simpl.
  now rewrite fromJSON_saveAsJSON.
Qed.
End FilterFacts.

(** C5 (as amended).  From a filter just created, after any calls in
    which every [remove] is of an element held at that point: an element
    added and not removed since is found by [has].  The snapshot of the
    filter deserializes to the same filter, directly and through the save
    and the load of the service, so [has] answers the same on it for every
    element. *)
Theorem added_content_is_found `{Env} (size nbHashes : nat)
    (fresh : CountingBloomFilter.t) (before between : list FilterOp)
    (held : list Buffer) (C : Buffer) (w : World) :
  CountingBloomFilter.create size nbHashes = Some fresh ->
  (0 < size)%nat ->
  heldAfter (before ++ OpAdd C :: between) [] = Some held ->
  Forall (fun op => op <> OpRemove C) between ->
  let filter := applyOps fresh (before ++ OpAdd C :: between) in
  CountingBloomFilter.has hashIndex filter C = true /\
  CountingBloomFilter.fromJSON (CountingBloomFilter.saveAsJSON filter)
    = Some filter /\
  fst (InternetFileService._loadFilter
         (snd (RedisClient.saveBloomFilter filter w))) = Returned filter /\
  (forall reloaded X,
      CountingBloomFilter.fromJSON (CountingBloomFilter.saveAsJSON filter)
        = Some reloaded ->
      CountingBloomFilter.has hashIndex reloaded X
      = CountingBloomFilter.has hashIndex filter X).
Proof.
  intros Hfresh Hsize Hheld Hbetween filter.
  destruct (create_summarises size nbHashes fresh Hfresh)
    as (Hsum & Hfsize & _ & _).
  split; [| split; [| split]].
  - apply (has_held filter held).
    + now apply (applyOps_summarises _ fresh []).
    + subst filter. rewrite applyOps_size. lia.
    + apply heldAfter_app in Hheld as (mid & _ & Hrest). simpl in Hrest.
      apply (heldAfter_keeps between (C :: mid)); [assumption .. | now left].
  - apply fromJSON_saveAsJSON.
  - apply _loadFilter_after_save.
  - intros reloaded X. rewrite fromJSON_saveAsJSON. now intros [= <-].
Qed.

(** C5, the claim as stated fails: [remove] does not ask whether the
    filter holds the element, it takes one off the counter of each of its
    cells and clears the bit of a counter that is not positive.  Removed
    before it was ever added, [AB] leaves its counters at -1, and the
    [add] that follows brings them to 0 with the bits still clear.  Added
    first, [AB] loses its bits to the [remove] of [BA], which the filter
    never held and which lies on the same cells.  In both histories [AB]
    has been added and not removed since, and [has] does not find it. *)
Lemma removal_of_absent_content_hides_added_content :
  CountingBloomFilter.create 16 2 = Some Demo.emptyFilter /\
  CountingBloomFilter.has hashIndex
    (applyOps Demo.emptyFilter [OpRemove "AB"; OpAdd "AB"]) "AB" = false /\
  CountingBloomFilter.has hashIndex
    (applyOps Demo.emptyFilter [OpAdd "AB"; OpRemove "BA"]) "AB" = false.
Proof. vm_compute. repeat split; reflexivity. Qed.

(** ** Deduplication: the directory and the filter stay in step *)

Section ConsistencyFacts.
Context `{Env}.

Lemma hits_Permutation size hashCount l l' i :
  Permutation l l' -> hits size hashCount l i = hits size hashCount l' i.
Proof. induction 1; simpl; lia. Qed.

Lemma summarises_Permutation filter l l' :
  Permutation l l' -> summarises filter l -> summarises filter l'.
Proof.
  unfold summarises, expectedCells. intros Hperm ->.
  apply map_ext. intros i. f_equal. now apply hits_Permutation.
Qed.

Lemma Consistent_frame w w' :
  uploads w' = uploads w -> bloomFilter w' = bloomFilter w ->
  Consistent w -> Consistent w'.
Proof.
  intros Hu Hf [Hnamed Hunique Hsized Hsync].
  constructor; unfold blobNamed, blobs in *; rewrite ?Hu, ?Hf; assumption.
Qed.

(** A blob on disk is found by the filter. *)
Lemma Consistent_has w file data :
  Consistent w -> uploads w !! file = Some data ->
  CountingBloomFilter.has hashIndex (bloomFilter w) data = true.
Proof.
  intros [_ _ Hsized Hsync] Hdata.
  apply (has_held _ (blobs w)); [assumption .. |].
  unfold blobs. apply in_map_iff. exists (file, data). split; [reflexivity |].
  apply list_elem_of_In. now apply elem_of_map_to_list.
Qed.

(** A payload the filter does not know has no blob under its digest. *)
Lemma unknown_payload_has_no_blob w payload file data :
  hexDigests -> Consistent w -> collisionFree w payload ->
  CountingBloomFilter.has hashIndex (bloomFilter w) payload = false ->
  uploads w !! file = Some data ->
  sha256_hex data <> sha256_hex payload.
Proof.
  intros Hhex Hcons Hfree Hunknown Hdata Hsame.
  rewrite (Hfree file data Hdata Hsame) in Hdata.
  rewrite (Consistent_has w file payload Hcons Hdata) in Hunknown.
  discriminate.
Qed.

Lemma digest_of_blob_name data extension payload extension' :
  hexDigests ->
  sha256_hex data +:+ extension = sha256_hex payload +:+ extension' ->
  sha256_hex data = sha256_hex payload.
Proof.
  intros Hhex Heq. apply append_split in Heq as [? _]; [assumption |].
  destruct (Hhex data) as [-> _]. now destruct (Hhex payload) as [-> _].
Qed.

(** Writing the blob of an unknown payload and adding the payload to the
    filter keeps the directory and the filter in step. *)
Lemma Consistent_write w w' payload extension :
  hexDigests -> Consistent w -> collisionFree w payload ->
  CountingBloomFilter.has hashIndex (bloomFilter w) payload = false ->
  uploads w' = <[sha256_hex payload +:+ extension := payload]> (uploads w) ->
  bloomFilter w' = CountingBloomFilter.add hashIndex (bloomFilter w) payload ->
  Consistent w'.
Proof.
  intros Hhex Hcons Hfree Hunknown Hu Hf.
  assert (Hfresh : uploads w !! (sha256_hex payload +:+ extension) = None).
  { destruct (uploads w !! (sha256_hex payload +:+ extension))
      as [data |] eqn:Hdata; [| reflexivity].
    exfalso.
    apply (unknown_payload_has_no_blob w payload _ data Hhex Hcons Hfree
             Hunknown Hdata).
    destruct (blob_named w Hcons _ _ Hdata) as [extension' Hname].
    symmetry in Hname. now apply digest_of_blob_name in Hname. }
  pose proof Hcons as [Hnamed Hunique Hsized Hsync].
  constructor.
  - intros file data. rewrite Hu. intros Hlook.
    apply lookup_insert_Some in Hlook as [[<- <-] | [_ Hold]]; eauto.
  - intros file1 data1 file2 data2. rewrite Hu. intros H1 H2 Hsame.
    apply lookup_insert_Some in H1 as [[Hf1 Hd1] | [Hne1 H1]];
      apply lookup_insert_Some in H2 as [[Hf2 Hd2] | [Hne2 H2]].
    + congruence.
    + exfalso. subst data1.
      apply (unknown_payload_has_no_blob w payload file2 data2); auto.
    + exfalso. subst data2.
      apply (unknown_payload_has_no_blob w payload file1 data1); auto.
    + now apply (Hunique file1 data1 file2 data2).
  - rewrite Hf. exact Hsized.
  - rewrite Hf. unfold blobs. rewrite Hu.
    apply (summarises_Permutation _ (payload :: blobs w)).
    + unfold blobs. symmetry.
      change (payload :: map snd (map_to_list (uploads w)))
        with (map snd ((sha256_hex payload +:+ extension, payload)
                         :: map_to_list (uploads w))).
      apply Permutation_map. now apply map_to_list_insert.
    + now apply add_summarises.
Qed.

Lemma NoDup_all_equal {A} (l : list A) :
  NoDup l -> (forall x y, In x l -> In y l -> x = y) -> (length l <= 1)%nat.
Proof.
  intros Hnd Hall. destruct l as [| a [| b l]]; simpl; [lia | lia |].
  exfalso. apply NoDup_cons in Hnd as [Hnotin _]. apply Hnotin.
  rewrite (Hall a b); [left | now left | right; now left].
Qed.

Lemma NoDup_listing w : NoDup (listing w).
Proof. unfold listing. apply NoDup_fst_map_to_list. Qed.

(** At most one blob per content hash. *)
Lemma at_most_one_blob w payload :
  hexDigests -> Consistent w ->
  (length (blobsOfHash w (sha256_hex payload)) <= 1)%nat.
Proof.
  intros Hhex Hcons. unfold blobsOfHash. apply NoDup_all_equal.
  - apply NoDup_ListNoDup. apply List.NoDup_filter.
    apply NoDup_ListNoDup. apply NoDup_listing.
  - intros x y Hx Hy.
    apply filter_In in Hx as [Hx Hpx]. apply filter_In in Hy as [Hy Hpy].
    apply listing_lookup in Hx as [dx Hdx].
    apply listing_lookup in Hy as [dy Hdy].
    apply (blob_unique w Hcons x dx y dy Hdx Hdy).
    destruct (blob_named w Hcons x dx Hdx) as [ex ->].
    destruct (blob_named w Hcons y dy Hdy) as [ey ->].
    destruct (Hhex payload) as [Hlen _].
    destruct (Hhex dx) as [Hlenx _]. destruct (Hhex dy) as [Hleny _].
    apply startsWith_same_length in Hpx; [| congruence].
    apply startsWith_same_length in Hpy; [| congruence].
    congruence.
Qed.
End ConsistencyFacts.

Section UploadDedup.
Context `{Env}.

(** A successful upload, seen from the directory and the filter. *)
Lemma uploadFile_returned file w answer w' :
  InternetFileService.uploadFile (Some file) w = (Returned answer, w') ->
  exists name,
    decodeURIComponent (originalname file) = Some name /\
    answer = uploadAnswer w name /\
    drawn w' = S (drawn w) /\
    if CountingBloomFilter.has hashIndex (bloomFilter w) (buffer file)
    then w' = recorded w file name
    else uploads w' = <[sha256_hex (buffer file) +:+ extname name := buffer file]>
                        (uploads w)
         /\ bloomFilter w'
            = CountingBloomFilter.add hashIndex (bloomFilter w) (buffer file).
Proof.
  intros Hrun.
  destruct (decodeURIComponent (originalname file)) as [name |] eqn:Hname.
  - exists name. split; [reflexivity |].
    rewrite (uploadFile_run file name w Hname) in Hrun.
    destruct (CountingBloomFilter.has hashIndex (bloomFilter w) (buffer file)).
    + injection Hrun as <- <-. auto.
    + destruct (diskFails w); [discriminate |].
      injection Hrun as <- <-. auto.
  - destruct (uploadFile_undecodable file w Hname) as (e & w1 & Hthrown).
    congruence.
Qed.

(** An upload keeps the directory and the filter in step, and leaves the
    payload known to the filter. *)
Lemma uploadFile_Consistent file w answer w' :
  hexDigests -> Consistent w -> collisionFree w (buffer file) ->
  InternetFileService.uploadFile (Some file) w = (Returned answer, w') ->
  Consistent w' /\
  CountingBloomFilter.has hashIndex (bloomFilter w') (buffer file) = true.
Proof.
  intros Hhex Hcons Hfree Hrun.
  apply uploadFile_returned in Hrun as (name & _ & _ & _ & Hcase).
  destruct (CountingBloomFilter.has hashIndex (bloomFilter w) (buffer file))
    eqn:Hknown.
  - subst w'. split; [| exact Hknown].
    now apply (Consistent_frame w).
  - destruct Hcase as [Hu Hf].
    assert (Hcons' : Consistent w')
      by now apply (Consistent_write w w' (buffer file) (extname name)).
    split; [exact Hcons' |].
    apply (Consistent_has w' (sha256_hex (buffer file) +:+ extname name));
      [assumption |].
    rewrite Hu. apply lookup_insert_eq.
Qed.
End UploadDedup.

(** C3.  Two uploads of the same bytes, one after the other, from a state
    in which the directory and the filter are in step: the two answers
    carry different file ids (the UUID source not repeating itself); the
    filter knows the payload when the second upload asks, and the second
    upload writes no blob, adds nothing to the filter and saves no
    snapshot: directory, filter and snapshot are as the first upload left
    them.  The directory holds at most one blob under the hash of the
    payload, and directory and filter are still in step. *)
Theorem identical_uploads_share_one_blob `{Env} (file1 file2 : UploadedFile)
    (w w1 w2 : World) (answer1 answer2 : Js.JSON) :
  buffer file2 = buffer file1 ->
  hexDigests ->
  Consistent w ->
  collisionFree w (buffer file1) ->
  randomUUID (drawn w) <> randomUUID (S (drawn w)) ->
  InternetFileService.uploadFile (Some file1) w = (Returned answer1, w1) ->
  InternetFileService.uploadFile (Some file2) w1 = (Returned answer2, w2) ->
  (exists id1 name1 id2 name2,
      answer1 = Js.JObj [ ("fileId", Js.JStr id1); ("fileName", Js.JStr name1) ] /\
      answer2 = Js.JObj [ ("fileId", Js.JStr id2); ("fileName", Js.JStr name2) ] /\
      id1 <> id2) /\
  CountingBloomFilter.has hashIndex (bloomFilter w1) (buffer file2) = true /\
  filter isBlobWrite (issued w1 w2) = [] /\
  uploads w2 = uploads w1 /\
  bloomFilter w2 = bloomFilter w1 /\
  snapshot w2 = snapshot w1 /\
  (length (blobsOfHash w2 (sha256_hex (buffer file1))) <= 1)%nat /\
  Consistent w2.
Proof.
  intros Hsame Hhex Hcons Hfree Huuid Hrun1 Hrun2.
  destruct (uploadFile_Consistent file1 w answer1 w1 Hhex Hcons Hfree Hrun1)
    as [Hcons1 Hknown1].
  rewrite <- Hsame in Hknown1.
  apply uploadFile_returned in Hrun1 as (name1 & _ & -> & Hdrawn & _).
  apply uploadFile_returned in Hrun2 as (name2 & _ & -> & _ & Hcase).
  rewrite Hknown1 in Hcase. subst w2.
  assert (Hcons2 : Consistent (recorded w1 file2 name2))
    by now apply (Consistent_frame w1).
  split.
  { exists (randomUUID (drawn w)), name1, (randomUUID (drawn w1)), name2.
    split; [reflexivity |]. split; [reflexivity |]. now rewrite Hdrawn. }
  split; [exact Hknown1 |].
  split.
  { unfold issued, recorded. world_proj. rewrite drop_app_length. reflexivity. }
  split; [reflexivity |]. split; [reflexivity |]. split; [reflexivity |].
  split; [now apply at_most_one_blob | exact Hcons2].
Qed.

(** ** Scans of the keyspace, and [deleteAllFiles] *)

Section ScanFacts.
Context `{Env}.

Lemma lookup_foldr_delete {A} (m : gmap string A) (keys : list string) k :
  foldr delete m keys !! k = if bool_decide (k ∈ keys) then None else m !! k.
Proof.
  induction keys as [| a keys IH]; simpl; [reflexivity |].
  destruct (decide (a = k)) as [-> | Hne].
  - rewrite lookup_delete_eq. rewrite bool_decide_eq_true_2 by left.
    reflexivity.
  - rewrite lookup_delete_ne by assumption. rewrite IH.
    destruct (bool_decide (k ∈ keys)) eqn:Hin.
    + apply bool_decide_eq_true_1 in Hin.
      rewrite bool_decide_eq_true_2 by now right. reflexivity.
    + apply bool_decide_eq_false_1 in Hin.
      rewrite bool_decide_eq_false_2; [reflexivity |].
      intros Hk. apply elem_of_cons in Hk as [-> | Hk]; contradiction.
Qed.

Lemma scanKeys_In w cursor count pattern k :
  In k (scanKeys w cursor count pattern) <->
  is_Some (redis w !! k) /\
  (cursor <=? slotOf k)%nat && (slotOf k <? cursor + count)%nat
    && globMatch pattern k = true.
Proof.
  unfold scanKeys. rewrite filter_In, in_map_iff. split.
  - intros [([key e] & <- & Hin) Hpred]. split; [| exact Hpred].
    apply list_elem_of_In, elem_of_map_to_list in Hin. simpl. eauto.
  - intros [[e He] Hpred]. split; [| exact Hpred].
    exists (k, e). split; [reflexivity |].
    now apply list_elem_of_In, elem_of_map_to_list.
Qed.

(** One turn of the loop of [deleteByPattern]: the keys of the slots
    walked that match the pattern are gone, the others are untouched. *)
Lemma scan_and_delete_lookup w cursor pattern k :
  foldr delete (redis w) (scanKeys w cursor 100 pattern) !! k
  = if (cursor <=? slotOf k)%nat && (slotOf k <? cursor + 100)%nat
       && globMatch pattern k
    then None else redis w !! k.
Proof.
  rewrite lookup_foldr_delete.
  destruct (bool_decide (k ∈ scanKeys w cursor 100 pattern)) eqn:Hin.
  - apply bool_decide_eq_true_1, list_elem_of_In, scanKeys_In in Hin as [_ ->].
    reflexivity.
  - apply bool_decide_eq_false_1 in Hin. rewrite list_elem_of_In in Hin.
    destruct ((cursor <=? slotOf k)%nat && (slotOf k <? cursor + 100)%nat
              && globMatch pattern k) eqn:Hpred; [| reflexivity].
    destruct (redis w !! k) as [e |] eqn:Hk; [| reflexivity].
    exfalso. apply Hin, scanKeys_In. eauto.
Qed.

Lemma clientScan_run cursor pattern count w :
  clientScan cursor pattern count w
  = (Returned (if (cursor + count <? tableSize)%nat then (cursor + count)%nat
               else 0%nat,
               scanKeys w cursor count pattern),
     setTrace w (trace w ++ [RedisScan cursor pattern])).
Proof. reflexivity. Qed.

Lemma slotOf_bound k : (0 < tableSize)%nat -> (slotOf k < tableSize)%nat.
Proof. intros Hpos. unfold slotOf. apply Nat.mod_upper_bound. lia. Qed.

(** The loop of [deleteByPattern], entered at a cursor with enough fuel
    to reach the end of the table, returns (the cursor came back as 0),
    having changed the Redis keyspace and the trace only: the matching
    keys from that cursor on are gone. *)
(** One turn of the loop of [deleteByPattern]. *)
Lemma deleteByPattern_turn pattern cursor w :
  let keys := scanKeys w cursor 100 pattern in
  RedisClient.logAndRethrow
    (let* reply := clientScan cursor pattern 100 in
     let keys := snd reply in
     (match keys with
      | [] => ret tt
      | _ :: _ => clientDel keys
      end) ;;
     ret (fst reply)) w
  = (Returned (if (cursor + 100 <? tableSize)%nat then (cursor + 100)%nat
               else 0%nat),
     setRedis
       (setTrace w
          (trace w ++
             RedisScan cursor pattern
             :: match keys with [] => [] | _ :: _ => [RedisDel keys] end))
       (foldr delete (redis w) keys)).
Proof.
  intros keys. subst keys. rewrite logAndRethrow_run.
  unfold bind at 1, clientScan, bind at 1, emit, scanKeys.
  destruct w as [u r s f b c d df sf t]. world_simpl.
  destruct (List.filter _ _) as [| key keys].
  - unfold bind, ret. reflexivity.
  - unfold bind, ret, clientDel, bind, emit. world_simpl.
    rewrite <- app_assoc. reflexivity.
Qed.

(** The loop of [deleteByPattern], entered at a cursor with enough fuel
    to reach the end of the table, returns (the cursor came back as 0),
    having changed the Redis keyspace and the trace only: the matching
    keys from that cursor on are gone. *)
Lemma deleteByPatternFrom_run fuel pattern cursor w :
  (0 < tableSize)%nat ->
  (tableSize <= cursor + 100 * fuel)%nat -> (0 < fuel)%nat ->
  exists keyspace events,
    RedisClient.deleteByPatternFrom fuel pattern cursor w
      = (Returned tt, setRedis (setTrace w (trace w ++ events)) keyspace) /\
    forall k, keyspace !! k
              = if (cursor <=? slotOf k)%nat && globMatch pattern k
                then None else redis w !! k.
Proof.
  intros Hsize. revert cursor w.
  induction fuel as [| fuel IH]; intros cursor w Hfuel Hpos; [lia |].
  simpl RedisClient.deleteByPatternFrom. unfold bind at 1.
  rewrite deleteByPattern_turn.
  set (keys := scanKeys w cursor 100 pattern).
  set (events := RedisScan cursor pattern
                 :: match keys with [] => [] | _ :: _ => [RedisDel keys] end).
  assert (Hkeys : forall k,
             foldr delete (redis w) keys !! k
             = if (cursor <=? slotOf k)%nat && (slotOf k <? cursor + 100)%nat
                  && globMatch pattern k
               then None else redis w !! k)
    by (intros k; apply scan_and_delete_lookup).
  destruct (cursor + 100 <? tableSize)%nat eqn:Hmore.
  - apply Nat.ltb_lt in Hmore.
    replace (cursor + 100 =? 0)%nat with false
      by (symmetry; apply Nat.eqb_neq; lia).
    destruct (IH (cursor + 100)%nat
                (setRedis (setTrace w (trace w ++ events))
                          (foldr delete (redis w) keys)))
      as (keyspace & events' & Hrun & Hlook); [lia | lia |].
    exists keyspace, (events ++ events'). split.
    + cbv iota. rewrite Hrun. world_norm. rewrite <- app_assoc. reflexivity.
    + intros k. rewrite Hlook. world_norm. rewrite Hkeys.
      destruct (cursor + 100 <=? slotOf k)%nat eqn:Hhigh;
        destruct (cursor <=? slotOf k)%nat eqn:Hlow;
        destruct (slotOf k <? cursor + 100)%nat eqn:Hin;
        destruct (globMatch pattern k); simpl; try reflexivity;
        apply Nat.leb_le in Hhigh || apply Nat.leb_gt in Hhigh;
        apply Nat.leb_le in Hlow || apply Nat.leb_gt in Hlow;
        apply Nat.ltb_lt in Hin || apply Nat.ltb_ge in Hin; lia.
  - apply Nat.ltb_ge in Hmore. change (0 =? 0)%nat with true. cbv iota.
    exists (foldr delete (redis w) keys), events. split; [reflexivity |].
    intros k. rewrite Hkeys. pose proof (slotOf_bound k Hsize) as Hslot.
    replace (slotOf k <? cursor + 100)%nat with true
      by (symmetry; apply Nat.ltb_lt; lia).
    now rewrite andb_true_r.
Qed.

Lemma deleteByPattern_run fuel pattern w :
  (0 < tableSize)%nat -> (tableSize <= 100 * fuel)%nat ->
  exists keyspace events,
    RedisClient.deleteByPattern fuel pattern w
      = (Returned tt, setRedis (setTrace w (trace w ++ events)) keyspace) /\
    forall k, keyspace !! k
              = if globMatch pattern k then None else redis w !! k.
Proof.
  intros Hsize Hfuel. unfold RedisClient.deleteByPattern.
  destruct (deleteByPatternFrom_run fuel pattern 0 w)
    as (keyspace & events & Hrun & Hlook); [lia | lia | lia |].
  exists keyspace, events. split; [exact Hrun |].
  intros k. rewrite Hlook. reflexivity.
Qed.
End ScanFacts.

Section DeleteAllFacts.
Context `{Env}.

(** The loop that unlinks every listed file. *)
Lemma unlink_each names w :
  List.NoDup names ->
  (forall file, In file names -> is_Some (uploads w !! file)) ->
  forOf names InternetFileService.unlink w
  = (Returned tt,
     setUploads (setTrace w (trace w ++ map FsUnlink names))
                (foldr delete (uploads w) (rev names))).
Proof.
  revert w. induction names as [| file names IH]; intros w Hnd Hall.
  - unfold ret. simpl. rewrite app_nil_r. destruct w; reflexivity.
  - apply List.NoDup_cons_iff in Hnd as [Hnotin Hnd].
    destruct (Hall file (or_introl eq_refl)) as [data Hdata].
    simpl forOf. unfold bind at 1, InternetFileService.unlink at 1,
      bind at 1, emit.
    destruct w as [u r s f b c d df sf t]. world_simpl.
    rewrite Hdata. rewrite IH.
    + world_simpl. simpl rev. rewrite foldr_app. simpl foldr.
      rewrite <- app_assoc. reflexivity.
    + assumption.
    + intros other Hin. world_simpl.
      rewrite lookup_delete_ne by (intros ->; contradiction).
      apply Hall. now right.
Qed.

Lemma unlink_names_empties (m : gmap string string) :
  foldr delete m (rev (map fst (map_to_list m))) = ∅.
Proof.
  apply map_eq. intros k. rewrite lookup_foldr_delete, lookup_empty.
  destruct (bool_decide (k ∈ rev (map fst (map_to_list m)))) eqn:Hin;
    [reflexivity |].
  apply bool_decide_eq_false_1 in Hin. rewrite list_elem_of_In in Hin.
  destruct (m !! k) as [data |] eqn:Hk; [| reflexivity].
  exfalso. apply Hin. apply in_rev. rewrite rev_involutive.
  apply names_lookup. eauto.
Qed.

(** A filter just created finds nothing. *)
Lemma has_fresh size nbHashes filter X :
  CountingBloomFilter.create size nbHashes = Some filter ->
  CountingBloomFilter.has hashIndex filter X = false.
Proof.
  unfold CountingBloomFilter.create.
  destruct (nbHashes <? 1)%nat eqn:Hk; [discriminate |]. intros [= <-].
  apply Nat.ltb_ge in Hk. destruct nbHashes as [| k]; [lia |].
  unfold CountingBloomFilter.has, CountingBloomFilter.getIndexes. simpl.
  destruct (replicate size (0%Z, 0%Z) !! (hashIndex X 0 mod size)%nat)
    as [[bit counter] |] eqn:Hcell; [| reflexivity].
  apply lookup_replicate in Hcell as [[= -> ->] _]. reflexivity.
Qed.

Lemma globMatch_refl s :
  (forall c, In c (list_ascii_of_string s) -> c <> "*"%char /\ c <> "?"%char) ->
  globMatch s s = true.
Proof.
  induction s as [| c s IH]; intros Hplain; [reflexivity |].
  simpl. destruct (Hplain c (or_introl eq_refl)) as [Hstar _].
  apply Ascii.eqb_neq in Hstar. rewrite Hstar, Ascii.eqb_refl, orb_true_r.
  apply IH. intros d Hd. apply Hplain. now right.
Qed.




(** [deleteAllFiles], given fuel for its two scans: the world it ends
    in. *)
Lemma deleteAllFiles_run fuel fresh w :
  (0 < tableSize)%nat ->
  (tableSize <= 100 * fuel)%nat ->
  CountingBloomFilter.create filterSize filterHashes = Some fresh ->
  exists keyspace events,
    InternetFileService.deleteAllFiles fuel w
    = (Returned (Js.JObj [ ("message",
                            Js.JStr "All files deleted successfully") ]),
       mkWorld ∅ keyspace
         (Some (CountingBloomFilter.saveAsJSON fresh)) fresh
         (bucket w) (clock w) (drawn w) (diskFails w) (s3Fails w)
         (trace w ++ events)) /\
    forall key,
      keyspace !! key
      = if globMatch "file:*:hash" key || globMatch "file:*:filename" key
        then None else redis w !! key.
Proof.
  intros Hsize Hfuel Hfresh.
  unfold InternetFileService.deleteAllFiles.
  unfold bind at 1, InternetFileService.readdir, bind at 1, emit.
  destruct w as [u r s f b c d df sf t]. world_simpl.
  unfold bind at 1.
  rewrite unlink_each;
    [| apply NoDup_ListNoDup, NoDup_fst_map_to_list
     | intros file Hin; world_simpl; now apply names_lookup ].
  world_simpl. rewrite unlink_names_empties.
  unfold bind at 1, InternetFileService.createFilter, bind at 1, emit.
  world_simpl. rewrite Hfresh. unfold ret at 1. unfold bind at 1.
  world_simpl. unfold bind at 1. rewrite connect_run. world_simpl.
  unfold bind at 1, RedisClient.saveBloomFilter, bind at 1, emit.
  world_simpl. unfold bind at 1.
  match goal with
  | |- context [RedisClient.deleteByPattern fuel "file:*:hash" ?w0] =>
      destruct (deleteByPattern_run fuel "file:*:hash" w0 Hsize Hfuel)
        as (keyspace1 & events1 & -> & Hlook1)
  end.
  world_simpl. unfold bind at 1.
  match goal with
  | |- context [RedisClient.deleteByPattern fuel "file:*:filename" ?w0] =>
      destruct (deleteByPattern_run fuel "file:*:filename" w0 Hsize Hfuel)
        as (keyspace2 & events2 & -> & Hlook2)
  end.
  unfold ret. world_simpl.
  eexists keyspace2, _. split.
  - rewrite <- !app_assoc. reflexivity.
  - intros key. rewrite Hlook2, Hlook1.
    destruct (globMatch "file:*:hash" key),
             (globMatch "file:*:filename" key); reflexivity.
Qed.
End DeleteAllFacts.


(** ** Delete *)

Section KeyFacts.
Lemma stripPrefix_Some p s r : stripPrefix p s = Some r -> s = p +:+ r.
Proof.
  revert s. induction p as [| a p IH]; intros s; simpl.
  - now intros [= ->].
  - destruct s as [| b s]; [discriminate |].
    destruct (Ascii.eqb a b) eqn:Hab; [| discriminate].
    apply Ascii.eqb_eq in Hab as ->. intros Hs.
    rewrite append_cons. f_equal. now apply IH.
Qed.

Lemma stripSuffix_Some suffix s x :
  stripSuffix suffix s = Some x -> s = x +:+ suffix.
Proof.
  revert x. induction s as [| c s IH]; intros x Hx.
  - simpl in Hx. destruct suffix; [| discriminate].
    injection Hx as <-. reflexivity.
  - cbn [stripSuffix] in Hx.
    destruct (String.eqb (String c s) suffix) eqn:Heq.
    + apply String.eqb_eq in Heq. injection Hx as <-. now rewrite Heq.
    + destruct (stripSuffix suffix s) as [y |]; [| discriminate].
      injection Hx as <-. rewrite append_cons. f_equal. now apply IH.
Qed.

Lemma fileIdOfHashKey_Some key fileId :
  fileIdOfHashKey key = Some fileId -> key = hashKey fileId.
Proof.
  unfold fileIdOfHashKey, hashKey.
  destruct (stripPrefix "file:" key) as [rest |] eqn:Hrest; [| discriminate].
  intros Hid. apply stripPrefix_Some in Hrest as ->.
  now apply stripSuffix_Some in Hid as ->.
Qed.

Lemma stripSuffix_append suffix x :
  stripSuffix suffix (x +:+ suffix) = Some x.
Proof.
  induction x as [| c x IH].
  - change (EmptyString +:+ suffix) with suffix.
    destruct suffix; simpl; [reflexivity |].
    now rewrite Ascii.eqb_refl, String.eqb_refl.
  - rewrite append_cons. cbn [stripSuffix].
    destruct (String.eqb (String c (x +:+ suffix)) suffix) eqn:Heq.
    + apply String.eqb_eq in Heq. apply (f_equal String.length) in Heq.
      simpl in Heq. rewrite append_length in Heq. lia.
    + now rewrite IH.
Qed.

Lemma fileIdOfHashKey_hashKey fileId :
  fileIdOfHashKey (hashKey fileId) = Some fileId.
Proof.
  unfold fileIdOfHashKey, hashKey.
  change (stripPrefix "file:" ("file:" +:+ fileId +:+ ":hash"))
    with (Some (fileId +:+ ":hash")).
  apply stripSuffix_append.
Qed.

Lemma globMatch_any key : globMatch "*" key = true.
Proof. induction key as [| c key IH]; [reflexivity |]. simpl. exact IH. Qed.
End KeyFacts.

Section RecordCleanup.
Context `{Env}.

Lemma liveEntry_subseteq w0 w key e :
  redis w ⊆ redis w0 -> clock w = clock w0 ->
  liveEntry w0 key = Some e ->
  redis w !! key = None \/ liveEntry w key = Some e.
Proof.
  intros Hsub Hclock Hlive. unfold liveEntry in *.
  destruct (redis w !! key) as [e' |] eqn:Hk; [| now left]. right.
  rewrite Hclock. apply (lookup_weaken _ _ _ _ Hk) in Hsub.
  rewrite Hsub in Hlive. exact Hlive.
Qed.

(** The body of the loop over the keys of one scan. *)
Lemma cleanup_key w0 fileHash h key w :
  fileHash = Some h ->
  clock w = clock w0 ->
  cleaned w0 fileHash (redis w) ->
  exists keyspace events,
    (match fileIdOfHashKey key with
     | Some fileId =>
         let* v := RedisClient.get key in
         if bool_decide (v = fileHash)
         then RedisClient.deleteFileInfoByFileId fileId
         else ret tt
     | None => ret tt
     end) w
    = (Returned tt, setRedis (setTrace w (trace w ++ events)) keyspace) /\
    keyspace ⊆ redis w /\
    cleaned w0 fileHash keyspace /\
    (forall fileId, key = hashKey fileId -> sharesHash w0 fileHash fileId ->
                    keyspace !! hashKey fileId = None).
Proof.
  intros Hhash Hclock [Hsub Hpairs].
  destruct (fileIdOfHashKey key) as [fileId0 |] eqn:Hkey.
  - apply fileIdOfHashKey_Some in Hkey as ->.
    unfold bind at 1. rewrite get_run.
    destruct (bool_decide (option_map value (liveEntry w (hashKey fileId0))
                           = fileHash)) eqn:Hv.
    + exists (delete (filenameKey fileId0) (delete (hashKey fileId0) (redis w))),
             [ RedisGet (hashKey fileId0); RedisDel [hashKey fileId0];
               RedisDel [filenameKey fileId0] ].
      split; [| split; [| split; [split |]]].
      * unfold RedisClient.deleteFileInfoByFileId, bind at 1.
        rewrite del_run, del_run. world_simpl.
        rewrite <- !app_assoc. reflexivity.
      * etransitivity; apply delete_subseteq.
      * etransitivity; [| exact Hsub].
        etransitivity; apply delete_subseteq.
      * intros fileId Hshares Hgone.
        destruct (decide (fileId = fileId0)) as [-> | Hne];
          [apply lookup_delete_eq |].
        apply lookup_delete_None. right. apply lookup_delete_None. right.
        apply Hpairs; [assumption |].
        rewrite lookup_delete_ne in Hgone
          by (intros Heq; symmetry in Heq;
              now apply hashKey_not_filenameKey in Heq).
        rewrite lookup_delete_ne in Hgone
          by (intros Heq; apply hashKey_inj in Heq; congruence).
        exact Hgone.
      * intros fileId Heq _. apply hashKey_inj in Heq as <-.
        rewrite lookup_delete_ne
          by (intros Heq; symmetry in Heq;
              now apply hashKey_not_filenameKey in Heq).
        apply lookup_delete_eq.
    + exists (redis w), [RedisGet (hashKey fileId0)].
      split; [| split; [| split; [split |]]]; try assumption.
      * unfold ret. destruct w; reflexivity.
      * reflexivity.
      * intros fileId Heq Hshares. apply hashKey_inj in Heq as <-.
        apply bool_decide_eq_false_1 in Hv.
        unfold sharesHash in Hshares. rewrite Hhash in Hshares.
        destruct (liveEntry w0 (hashKey fileId0)) as [e |] eqn:Hlive;
          [| discriminate].
        destruct (liveEntry_subseteq w0 w _ e Hsub Hclock Hlive)
          as [Hgone | Hstill]; [exact Hgone |].
        exfalso. apply Hv. rewrite Hstill, Hhash. exact Hshares.
  - exists (redis w), []. split; [| split; [| split; [split |]]];
      try assumption.
    + unfold ret. rewrite app_nil_r. destruct w; reflexivity.
    + reflexivity.
    + intros fileId ->. rewrite fileIdOfHashKey_hashKey in Hkey.
      discriminate.
Qed.
End RecordCleanup.

Section RecordCleanupLoop.
Context `{Env}.

(** The loop over the keys of one scan. *)
Lemma cleanup_keys w0 fileHash h keys w :
  fileHash = Some h ->
  clock w = clock w0 ->
  cleaned w0 fileHash (redis w) ->
  exists keyspace events,
    forOf keys
      (fun key =>
         match fileIdOfHashKey key with
         | Some fileId =>
             let* v := RedisClient.get key in
             if bool_decide (v = fileHash)
             then RedisClient.deleteFileInfoByFileId fileId
             else ret tt
         | None => ret tt
         end) w
    = (Returned tt, setRedis (setTrace w (trace w ++ events)) keyspace) /\
    keyspace ⊆ redis w /\
    cleaned w0 fileHash keyspace /\
    (forall fileId, In (hashKey fileId) keys -> sharesHash w0 fileHash fileId ->
                    keyspace !! hashKey fileId = None).
Proof.
  intros Hhash. revert w.
  induction keys as [| key keys IH]; intros w Hclock Hclean.
  - exists (redis w), []. split; [| split; [| split]].
    + simpl. unfold ret. rewrite app_nil_r. destruct w; reflexivity.
    + reflexivity.
    + assumption.
    + intros fileId [].
  - destruct (cleanup_key w0 fileHash h key w Hhash Hclock Hclean)
      as (m1 & events1 & Hrun1 & Hsub1 & Hclean1 & Hdone1).
    destruct (IH (setRedis (setTrace w (trace w ++ events1)) m1))
      as (m2 & events2 & Hrun2 & Hsub2 & Hclean2 & Hdone2);
      [exact Hclock | exact Hclean1 |].
    exists m2, (events1 ++ events2). split; [| split; [| split]].
    + simpl forOf. unfold bind at 1. rewrite Hrun1, Hrun2. world_simpl.
      rewrite <- app_assoc. reflexivity.
    + etransitivity; [exact Hsub2 | exact Hsub1].
    + assumption.
    + intros fileId [-> | Hin] Hshares.
      * specialize (Hdone1 fileId eq_refl Hshares).
        destruct (m2 !! hashKey fileId) as [e |] eqn:Hk; [| reflexivity].
        apply (lookup_weaken _ _ _ _ Hk) in Hsub2. simpl in Hsub2. congruence.
      * now apply Hdone2.
Qed.

(** The loop of [deleteFileInfoWithSameHash], entered at a cursor with
    enough fuel to reach the end of the table, returns, having changed
    the Redis keyspace and the trace only: keys have only been deleted,
    and of every record of the hash whose hash key lies from that cursor
    on, the hash key is gone. *)
Lemma deleteFileInfoWithSameHashFrom_run w0 fileHash h fuel cursor w :
  fileHash = Some h ->
  (0 < tableSize)%nat ->
  (tableSize <= cursor + 100 * fuel)%nat -> (0 < fuel)%nat ->
  clock w = clock w0 ->
  cleaned w0 fileHash (redis w) ->
  exists keyspace events,
    RedisClient.deleteFileInfoWithSameHashFrom fuel fileHash cursor w
    = (Returned tt, setRedis (setTrace w (trace w ++ events)) keyspace) /\
    keyspace ⊆ redis w /\
    cleaned w0 fileHash keyspace /\
    (forall fileId, sharesHash w0 fileHash fileId ->
                    (cursor <= slotOf (hashKey fileId))%nat ->
                    redis w !! hashKey fileId = None
                    \/ keyspace !! hashKey fileId = None).
Proof.
  intros Hhash Hsize. revert cursor w.
  induction fuel as [| fuel IH]; intros cursor w Hfuel Hpos Hclock Hclean;
    [lia |].
  simpl RedisClient.deleteFileInfoWithSameHashFrom.
  unfold bind at 1. rewrite clientScan_run. cbn [fst snd].
  set (w1 := setTrace w (trace w ++ [RedisScan cursor "*"])).
  set (keys := scanKeys w cursor 100 "*").
  destruct (cleanup_keys w0 fileHash h keys w1 Hhash Hclock Hclean)
    as (m1 & events1 & Hrun1 & Hsub1 & Hclean1 & Hdone1).
  unfold bind at 1. rewrite Hrun1.
  assert (Hbatch : forall fileId,
             sharesHash w0 fileHash fileId ->
             (cursor <= slotOf (hashKey fileId))%nat ->
             (slotOf (hashKey fileId) < cursor + 100)%nat ->
             redis w !! hashKey fileId = None \/ m1 !! hashKey fileId = None).
  { intros fileId Hshares Hlow Hhigh.
    destruct (redis w !! hashKey fileId) as [e |] eqn:Hk; [| now left].
    right. apply Hdone1; [| assumption].
    apply scanKeys_In. split; [eauto |].
    rewrite globMatch_any, andb_true_r.
    apply andb_true_intro. split;
      [now apply Nat.leb_le | now apply Nat.ltb_lt]. }
  destruct (cursor + 100 <? tableSize)%nat eqn:Hmore.
  - apply Nat.ltb_lt in Hmore.
    replace (cursor + 100 =? 0)%nat with false
      by (symmetry; apply Nat.eqb_neq; lia).
    destruct (IH (cursor + 100)%nat
                (setRedis (setTrace w1 (trace w1 ++ events1)) m1))
      as (m2 & events2 & Hrun2 & Hsub2 & Hclean2 & Hdone2);
      [lia | lia | exact Hclock | exact Hclean1 |].
    exists m2, ((RedisScan cursor "*" :: events1) ++ events2).
    split; [| split; [| split]].
    + rewrite Hrun2. subst w1. world_norm. rewrite <- !app_assoc.
      reflexivity.
    + etransitivity; [exact Hsub2 | exact Hsub1].
    + assumption.
    + intros fileId Hshares Hlow.
      destruct (decide (slotOf (hashKey fileId) < cursor + 100)%nat)
        as [Hhigh | Hhigh].
      * destruct (Hbatch fileId Hshares Hlow Hhigh) as [? | Hgone];
          [now left | right].
        destruct (m2 !! hashKey fileId) as [e |] eqn:Hk; [| reflexivity].
        apply (lookup_weaken _ _ _ _ Hk) in Hsub2. simpl in Hsub2. congruence.
      * destruct (Hdone2 fileId Hshares) as [Hgone | ?]; [lia | | now right].
        simpl in Hgone.
        destruct (redis w !! hashKey fileId) as [e |] eqn:Hk; [| now left].
        right.
        destruct (m2 !! hashKey fileId) as [e' |] eqn:Hk2; [| reflexivity].
        apply (lookup_weaken _ _ _ _ Hk2) in Hsub2. simpl in Hsub2. congruence.
  - apply Nat.ltb_ge in Hmore. change (0 =? 0)%nat with true. cbv iota.
    exists m1, (RedisScan cursor "*" :: events1).
    split; [| split; [| split]].
    + unfold ret. subst w1. world_norm. rewrite <- !app_assoc. reflexivity.
    + exact Hsub1.
    + assumption.
    + intros fileId Hshares Hlow. apply Hbatch; [assumption .. |].
      pose proof (slotOf_bound (hashKey fileId) Hsize). lia.
Qed.

(** [deleteFileInfoWithSameHash]: every record of the hash is gone, both
    keys, and no key has been added or changed. *)
Lemma deleteFileInfoWithSameHash_run fileHash h fuel w :
  fileHash = Some h ->
  (0 < tableSize)%nat -> (tableSize <= 100 * fuel)%nat ->
  exists keyspace events,
    RedisClient.deleteFileInfoWithSameHash fuel fileHash w
    = (Returned tt, setRedis (setTrace w (trace w ++ events)) keyspace) /\
    keyspace ⊆ redis w /\
    (forall fileId, sharesHash w fileHash fileId ->
                    keyspace !! hashKey fileId = None /\
                    keyspace !! filenameKey fileId = None).
Proof.
  intros Hhash Hsize Hfuel. unfold RedisClient.deleteFileInfoWithSameHash.
  destruct (deleteFileInfoWithSameHashFrom_run w fileHash h fuel 0 w)
    as (m & events & Hrun & Hsub & [_ Hpairs] & Hdone);
    try assumption; try lia; try reflexivity.
  { split; [reflexivity |]. intros fileId Hshares Hgone. exfalso.
    unfold sharesHash, liveEntry in Hshares. rewrite Hgone, Hhash in Hshares.
    discriminate. }
  exists m, events. split; [exact Hrun | split; [exact Hsub |]].
  intros fileId Hshares.
  assert (Hgone : m !! hashKey fileId = None).
  { destruct (Hdone fileId Hshares) as [Hnone | ?]; [lia | | assumption].
    exfalso. unfold sharesHash, liveEntry in Hshares.
    rewrite Hnone, Hhash in Hshares. discriminate. }
  split; [exact Hgone | now apply Hpairs].
Qed.
End RecordCleanupLoop.

Section DeleteRuns.
Context `{Env}.

(** [deleteFile] up to the cleanup of the other records: the blob is
    read, taken out of the filter and unlinked, the snapshot saved, the
    two keys of the file id deleted. *)
Lemma deleteFile_run fuel fileId file data w :
  let fileHash := option_map value (liveEntry w (hashKey fileId)) in
  let filter' := CountingBloomFilter.remove hashIndex (bloomFilter w) data in
  find (fun file => Js.includes file (Js.toString fileHash)) (listing w)
    = Some file ->
  file <> EmptyString ->
  uploads w !! file = Some data ->
  InternetFileService.deleteFile fuel fileId w
  = (RedisClient.deleteFileInfoWithSameHash fuel fileHash ;;
     ret (Js.JObj [ ("message", Js.JStr "File deleted successfully") ]))
      (mkWorld (delete file (uploads w))
         (delete (filenameKey fileId) (delete (hashKey fileId) (redis w)))
         (Some (CountingBloomFilter.saveAsJSON filter')) filter'
         (bucket w) (clock w) (drawn w) (diskFails w) (s3Fails w)
         (trace w ++
            [ FsReaddir; RedisConnect; RedisGet (hashKey fileId);
              FsReadFile file; BloomRemove data; FsUnlink file;
              FilterSave (CountingBloomFilter.saveAsJSON filter');
              RedisDel [hashKey fileId]; RedisDel [filenameKey fileId] ])).
Proof.
  intros fileHash filter' Hfind Hname Hdata. subst fileHash filter'.
  assert (Htruthy : Js.truthy (Some file) = true)
    by (destruct file; [contradiction | reflexivity]).
  unfold InternetFileService.deleteFile.
  unfold bind at 1, InternetFileService.readdir, bind at 1, emit.
  unfold listing, liveEntry in *.
  destruct w as [u r s f b c d df sf t]. world_simpl.
  unfold bind at 1. rewrite connect_run. world_simpl.
  unfold bind at 1. rewrite get_run. unfold liveEntry. world_simpl.
  rewrite Hfind, Htruthy. change (negb true) with false. cbv iota.
  change (Js.toString (Some file)) with file.
  unfold bind at 1, InternetFileService.readFile, bind at 1, emit.
  world_simpl. rewrite Hdata.
  unfold bind at 1, InternetFileService.bloomRemove, bind at 1, emit.
  world_simpl.
  unfold bind at 1, InternetFileService.unlink, bind at 1, emit.
  world_simpl. rewrite Hdata.
  unfold bind at 1, RedisClient.saveBloomFilter, bind at 1, emit.
  world_simpl.
  unfold bind at 1, RedisClient.deleteFileInfoByFileId, bind at 1.
  rewrite del_run. world_simpl. rewrite del_run. world_simpl.
  rewrite <- !app_assoc. reflexivity.
Qed.
(** [deleteFile], given fuel for its scan, from the world [deleteFile_run]
    describes to its end. *)
Lemma deleteFile_returns fuel fileId h file data w :
  let filter' := CountingBloomFilter.remove hashIndex (bloomFilter w) data in
  let keyspace1 :=
    delete (filenameKey fileId) (delete (hashKey fileId) (redis w)) in
  let w1 :=
    mkWorld (delete file (uploads w)) keyspace1
      (Some (CountingBloomFilter.saveAsJSON filter')) filter'
      (bucket w) (clock w) (drawn w) (diskFails w) (s3Fails w)
      (trace w ++
         [ FsReaddir; RedisConnect; RedisGet (hashKey fileId);
           FsReadFile file; BloomRemove data; FsUnlink file;
           FilterSave (CountingBloomFilter.saveAsJSON filter');
           RedisDel [hashKey fileId]; RedisDel [filenameKey fileId] ]) in
  (0 < tableSize)%nat ->
  (tableSize <= 100 * fuel)%nat ->
  option_map value (liveEntry w (hashKey fileId)) = Some h ->
  find (fun file => Js.includes file h) (listing w) = Some file ->
  file <> EmptyString ->
  uploads w !! file = Some data ->
  exists m scans,
    InternetFileService.deleteFile fuel fileId w
    = (Returned (Js.JObj [ ("message", Js.JStr "File deleted successfully") ]),
       setRedis (setTrace w1 (trace w1 ++ scans)) m) /\
    m ⊆ keyspace1 /\
    forall other, sharesHash w1 (Some h) other ->
                  m !! hashKey other = None /\
                  m !! filenameKey other = None.
Proof.
  intros filter' keyspace1 w1 Hsize Hfuel Hstored Hfind Hname Hdata.
  rewrite (deleteFile_run fuel fileId file data w);
    [| rewrite Hstored; exact Hfind | exact Hname | exact Hdata ].
  rewrite Hstored. fold filter' keyspace1 w1. unfold bind at 1.
  destruct (deleteFileInfoWithSameHash_run (Some h) h fuel w1 eq_refl
              Hsize Hfuel)
    as (m & scans & -> & Hsub & Hgone).
  exists m, scans. split; [reflexivity |]. split; assumption.
Qed.
End DeleteRuns.

(** ** The invariant across the deleting operations *)

Section InvariantFacts.
Context `{Env}.

Lemma remove_summarises_Permutation filter elements elements' e :
  summarises filter elements ->
  Permutation elements (e :: elements') ->
  summarises (CountingBloomFilter.remove hashIndex filter e) elements'.
Proof.
  intros Hsum Hperm.
  apply (remove_summarises filter (e :: elements')).
  - now apply (summarises_Permutation filter elements).
  - simpl. now rewrite String.eqb_refl.
Qed.

(** Unlinking a blob and removing its content from the filter keeps the
    directory and the filter in step. *)
Lemma Consistent_unlink w w' file data :
  Consistent w ->
  uploads w !! file = Some data ->
  uploads w' = delete file (uploads w) ->
  bloomFilter w' = CountingBloomFilter.remove hashIndex (bloomFilter w) data ->
  Consistent w'.
Proof.
  intros [Hnamed Hunique Hsized Hsync] Hdata Hu Hf.
  constructor.
  - intros file1 data1. rewrite Hu. intros Hlook.
    apply (Hnamed file1 data1).
    exact (lookup_weaken _ _ _ _ Hlook (delete_subseteq _ _)).
  - intros file1 data1 file2 data2. rewrite Hu. intros Hlook1 Hlook2.
    apply (Hunique file1 data1 file2 data2).
    + exact (lookup_weaken _ _ _ _ Hlook1 (delete_subseteq _ _)).
    + exact (lookup_weaken _ _ _ _ Hlook2 (delete_subseteq _ _)).
  - rewrite Hf. exact Hsized.
  - rewrite Hf. unfold blobs. rewrite Hu.
    apply (remove_summarises_Permutation _ (blobs w)); [exact Hsync |].
    unfold blobs.
    rewrite <- (insert_delete_id (uploads w) file data Hdata) at 1.
    rewrite map_to_list_insert by apply lookup_delete_eq.
    reflexivity.
Qed.
End InvariantFacts.

(** ** The concrete environment *)

Section DemoFacts.
Lemma hexString_length s :
  String.length (Demo.hexString s) = (2 * String.length s)%nat.
Proof. induction s as [| c s IH]; simpl; [reflexivity | rewrite IH; lia]. Qed.

Lemma substring_length n s :
  (n <= String.length s)%nat -> String.length (String.substring 0 n s) = n.
Proof.
  revert s. induction n as [| n IH]; intros s Hn.
  - destruct s; reflexivity.
  - destruct s as [| c s]; simpl in *; [lia |]. rewrite IH; [reflexivity | lia].
Qed.

Lemma zeroes_length n : String.length (Demo.zeroes n) = n.
Proof. induction n as [| n IH]; simpl; [reflexivity | now rewrite IH]. Qed.

Lemma hexDigit_isHex c :
  isHexChar (Demo.hexDigit (nat_of_ascii c / 16)) = true /\
  isHexChar (Demo.hexDigit (nat_of_ascii c mod 16)) = true.
Proof.
  destruct c as [[] [] [] [] [] [] [] []]; vm_compute; split; reflexivity.
Qed.

Lemma hexString_allHex s : allHex (Demo.hexString s) = true.
Proof.
  induction s as [| c s IH]; [reflexivity |].
  destruct (hexDigit_isHex c) as [Hhigh Hlow].
  cbn [Demo.hexString allHex]. now rewrite Hhigh, Hlow, IH.
Qed.

Lemma demo_hexDigests : hexDigests (H := Demo.env).
Proof.
  intros content. unfold sha256_hex, Demo.env, Demo.digest. split.
  - rewrite hexString_length, substring_length; [reflexivity |].
    rewrite append_length, zeroes_length. lia.
  - apply hexString_allHex.
Qed.

Lemma demo_start_Consistent : Consistent (H := Demo.env) Demo.start.
Proof.
  constructor.
  - intros file data Hdata. unfold Demo.start in Hdata. simpl in Hdata.
    rewrite lookup_empty in Hdata. discriminate.
  - intros file1 data1 file2 data2 Hdata. unfold Demo.start in Hdata.
    simpl in Hdata. rewrite lookup_empty in Hdata. discriminate.
  - simpl. lia.
  - unfold summarises, blobs, Demo.start. simpl uploads.
    rewrite map_to_list_empty. reflexivity.
Qed.
End DemoFacts.

(** C7.  [deleteFile] looks for the stored hash anywhere in the file
    names, not at their start.  With one blob on disk, uploaded under the
    name [report.null], a delete of a file id that has no record looks for
    the text [null], finds it in the extension of that blob, and deletes
    the blob of another upload, where [download] of the same id finds no
    file.  With a second blob whose extension is the digest of the first,
    the delete of the first upload unlinks the second blob and leaves the
    first on disk. *)
Theorem deleteFile_matches_hash_inside_names :
  let blob := Demo.digest "ABC" +:+ ".null" in
  let w := snd (InternetFileService.uploadFile
                  (Some (mkFile "ABC" "report.null")) Demo.start) in
  let gone := InternetFileService.deleteFile 3 "no-such-id" w in
  let w1 := snd (InternetFileService.uploadFile
                   (Some (mkFile "ABC" "a.txt")) Demo.start) in
  let w2 := snd (InternetFileService.uploadFile
                   (Some (mkFile "AAA" ("x." +:+ Demo.digest "ABC"))) w1) in
  let other := InternetFileService.deleteFile 3 (Demo.uuid 0) w2 in
  (listing w = [blob] /\
   liveEntry w (hashKey "no-such-id") = None /\
   find (fun file => Js.startsWith file "null") (listing w) = None /\
   fst (InternetFileService.download "local" "no-such-id" None None w)
     = Thrown (Js.newError "File not found") /\
   fst gone = Returned (Js.JObj [ ("message",
                                   Js.JStr "File deleted successfully") ]) /\
   listing (snd gone) = []) /\
  (option_map value (liveEntry w2 (hashKey (Demo.uuid 0)))
     = Some (Demo.digest "ABC") /\
   find (fun file => Js.startsWith file (Demo.digest "ABC")) (listing w2)
     = Some (Demo.digest "ABC" +:+ ".txt") /\
   fst other = Returned (Js.JObj [ ("message",
                                    Js.JStr "File deleted successfully") ]) /\
   listing (snd other) = [Demo.digest "ABC" +:+ ".txt"]).
Proof. vm_compute. repeat split; reflexivity. Qed.

(** C2.  A delete can leave the blob of its file id on disk and take the
    blob of another upload.  Two uploads on the empty store: [ABC] under a
    name whose extension is the digest of [AAA], and [AAA] under a name
    whose extension is the digest of [ABC].  The hash stored for the first
    file id is the digest of [ABC], and the blob beginning with it is on
    disk.  The delete of the first file id answers
    [File deleted successfully], having unlinked the blob of [AAA] and
    taken [AAA] out of the filter: the blob of [ABC] is still on disk and
    still known to the filter, and a later upload of [ABC] is answered
    from it; the second upload, whose record is untouched, has lost its
    blob.  Both names contain both digests, so whichever of the two the
    directory lists first is the one a delete of either file id picks. *)
Theorem deleteFile_spares_the_blob_of_its_id :
  let blobABC := Demo.digest "ABC" +:+ "." +:+ Demo.digest "AAA" in
  let blobAAA := Demo.digest "AAA" +:+ "." +:+ Demo.digest "ABC" in
  let w1 := snd (InternetFileService.uploadFile
                   (Some (mkFile "ABC" ("x." +:+ Demo.digest "AAA")))
                   Demo.start) in
  let w2 := snd (InternetFileService.uploadFile
                   (Some (mkFile "AAA" ("y." +:+ Demo.digest "ABC"))) w1) in
  let run := InternetFileService.deleteFile 3 (Demo.uuid 0) w2 in
  let w' := snd run in
  let again := InternetFileService.uploadFile
                 (Some (mkFile "ABC" "again.txt")) w' in
  (option_map value (liveEntry w2 (hashKey (Demo.uuid 0)))
     = Some (Demo.digest "ABC") /\
   uploads w2 !! blobABC = Some "ABC" /\
   uploads w2 !! blobAAA = Some "AAA" /\
   find (fun file => Js.startsWith file (Demo.digest "ABC")) (listing w2)
     = Some blobABC) /\
  (fst run = Returned (Js.JObj [ ("message",
                                  Js.JStr "File deleted successfully") ]) /\
   uploads w' !! blobABC = Some "ABC" /\
   uploads w' !! blobAAA = None /\
   CountingBloomFilter.has hashIndex (bloomFilter w') "ABC" = true /\
   CountingBloomFilter.has hashIndex (bloomFilter w2) "AAA" = true /\
   CountingBloomFilter.has hashIndex (bloomFilter w') "AAA" = false) /\
  (fst (InternetFileService.download "local" (Demo.uuid 2) None None
          (snd again))
     = Returned (LocalDownload "ABC" (Some "again.txt")) /\
   option_map value (liveEntry w' (hashKey (Demo.uuid 1)))
     = Some (Demo.digest "AAA") /\
   fst (InternetFileService.download "local" (Demo.uuid 1) None None w')
     = Thrown (Js.newError "File not found")) /\
  (find (fun file => Js.includes file (Demo.digest "ABC")) [blobABC; blobAAA]
     = Some blobABC /\
   find (fun file => Js.includes file (Demo.digest "AAA")) [blobABC; blobAAA]
     = Some blobABC /\
   find (fun file => Js.includes file (Demo.digest "ABC")) [blobAAA; blobABC]
     = Some blobAAA /\
   find (fun file => Js.includes file (Demo.digest "AAA")) [blobAAA; blobABC]
     = Some blobAAA).
Proof. vm_compute. repeat split; reflexivity. Qed.

(** ** Uploads that fail, and uploads read back *)

Section UploadOutcomes.
Context `{Env}.

Lemma uploadFile_undecodable_run file w :
  decodeURIComponent (originalname file) = None ->
  InternetFileService.uploadFile (Some file) w
  = (Thrown (Js.newError "URIError: URI malformed"),
     setTrace (setDrawn w (S (drawn w)))
              (trace w ++ [RandomUUID (randomUUID (drawn w))])).
Proof.
  intros Hname.
  unfold InternetFileService.uploadFile, tryCatch, bind.
  unfold InternetFileService.drawUUID, bind, emit, ret.
  destruct w as [u r s f b c d df sf t]. world_simpl.
  rewrite Hname. reflexivity.
Qed.

(** What a successful upload leaves of the world outside the directory
    and the filter. *)
Lemma uploadFile_returned_record file w answer w' :
  InternetFileService.uploadFile (Some file) w = (Returned answer, w') ->
  exists name,
    decodeURIComponent (originalname file) = Some name /\
    redis w' = redis (recorded w file name) /\
    clock w' = clock w /\ bucket w' = bucket w /\ s3Fails w' = s3Fails w.
Proof.
  intros Hrun.
  destruct (decodeURIComponent (originalname file)) as [name |] eqn:Hname.
  - exists name. split; [reflexivity |].
    rewrite (uploadFile_run file name w Hname) in Hrun.
    destruct (CountingBloomFilter.has hashIndex (bloomFilter w) (buffer file)).
    + injection Hrun as _ <-. auto.
    + destruct (diskFails w); [discriminate |].
      injection Hrun as _ <-. auto.
  - rewrite (uploadFile_undecodable_run file w Hname) in Hrun. discriminate.
Qed.

Lemma find_first {A} (f : A -> bool) (l : list A) (x : A) :
  In x l -> f x = true ->
  exists y, find f l = Some y /\ In y l /\ f y = true.
Proof.
  intros Hin Hfx. destruct (find f l) as [y |] eqn:Hfind.
  - exists y. apply find_some in Hfind as [? ?]. auto.
  - rewrite (find_none f l Hfind x Hin) in Hfx. discriminate.
Qed.

(** In a directory in step with its filter, the search of [download] for
    a digest finds the blob of that content, when there is one. *)
Lemma find_blob_of_digest w blob payload :
  hexDigests -> Consistent w ->
  uploads w !! blob = Some payload ->
  find (fun file => Js.startsWith file (sha256_hex payload)) (listing w)
    = Some blob /\ blob <> EmptyString.
Proof.
  intros Hhex Hcons Hblob.
  destruct (blob_named w Hcons blob payload Hblob) as [extension Hname].
  assert (Hstarts : Js.startsWith blob (sha256_hex payload) = true)
    by (rewrite Hname; apply prefix_append).
  assert (Hin : In blob (listing w)) by (apply listing_lookup; eauto).
  destruct (find_first _ _ blob Hin Hstarts) as (y & Hfind & Hy & Hpy).
  apply listing_lookup in Hy as [data Hdata].
  destruct (blob_named w Hcons y data Hdata) as [ext Hyname].
  assert (Hdigest : sha256_hex data = sha256_hex payload).
  { rewrite Hyname in Hpy. apply startsWith_same_length in Hpy; [assumption |].
    destruct (Hhex data) as [-> _]. now destruct (Hhex payload) as [-> _]. }
  rewrite (blob_unique w Hcons y data blob payload Hdata Hblob Hdigest)
    in Hfind.
  split; [exact Hfind |].
  intros ->. destruct (Hhex payload) as [Hlen _].
  apply (f_equal String.length) in Hname. rewrite append_length, Hlen in Hname.
  discriminate.
Qed.

(** No file of a digest-named directory starts with the digest of a
    payload that has no blob. *)
Lemma no_blob_of_digest w payload file :
  hexDigests -> blobNamed w ->
  (forall blob data, uploads w !! blob = Some data ->
                     sha256_hex data <> sha256_hex payload) ->
  In file (listing w) ->
  Js.startsWith file (sha256_hex payload) = false.
Proof.
  intros Hhex Hnamed Hnone Hin.
  apply listing_lookup in Hin as [data Hdata].
  destruct (Js.startsWith file (sha256_hex payload)) eqn:Hp; [| reflexivity].
  exfalso. apply (Hnone file data Hdata).
  destruct (Hnamed file data Hdata) as [ext ->].
  apply startsWith_same_length in Hp; [assumption |].
  destruct (Hhex data) as [-> _]. now destruct (Hhex payload) as [-> _].
Qed.

(** [download] by the way [local], once the blob is found. *)
Lemma download_local_run fileId file data type id w :
  find (fun file =>
          Js.startsWith file
            (Js.toString (option_map value (liveEntry w (hashKey fileId)))))
       (listing w) = Some file ->
  file <> EmptyString ->
  uploads w !! file = Some data ->
  InternetFileService.download "local" fileId type id w
  = (Returned (LocalDownload data
                 (option_map value (liveEntry w (filenameKey fileId)))),
     setTrace w (trace w ++ [ RedisConnect; RedisGet (hashKey fileId);
                              FsReaddir; FsOpen file; RedisConnect;
                              RedisGet (filenameKey fileId) ])).
Proof.
  intros Hfind Hname Hdata.
  assert (Htruthy : Js.truthy (Some file) = true)
    by (destruct file; [contradiction | reflexivity]).
  rewrite download_run. rewrite Hfind, Htruthy.
  cbv zeta. change (negb true) with false. cbv iota.
  change (Js.toString (Some file)) with file.
  rewrite String.eqb_refl.
  erewrite _localDownload_run by exact Hdata.
  destruct w as [u r s f b c d df sf t]. unfold liveEntry. world_simpl.
  rewrite <- !app_assoc. reflexivity.
Qed.
End UploadOutcomes.



(** X3.  An upload can be read back: from a directory in step with its
    filter, when the filter did not know the payload or its blob is on
    disk, a [local] download of the file id the upload answered yields the
    bytes uploaded and the decoded filename. *)
Theorem upload_then_local_download `{Env} (file : UploadedFile)
    (w w' : World) (answer : Js.JSON) :
  hexDigests -> Consistent w -> collisionFree w (buffer file) ->
  CountingBloomFilter.has hashIndex (bloomFilter w) (buffer file) = false \/
    (exists blob, uploads w !! blob = Some (buffer file)) ->
  InternetFileService.uploadFile (Some file) w = (Returned answer, w') ->
  exists name,
    decodeURIComponent (originalname file) = Some name /\
    answer = Js.JObj [ ("fileId", Js.JStr (randomUUID (drawn w)));
                       ("fileName", Js.JStr name) ] /\
    forall type id,
      fst (InternetFileService.download "local" (randomUUID (drawn w)) type id w')
      = Returned (LocalDownload (buffer file) (Some name)).
Proof.
  intros Hhex Hcons Hfree Hstored Hrun.
  destruct (uploadFile_Consistent file w answer w' Hhex Hcons Hfree Hrun)
    as [Hcons' _].
  destruct (uploadFile_returned_record file w answer w' Hrun)
    as (name & Hname & Hredis & Hclock & _).
  destruct (uploadFile_returned file w answer w' Hrun)
    as (name' & Hname' & Hanswer & _ & Hcase).
  assert (name' = name) by congruence. subst name'.
  exists name. split; [exact Hname |]. split; [exact Hanswer |].
  destruct (recorded_resolves w file name w' Hredis Hclock) as [Hhash Hfile].
  assert (Hblob : exists blob, uploads w' !! blob = Some (buffer file)).
  { destruct (CountingBloomFilter.has hashIndex (bloomFilter w) (buffer file))
      eqn:Hknown.
    - subst w'. destruct Hstored as [? | Hblob]; [discriminate | exact Hblob].
    - destruct Hcase as [Hu _]. eexists. rewrite Hu. apply lookup_insert_eq. }
  destruct Hblob as [blob Hblob].
  destruct (find_blob_of_digest w' blob (buffer file) Hhex Hcons' Hblob)
    as [Hfind Hnonempty].
  intros type id.
  rewrite (download_local_run _ blob (buffer file));
    [| rewrite Hhash; exact Hfind | exact Hnonempty | exact Hblob ].
  cbn [fst]. now rewrite Hfile.
Qed.

(** X4.  The filter answering for content it does not hold loses the
    upload: when the filter reports the payload as present and no blob of
    its digest is on disk, the upload still answers a file id, writes
    nothing to the directory, and a download of that file id, by any way,
    fails with [File not found]. *)
Theorem filter_false_positive_loses_upload `{Env} (file : UploadedFile)
    (name : string) (w : World) :
  decodeURIComponent (originalname file) = Some name ->
  hexDigests -> blobNamed w ->
  CountingBloomFilter.has hashIndex (bloomFilter w) (buffer file) = true ->
  (forall blob data, uploads w !! blob = Some data ->
                     sha256_hex data <> sha256_hex (buffer file)) ->
  let run := InternetFileService.uploadFile (Some file) w in
  let fileId := randomUUID (drawn w) in
  fst run = Returned (Js.JObj [ ("fileId", Js.JStr fileId);
                                ("fileName", Js.JStr name) ]) /\
  uploads (snd run) = uploads w /\
  forall way type id,
    fst (InternetFileService.download way fileId type id (snd run))
    = Thrown (Js.newError "File not found").
Proof.
  intros Hname Hhex Hnamed Hknown Hnone run fileId. subst run.
  rewrite (uploadFile_run file name w Hname), Hknown. cbn [fst snd].
  split; [reflexivity |]. split; [reflexivity |].
  intros way type id.
  destruct (recorded_resolves w file name (recorded w file name)
              eq_refl eq_refl) as [Hresolves _].
  fold fileId in Hresolves.
  assert (Hnone' : forall blob, In blob (listing (recorded w file name)) ->
            Js.startsWith blob
              (Js.toString (option_map value
                 (liveEntry (recorded w file name) (hashKey fileId))))
            = false).
  { intros blob Hin. rewrite Hresolves.
    unfold listing in Hin.
    change (uploads (recorded w file name)) with (uploads w) in Hin.
    now apply (no_blob_of_digest w (buffer file) blob Hhex). }
  now rewrite (download_not_found_run way fileId type id _ Hnone').
Qed.

(** ** Staging, expiry, and deletes that find nothing *)

Section ServiceRuns.
Context `{Env}.

(** [download] by the way [staging-area], once the blob is found. *)
Lemma download_staging_found fileId file data t i w :
  find (fun file =>
          Js.startsWith file
            (Js.toString (option_map value (liveEntry w (hashKey fileId)))))
       (listing w) = Some file ->
  file <> EmptyString ->
  uploads w !! file = Some data ->
  t = "user" \/ t = "room" -> i <> EmptyString -> s3Fails w = false ->
  let run := InternetFileService.download "staging-area" fileId
               (Some t) (Some i) w in
  let originalFilename := option_map value (liveEntry w (filenameKey fileId)) in
  let key := t +:+ "/" +:+ i +:+ "/" +:+ file in
  fst run = Returned
              (StagingAreaDownload fileId originalFilename
                 ("https://" +:+ AWS_BUCKET_NAME +:+ ".s3." +:+ AWS_REGION
                    +:+ ".amazonaws.com/" +:+ key)) /\
  bucket (snd run)
  = mkObject key data (encodeURIComponent (Js.toString originalFilename))
    :: bucket w.
Proof.
  intros Hfind Hname Hdata Ht Hi Hs3 run originalFilename key. subst run.
  assert (Htruthy : Js.truthy (Some file) = true)
    by (destruct file; [contradiction | reflexivity]).
  assert (Hor : negb (Js.truthy (Some t)) || negb (Js.truthy (Some i)) = false).
  { destruct i; [contradiction |]. destruct Ht as [-> | ->]; reflexivity. }
  rewrite download_run. rewrite Hfind, Htruthy.
  cbv zeta. change (negb true) with false. cbv iota.
  change (Js.toString (Some file)) with file.
  change ("staging-area" =? "local") with false.
  rewrite String.eqb_refl. cbv iota. rewrite Hor.
  change (Js.toString (Some t)) with t. change (Js.toString (Some i)) with i.
  erewrite _stagingAreaDownload_run by (exact Hdata || exact Ht || exact Hs3).
  split; reflexivity.
Qed.

(** The two entries of the record, as the upload leaves them. *)
Lemma recorded_entries w file name :
  let fileId := randomUUID (drawn w) in
  let deadline := (clock w + 3600 * 24 * 30 * 1000)%Z in
  redis (recorded w file name) !! hashKey fileId
    = Some (mkEntry (sha256_hex (buffer file)) (Some deadline)) /\
  redis (recorded w file name) !! filenameKey fileId
    = Some (mkEntry name (Some deadline)).
Proof.
  intros fileId deadline. unfold recorded. cbn [redis]. split.
  - rewrite lookup_insert_ne by (intros Heq; symmetry in Heq;
                                 now apply hashKey_not_filenameKey in Heq).
    apply lookup_insert_eq.
  - apply lookup_insert_eq.
Qed.

(** [deleteFile] when no listed name contains the text looked for. *)
Lemma deleteFile_not_found_run fuel fileId w :
  (forall file, In file (listing w) ->
     Js.includes file
       (Js.toString (option_map value (liveEntry w (hashKey fileId)))) = false) ->
  InternetFileService.deleteFile fuel fileId w
  = (Thrown (Js.newError "File not found"),
     setTrace w (trace w ++ [ FsReaddir; RedisConnect;
                              RedisGet (hashKey fileId) ])).
Proof.
  intros Hnone. apply find_nothing in Hnone.
  unfold InternetFileService.deleteFile.
  unfold bind at 1, InternetFileService.readdir, bind at 1, emit.
  unfold listing, liveEntry in *.
  destruct w as [u r s f b c d df sf t]. world_simpl.
  unfold bind at 1. rewrite connect_run. world_simpl.
  unfold bind at 1. rewrite get_run. unfold liveEntry. world_simpl.
  rewrite Hnone. unfold throw. cbn [Js.truthy negb].
  rewrite <- !app_assoc. reflexivity.
Qed.
End ServiceRuns.

(** X5.  A staged download puts the bytes uploaded on S3: after an upload
    from a directory in step with its filter, a [staging-area] download of
    the answered file id, for [type] one of [user] and [room], puts the
    blob under [{type}/{id}/{blob}] with the percent-encoded filename as
    its [originalName], and answers the filename and that location.  The
    blob is the one on disk for the content: its name starts with the
    digest, and carries the extension of this upload when this upload wrote
    it. *)
Theorem upload_then_staging_download `{Env} (file : UploadedFile)
    (w w' : World) (answer : Js.JSON) (type id : string) :
  hexDigests -> Consistent w -> collisionFree w (buffer file) ->
  CountingBloomFilter.has hashIndex (bloomFilter w) (buffer file) = false \/
    (exists blob, uploads w !! blob = Some (buffer file)) ->
  InternetFileService.uploadFile (Some file) w = (Returned answer, w') ->
  type = "user" \/ type = "room" -> id <> EmptyString -> s3Fails w = false ->
  exists name blob,
    decodeURIComponent (originalname file) = Some name /\
    uploads w' !! blob = Some (buffer file) /\
    Js.startsWith blob (sha256_hex (buffer file)) = true /\
    (CountingBloomFilter.has hashIndex (bloomFilter w) (buffer file) = false ->
     blob = sha256_hex (buffer file) +:+ extname name) /\
    let fileId := randomUUID (drawn w) in
    let run := InternetFileService.download "staging-area" fileId
                 (Some type) (Some id) w' in
    let key := type +:+ "/" +:+ id +:+ "/" +:+ blob in
    fst run = Returned
                (StagingAreaDownload fileId (Some name)
                   ("https://" +:+ AWS_BUCKET_NAME +:+ ".s3." +:+ AWS_REGION
                      +:+ ".amazonaws.com/" +:+ key)) /\
    bucket (snd run)
    = mkObject key (buffer file) (encodeURIComponent name) :: bucket w.
Proof.
  intros Hhex Hcons Hfree Hstored Hrun Htype Hid Hs3.
  destruct (uploadFile_Consistent file w answer w' Hhex Hcons Hfree Hrun)
    as [Hcons' _].
  destruct (uploadFile_returned_record file w answer w' Hrun)
    as (name & Hname & Hredis & Hclock & Hbucket & Hs3').
  destruct (uploadFile_returned file w answer w' Hrun)
    as (name' & Hname' & _ & _ & Hcase).
  assert (name' = name) by congruence. subst name'.
  destruct (recorded_resolves w file name w' Hredis Hclock) as [Hhash Hfile].
  assert (Hblob : exists blob,
             uploads w' !! blob = Some (buffer file) /\
             (CountingBloomFilter.has hashIndex (bloomFilter w) (buffer file)
              = false ->
              blob = sha256_hex (buffer file) +:+ extname name)).
  { destruct (CountingBloomFilter.has hashIndex (bloomFilter w) (buffer file))
      eqn:Hknown.
    - subst w'. destruct Hstored as [? | [blob Hblob]]; [discriminate |].
      exists blob. split; [exact Hblob | discriminate].
    - destruct Hcase as [Hu _]. eexists. split; [| reflexivity].
      rewrite Hu. apply lookup_insert_eq. }
  destruct Hblob as (blob & Hblob & Hext).
  destruct (find_blob_of_digest w' blob (buffer file) Hhex Hcons' Hblob)
    as [Hfind Hnonempty].
  exists name, blob. split; [exact Hname |]. split; [exact Hblob |].
  split.
  { destruct (blob_named w' Hcons' blob (buffer file) Hblob) as [ext ->].
    apply prefix_append. }
  split; [exact Hext |].
  intros fileId run key.
  rewrite Hs3 in Hs3'. fold fileId in Hhash, Hfile.
  assert (Hfind' :
            find (fun file =>
                    Js.startsWith file
                      (Js.toString
                         (option_map value (liveEntry w' (hashKey fileId)))))
                 (listing w') = Some blob)
    by (rewrite Hhash; exact Hfind).
  destruct (download_staging_found fileId blob (buffer file) type id w'
              Hfind' Hnonempty Hblob Htype Hid Hs3') as [Hanswer Hput].
  fold run in Hanswer, Hput.
  rewrite Hfile in Hanswer, Hput. rewrite Hbucket in Hput.
  split; [exact Hanswer | exact Hput].
Qed.

(** X6.  The record of an upload lives thirty days.  Until then the file
    id resolves to the hash and to the filename; from then on both entries
    have expired, and (the directory being in step with its filter) a
    download of the file id fails with [File not found] while the
    directory still holds what it held: the blob outlives its record. *)
Theorem record_expires_after_30_days `{Env} (file : UploadedFile)
    (w w' : World) (answer : Js.JSON) (ms : Z) :
  hexDigests -> Consistent w -> collisionFree w (buffer file) ->
  InternetFileService.uploadFile (Some file) w = (Returned answer, w') ->
  let fileId := randomUUID (drawn w) in
  let later := advance w' ms in
  ((ms < 30 * msPerDay)%Z ->
   option_map value (liveEntry later (hashKey fileId))
     = Some (sha256_hex (buffer file)) /\
   option_map value (liveEntry later (filenameKey fileId))
     = decodeURIComponent (originalname file)) /\
  ((30 * msPerDay <= ms)%Z ->
   liveEntry later (hashKey fileId) = None /\
   liveEntry later (filenameKey fileId) = None /\
   uploads later = uploads w' /\
   forall way type id,
     fst (InternetFileService.download way fileId type id later)
     = Thrown (Js.newError "File not found")).
Proof.
  intros Hhex Hcons Hfree Hrun fileId later.
  destruct (uploadFile_Consistent file w answer w' Hhex Hcons Hfree Hrun)
    as [Hcons' _].
  destruct (uploadFile_returned_record file w answer w' Hrun)
    as (name & Hname & Hredis & Hclock & _).
  destruct (recorded_entries w file name) as [Hhash Hfile].
  fold fileId in Hhash, Hfile.
  assert (Hlive : forall key,
             liveEntry later key
             = match redis (recorded w file name) !! key with
               | Some e => if expired (clock w + ms) e then None else Some e
               | None => None
               end).
  { intros key. unfold liveEntry, later, advance. cbn [redis clock].
    now rewrite Hredis, Hclock. }
  unfold msPerDay. split.
  - intros Hms. rewrite !Hlive, Hhash, Hfile, Hname. unfold expired.
    cbn [expiry].
    replace (clock w + 3600 * 24 * 30 * 1000 <=? clock w + ms)%Z with false
      by (symmetry; apply Z.leb_gt; lia).
    split; reflexivity.
  - intros Hms.
    assert (Hgone : liveEntry later (hashKey fileId) = None).
    { rewrite Hlive, Hhash. unfold expired. cbn [expiry].
      replace (clock w + 3600 * 24 * 30 * 1000 <=? clock w + ms)%Z with true
        by (symmetry; apply Z.leb_le; lia).
      reflexivity. }
    split; [exact Hgone |]. split.
    { rewrite Hlive, Hfile. unfold expired. cbn [expiry].
      replace (clock w + 3600 * 24 * 30 * 1000 <=? clock w + ms)%Z with true
        by (symmetry; apply Z.leb_le; lia).
      reflexivity. }
    split; [reflexivity |].
    intros way type id.
    assert (Hnone : forall blob, In blob (listing later) ->
              Js.startsWith blob
                (Js.toString (option_map value
                                (liveEntry later (hashKey fileId))))
              = false).
    { intros blob Hin. rewrite Hgone.
      apply (blob_name_not_null w' blob Hhex (blob_named w' Hcons')).
      exact Hin. }
    now rewrite (download_not_found_run way fileId type id later Hnone).
Qed.

(** X7.  [deleteFile] for a file id whose stored hash (the text [null]
    when there is none) occurs in no listed file name fails with
    [File not found] after the listing and the lookup, whatever the fuel:
    nothing is removed from the filter, the directory or Redis, and no
    snapshot is saved. *)
Theorem deleteFile_without_blob_fails `{Env} (fuel : nat) (fileId : string)
    (w : World) :
  (forall file, In file (listing w) ->
     Js.includes file
       (Js.toString (option_map value (liveEntry w (hashKey fileId)))) = false) ->
  let run := InternetFileService.deleteFile fuel fileId w in
  fst run = Thrown (Js.newError "File not found") /\
  issued w (snd run) = [ FsReaddir; RedisConnect; RedisGet (hashKey fileId) ] /\
  uploads (snd run) = uploads w /\ redis (snd run) = redis w /\
  bloomFilter (snd run) = bloomFilter w /\ snapshot (snd run) = snapshot w.
Proof.
  intros Hnone run. subst run.
  rewrite (deleteFile_not_found_run fuel fileId w Hnone). cbn [fst snd].
  split; [reflexivity |]. split.
  - unfold issued. now apply issued_app.
  - repeat split; reflexivity.
Qed.

(** X8.  A delete that finds a blob leaves the directory and the filter
    in step if they were: the blob unlinked is the one whose content was
    taken out of the filter, also when the name matched is not the blob of
    the file id. *)
Theorem deleteFile_keeps_store_consistent `{Env} (fuel : nat)
    (fileId h file : string) (data : Buffer) (w : World) :
  (0 < tableSize)%nat ->
  (tableSize <= 100 * fuel)%nat ->
  option_map value (liveEntry w (hashKey fileId)) = Some h ->
  find (fun file => Js.includes file h) (listing w) = Some file ->
  file <> EmptyString ->
  uploads w !! file = Some data ->
  Consistent w ->
  let w' := snd (InternetFileService.deleteFile fuel fileId w) in
  Consistent w' /\
  uploads w' !! file = None /\
  (forall other, other <> file -> uploads w' !! other = uploads w !! other).
Proof.
  intros Hsize Hfuel Hstored Hfind Hname Hdata Hcons w'. subst w'.
  destruct (deleteFile_returns fuel fileId h file data w
              Hsize Hfuel Hstored Hfind Hname Hdata)
    as (m & scans & -> & _).
  split; [| split].
  - apply (Consistent_unlink w _ file data Hcons Hdata); reflexivity.
  - apply lookup_delete_eq.
  - intros other Hne. cbn [snd]. apply lookup_delete_ne. congruence.
Qed.

(** X9.  After [deleteAllFiles] the store starts afresh: whatever it
    held, the next upload writes its blob (the new filter knows no
    content), the directory then holds that blob alone, and a [local]
    download of the answered file id yields the bytes and the filename. *)
Theorem upload_after_deleteAllFiles `{Env} (fuel : nat) (file : UploadedFile)
    (name : string) (w : World) :
  (0 < tableSize)%nat ->
  (tableSize <= 100 * fuel)%nat ->
  (1 <= filterHashes)%nat ->
  hexDigests ->
  decodeURIComponent (originalname file) = Some name ->
  diskFails w = false ->
  let w0 := snd (InternetFileService.deleteAllFiles fuel w) in
  let run := InternetFileService.uploadFile (Some file) w0 in
  let fileId := randomUUID (drawn w) in
  let blob := sha256_hex (buffer file) +:+ extname name in
  fst run = Returned (Js.JObj [ ("fileId", Js.JStr fileId);
                                ("fileName", Js.JStr name) ]) /\
  uploads (snd run) = {[ blob := buffer file ]} /\
  forall type id,
    fst (InternetFileService.download "local" fileId type id (snd run))
    = Returned (LocalDownload (buffer file) (Some name)).
Proof.
  intros Hsize Hfuel Hhashes Hhex Hname Hdisk w0 run fileId blob.
  destruct (CountingBloomFilter.create filterSize filterHashes)
    as [fresh |] eqn:Hfresh;
    [| unfold CountingBloomFilter.create in Hfresh;
       destruct (filterHashes <? 1)%nat eqn:Hk; [| discriminate];
       apply Nat.ltb_lt in Hk; lia].
  destruct (deleteAllFiles_run fuel fresh w Hsize Hfuel Hfresh)
    as (keyspace & events & Hrun0 & _).
  subst run w0. rewrite Hrun0. cbn [snd].
  set (w0 := mkWorld ∅ keyspace _ fresh _ _ _ _ _ _).
  pose proof (uploadFile_run file name w0 Hname) as Hrun.
  cbv zeta in Hrun.
  change (bloomFilter w0) with fresh in Hrun.
  change (diskFails w0) with (diskFails w) in Hrun.
  rewrite (has_fresh filterSize filterHashes fresh (buffer file) Hfresh),
    Hdisk in Hrun.
  change (uploads w0) with (∅ : gmap string string) in Hrun.
  rewrite insert_empty in Hrun. fold blob in Hrun.
  rewrite Hrun. cbn [fst snd].
  split; [reflexivity |]. split; [reflexivity |].
  set (w1 := mkWorld {[ blob := buffer file ]} _ _ _ _ _ _ _ _ _).
  destruct (recorded_resolves w0 file name w1 eq_refl eq_refl)
    as [Hhash Hfile].
  change (drawn w0) with (drawn w) in Hhash, Hfile. fold fileId in Hhash, Hfile.
  assert (Hblob : uploads w1 !! blob = Some (buffer file))
    by apply lookup_singleton_eq.
  assert (Hlisting : listing w1 = [blob])
    by (unfold listing; change (uploads w1) with ({[ blob := buffer file ]}
                                                   : gmap string string);
        now rewrite map_to_list_singleton).
  assert (Hstarts : Js.startsWith blob (sha256_hex (buffer file)) = true)
    by apply prefix_append.
  assert (Hnonempty : blob <> EmptyString).
  { intros Hempty. destruct (Hhex (buffer file)) as [Hlen _].
    apply (f_equal String.length) in Hempty. unfold blob in Hempty.
    rewrite append_length, Hlen in Hempty. discriminate. }
  intros type id.
  rewrite (download_local_run fileId blob (buffer file) type id w1);
    [| rewrite Hhash, Hlisting; cbn [find Js.toString]; now rewrite Hstarts
     | exact Hnonempty | exact Hblob ].
  cbn [fst]. now rewrite Hfile.
Qed.

(** ** The filter at start-up, and the Redis client *)

Section StartUp.
Context `{Env}.

(** [initFilter], case by case. *)
Lemma initFilter_run w :
  InternetFileService.initFilter w
  = match snapshot w with
    | None =>
        match CountingBloomFilter.create filterSize filterHashes with
        | Some filter =>
            (Returned tt,
             mkWorld (uploads w) (redis w)
               (Some (CountingBloomFilter.saveAsJSON filter)) filter
               (bucket w) (clock w) (drawn w) (diskFails w) (s3Fails w)
               (trace w ++
                  [ RedisConnect; FilterLoad; BloomCreate;
                    FilterSave (CountingBloomFilter.saveAsJSON filter) ]))
        | None =>
            (Thrown (Js.newError
               "A CountingBloomFilter must use at least one hash function"),
             setTrace w (trace w ++ [ RedisConnect; FilterLoad; BloomCreate ]))
        end
    | Some json =>
        match CountingBloomFilter.fromJSON json with
        | Some filter =>
            (Returned tt,
             mkWorld (uploads w) (redis w) (Some json) filter
               (bucket w) (clock w) (drawn w) (diskFails w) (s3Fails w)
               (trace w ++ [ RedisConnect; FilterLoad ]))
        | None =>
            (Thrown (Js.newError
               "Cannot create a CountingBloomFilter from this JSON export"),
             setTrace w (trace w ++ [ RedisConnect; FilterLoad ]))
        end
    end.
Proof.
  unfold InternetFileService.initFilter, InternetFileService._loadFilter.
  unfold bind at 1, bind at 1. rewrite connect_run.
  unfold bind at 1, RedisClient.loadBloomFilter, bind at 1, emit.
  destruct w as [u r s f b c d df sf t]. world_simpl.
  destruct s as [json |].
  - destruct (CountingBloomFilter.fromJSON json) as [filter |].
    + unfold ret. world_simpl. rewrite <- !app_assoc. reflexivity.
    + unfold throw. rewrite <- !app_assoc. reflexivity.
  - unfold bind at 1, InternetFileService.createFilter, bind at 1, emit.
    world_simpl.
    destruct (CountingBloomFilter.create filterSize filterHashes)
      as [filter |].
    + unfold ret at 1. unfold bind at 1, RedisClient.saveBloomFilter,
        bind at 1, emit, ret.
      world_simpl. rewrite <- !app_assoc. reflexivity.
    + unfold throw. rewrite <- !app_assoc. reflexivity.
Qed.

End StartUp.

(** X10.  When [initFilter] returns, the filter in memory is the one the
    snapshot in Redis deserializes to: it was loaded from that snapshot,
    which is left as it is, or, no snapshot being stored, it is the empty
    filter of the configuration, whose snapshot has been saved.  Running
    it again then loads the same filter.  When it fails (a snapshot that is
    no filter export, or a configuration without hash function), the filter
    in memory and the snapshot are untouched. *)
Theorem initFilter_agrees_with_snapshot `{Env} (w : World) :
  let run := InternetFileService.initFilter w in
  (fst run = Returned tt ->
   (exists json,
       snapshot (snd run) = Some json /\
       CountingBloomFilter.fromJSON json = Some (bloomFilter (snd run))) /\
   (snapshot w = None ->
    CountingBloomFilter.create filterSize filterHashes
    = Some (bloomFilter (snd run))) /\
   (forall json, snapshot w = Some json -> snapshot (snd run) = Some json) /\
   fst (InternetFileService.initFilter (snd run)) = Returned tt /\
   bloomFilter (snd (InternetFileService.initFilter (snd run)))
   = bloomFilter (snd run)) /\
  (forall e, fst run = Thrown e ->
             bloomFilter (snd run) = bloomFilter w /\
             snapshot (snd run) = snapshot w) /\
  uploads (snd run) = uploads w /\ redis (snd run) = redis w.
Proof.
  intros run. subst run. rewrite initFilter_run.
  destruct (snapshot w) as [json |] eqn:Hsnapshot.
  - destruct (CountingBloomFilter.fromJSON json) as [filter |] eqn:Hjson.
    + split; [| split; [discriminate | split; reflexivity]].
      intros _. cbn [fst snd snapshot bloomFilter].
      split; [eauto |]. split; [discriminate |].
      split; [now intros ? [= <-] |].
      rewrite initFilter_run. cbn [snapshot]. rewrite Hjson.
      split; reflexivity.
    + split; [discriminate |]. cbn [fst snd].
      split; [| split; reflexivity].
      intros e _. split; [reflexivity | exact Hsnapshot].
  - destruct (CountingBloomFilter.create filterSize filterHashes)
      as [filter |] eqn:Hfresh.
    + split; [| split; [discriminate | split; reflexivity]].
      intros _. cbn [fst snd snapshot bloomFilter].
      split; [eexists; split; [reflexivity | apply fromJSON_saveAsJSON] |].
      split; [reflexivity |]. split; [discriminate |].
      rewrite initFilter_run. cbn [snapshot].
      rewrite fromJSON_saveAsJSON. split; reflexivity.
    + split; [discriminate |]. cbn [fst snd].
      split; [| split; reflexivity].
      intros e _. split; [reflexivity | exact Hsnapshot].
Qed.


(** X12.  What [set] stores, [get] reads back, at any later time; once
    [setExpire] has given the key a positive number of seconds to live,
    [get] reads the value back until that many seconds have passed and
    answers [null] from then on; after [del] it answers [null]. *)
Theorem stored_value_readable_until_expiry `{Env} (key val : string)
    (seconds ms : Z) (w : World) :
  (0 < seconds)%Z ->
  (0 <= ms)%Z ->
  let w1 := snd (RedisClient.set key val w) in
  let w2 := snd (RedisClient.setExpire key seconds w1) in
  let w3 := snd (RedisClient.del key w2) in
  fst (RedisClient.get key (advance w1 ms)) = Returned (Some val) /\
  fst (RedisClient.get key (advance w2 ms))
    = Returned (if (ms <? seconds * 1000)%Z then Some val else None) /\
  fst (RedisClient.get key (advance w3 ms)) = Returned None.
Proof.
  intros Hseconds Hms w1 w2 w3. subst w3 w2 w1.
  destruct w as [u r s f b c d df sf t].
  rewrite set_run. world_simpl.
  erewrite setExpire_seconds_run;
    [| exact Hseconds
     | unfold liveEntry; world_simpl; rewrite lookup_insert_eq; reflexivity].
  world_simpl. rewrite del_run. world_simpl. rewrite !get_run.
  unfold liveEntry, advance. world_simpl.
  rewrite insert_insert_eq, !lookup_insert_eq, lookup_delete_eq.
  unfold expired. cbn [expiry value option_map].
  split; [reflexivity |]. split; [| reflexivity].
  destruct (ms <? seconds * 1000)%Z eqn:Hlt.
  - apply Z.ltb_lt in Hlt.
    replace (c + seconds * 1000 <=? c + ms)%Z with false
      by (symmetry; apply Z.leb_gt; lia).
    reflexivity.
  - apply Z.ltb_ge in Hlt.
    replace (c + seconds * 1000 <=? c + ms)%Z with true
      by (symmetry; apply Z.leb_le; lia).
    reflexivity.
Qed.

(** ** [deleteHashByFileId] *)

Section OwnedFacts.
Context `{Env}.

Lemma index_underscore_cons c v :
  String.index 0 "_" (String c v)
  = if Ascii.eqb c "_" then Some 0%nat
    else option_map S (String.index 0 "_" v).
Proof.
  change (String.index 0 "_" (String c v))
    with (if String.prefix "_" (String c v) then Some 0%nat
          else match String.index 0 "_" v with
               | Some n => Some (S n)
               | None => None
               end).
  rewrite prefix_one. reflexivity.
Qed.

(** The text before the first underscore of a value that has one. *)
Lemma substringTo_underscore v id :
  Js.includes v "_" = true ->
  substringTo v (indexOfUnderscore v) = id <->
  exists rest, v = id +:+ "_" +:+ rest /\ Js.includes id "_" = false.
Proof.
  unfold substringTo, indexOfUnderscore.
  revert id. induction v as [| c v IH]; intros id Hin; [discriminate |].
  rewrite includes_one_cons in Hin. rewrite index_underscore_cons.
  destruct (Ascii.eqb c "_") eqn:Hc.
  - apply Ascii.eqb_eq in Hc as ->. simpl. split.
    + intros <-. exists v. auto.
    + intros (rest & Hv & Hid). destruct id as [| d id]; [reflexivity |].
      rewrite append_cons in Hv. injection Hv as <- _.
      rewrite includes_one_cons in Hid. discriminate.
  - simpl in Hin. specialize (IH (match id with
                                  | EmptyString => EmptyString
                                  | String _ id' => id'
                                  end) Hin).
    destruct (String.index 0 "_" v) as [n |] eqn:Hindex.
    + cbn [option_map]. rewrite Nat2Z.id in *. simpl String.substring.
      split.
      * intros <-. destruct IH as [IH _].
        destruct (IH eq_refl) as (rest & Hv & Hid).
        exists rest. split; [rewrite append_cons; now f_equal |].
        rewrite includes_one_cons, Hc. exact Hid.
      * intros (rest & Hv & Hid). destruct id as [| d id].
        -- simpl in Hv. injection Hv as -> _. discriminate.
        -- rewrite append_cons in Hv. injection Hv as <- Hv.
           f_equal. apply IH. exists rest. split; [exact Hv |].
           rewrite includes_one_cons in Hid.
           now apply orb_false_iff in Hid as [_ ?].
    + exfalso. clear IH. revert Hin Hindex. clear.
      induction v as [| d v IH]; [discriminate |].
      rewrite includes_one_cons, index_underscore_cons.
      destruct (Ascii.eqb d "_"); [discriminate |]. simpl.
      destruct (String.index 0 "_" v); [discriminate | auto].
Qed.

(** A value is taken for one of the file id when it reads
    [{fileId}_...], the file id holding no underscore itself. *)
Lemma ownedBy_iff id v :
  ownedBy id v = true <->
  exists rest, v = Some (id +:+ "_" +:+ rest) /\ Js.includes id "_" = false.
Proof.
  unfold ownedBy. split.
  - intros Howned. apply andb_true_iff in Howned as [Hfirst Heq].
    apply andb_true_iff in Hfirst as [Htruthy Hin].
    destruct v as [v |]; [| discriminate]. cbn [Js.toString] in *.
    apply String.eqb_eq in Heq.
    apply (substringTo_underscore v id Hin) in Heq as (rest & -> & Hid).
    eauto.
  - intros (rest & -> & Hid). cbn [Js.toString].
    assert (Hin : Js.includes (id +:+ "_" +:+ rest) "_" = true).
    { clear Hid. induction id as [| c id IH].
      - simpl. now destruct rest.
      - rewrite append_cons, includes_one_cons, IH.
        apply orb_true_r. }
    rewrite Hin.
    assert (Htruthy : Js.truthy (Some (id +:+ "_" +:+ rest)) = true)
      by now destruct id.
    rewrite Htruthy. cbn [andb]. apply String.eqb_eq.
    apply (substringTo_underscore _ id Hin). eauto.
Qed.

Lemma owned_ext w w' id key :
  redis w' !! key = redis w !! key -> clock w' = clock w ->
  owned w' id key = owned w id key.
Proof. intros Hr Hc. unfold owned, liveEntry. now rewrite Hr, Hc. Qed.

Lemma owned_stored w id key :
  owned w id key = true -> is_Some (redis w !! key).
Proof.
  unfold owned, liveEntry. destruct (redis w !! key); [eauto | discriminate].
Qed.

Lemma deleteOwned_run id key count w :
  deleteOwned id key count w
  = if owned w id key
    then (Returned (S count),
          setRedis (setTrace w (trace w ++ [RedisGet key; RedisDel [key]]))
                   (delete key (redis w)))
    else (Returned count, setTrace w (trace w ++ [RedisGet key])).
Proof.
  unfold deleteOwned, owned, bind at 1, clientGet, bind at 1, emit.
  unfold liveEntry. destruct w as [u r s f b c d df sf t]. world_simpl.
  destruct (ownedBy id _).
  - unfold bind, clientDel, bind, emit, ret. world_simpl. simpl foldr.
    rewrite <- app_assoc. reflexivity.
  - reflexivity.
Qed.

(** The [for] loop over the keys of a scan: the keys of the file id
    among them are gone, and counted. *)
Lemma forOfCounting_run id keys count w :
  exists events m count',
    forOfCounting keys count (deleteOwned id) w
    = (Returned count', setRedis (setTrace w (trace w ++ events)) m) /\
    (forall k, m !! k = if bool_decide (k ∈ keys) && owned w id k
                        then None else redis w !! k) /\
    (count' + size m = count + size (redis w))%nat.
Proof.
  revert count w. induction keys as [| a keys IH]; intros count w.
  - exists [], (redis w), count. split; [| split; [| reflexivity]].
    + unfold ret. simpl. rewrite app_nil_r. now destruct w.
    + intros k. reflexivity.
  - simpl forOfCounting. unfold bind at 1. rewrite deleteOwned_run.
    destruct (owned w id a) eqn:Ha.
    + set (w1 := setRedis _ _).
      destruct (IH (S count) w1) as (events & m & count' & Hrun & Hlook & Hsize).
      exists ([RedisGet a; RedisDel [a]] ++ events), m, count'.
      split; [| split].
      * rewrite Hrun. subst w1. world_norm. now rewrite <- app_assoc.
      * intros k. rewrite Hlook.
        change (redis w1) with (delete a (redis w)).
        destruct (decide (k = a)) as [-> | Hne].
        -- rewrite lookup_delete_eq, Ha.
           rewrite (bool_decide_eq_true_2 (a ∈ a :: keys)) by left.
           now destruct (_ && _).
        -- rewrite lookup_delete_ne by congruence.
           rewrite (owned_ext w w1 id k)
             by (try reflexivity; apply lookup_delete_ne; congruence).
           replace (bool_decide (k ∈ a :: keys)) with (bool_decide (k ∈ keys));
             [reflexivity |].
           apply bool_decide_ext. rewrite elem_of_cons. tauto.
      * rewrite Hsize. change (redis w1) with (delete a (redis w)).
        destruct (owned_stored w id a Ha) as [e He].
        rewrite <- (insert_delete_id (redis w) a e He) at 2.
        rewrite map_size_insert_None by apply lookup_delete_eq. lia.
    + set (w1 := setTrace _ _).
      destruct (IH count w1) as (events & m & count' & Hrun & Hlook & Hsize).
      exists ([RedisGet a] ++ events), m, count'.
      split; [| split].
      * rewrite Hrun. subst w1. world_norm. now rewrite <- app_assoc.
      * intros k. rewrite Hlook.
        change (redis w1) with (redis w).
        rewrite (owned_ext w w1 id k) by reflexivity.
        destruct (decide (k = a)) as [-> | Hne].
        -- rewrite Ha, !andb_false_r. reflexivity.
        -- replace (bool_decide (k ∈ a :: keys)) with (bool_decide (k ∈ keys));
             [reflexivity |].
           apply bool_decide_ext. rewrite elem_of_cons. tauto.
      * exact Hsize.
Qed.

(** One turn of the loop of [deleteHashByFileId]. *)
Lemma deleteHashByFileId_turn id cursor count w :
  exists events m count',
    RedisClient.logAndRethrow
      (let* reply := clientScan cursor "*" 100 in
       let* countDeleted' :=
         forOfCounting (snd reply) count (deleteOwned id) in
       ret (fst reply, countDeleted')) w
    = (Returned (if (cursor + 100 <? tableSize)%nat then (cursor + 100)%nat
                 else 0%nat, count'),
       setRedis (setTrace w (trace w ++ events)) m) /\
    (forall k, m !! k
               = if (cursor <=? slotOf k)%nat && (slotOf k <? cursor + 100)%nat
                    && owned w id k
                 then None else redis w !! k) /\
    (count' + size m = count + size (redis w))%nat.
Proof.
  rewrite logAndRethrow_run. unfold bind at 1. rewrite clientScan_run.
  cbv zeta. cbn [fst snd].
  set (w1 := setTrace w _).
  destruct (forOfCounting_run id (scanKeys w cursor 100 "*") count w1)
    as (events & m & count' & Hrun & Hlook & Hsize).
  exists (RedisScan cursor "*" :: events), m, count'.
  split; [| split].
  - unfold bind at 1. rewrite Hrun. unfold ret. subst w1. world_norm.
    now rewrite <- app_assoc.
  - intros k. rewrite Hlook. change (redis w1) with (redis w).
    rewrite (owned_ext w w1 id k) by reflexivity.
    destruct (owned w id k) eqn:Hk; [| now rewrite !andb_false_r].
    rewrite !andb_true_r.
    replace (bool_decide (k ∈ scanKeys w cursor 100 "*"))
      with ((cursor <=? slotOf k)%nat && (slotOf k <? cursor + 100)%nat);
      [reflexivity |].
    symmetry. destruct (_ && _) eqn:Hrange.
    + apply bool_decide_eq_true_2, list_elem_of_In, scanKeys_In.
      split; [now apply (owned_stored w id) |].
      now rewrite Hrange, globMatch_any.
    + apply bool_decide_eq_false_2. rewrite list_elem_of_In.
      intros Hin. apply scanKeys_In in Hin as [_ Hpred].
      rewrite Hrange in Hpred. discriminate.
  - exact Hsize.
Qed.

Lemma deleteHashByFileIdFrom_run fuel id cursor count w :
  (0 < tableSize)%nat ->
  (tableSize <= cursor + 100 * fuel)%nat -> (0 < fuel)%nat ->
  exists keyspace events n,
    deleteHashByFileIdFrom fuel id cursor count w
      = (Returned n, setRedis (setTrace w (trace w ++ events)) keyspace) /\
    (forall k, keyspace !! k
               = if (cursor <=? slotOf k)%nat && owned w id k
                 then None else redis w !! k) /\
    (n + size keyspace = count + size (redis w))%nat.
Proof.
  intros Hsize. revert cursor count w.
  induction fuel as [| fuel IH]; intros cursor count w Hfuel Hpos; [lia |].
  simpl deleteHashByFileIdFrom. unfold bind at 1.
  destruct (deleteHashByFileId_turn id cursor count w)
    as (events & m & count' & -> & Hm & Hcount).
  cbn [fst snd].
  destruct (cursor + 100 <? tableSize)%nat eqn:Hmore.
  - apply Nat.ltb_lt in Hmore.
    replace (cursor + 100 =? 0)%nat with false
      by (symmetry; apply Nat.eqb_neq; lia).
    set (w1 := setRedis _ m).
    destruct (IH (cursor + 100)%nat count' w1)
      as (keyspace & events' & n & Hrun & Hlook & Hn); [lia | lia |].
    exists keyspace, (events ++ events'), n. split; [| split].
    + rewrite Hrun. subst w1. world_norm. now rewrite <- app_assoc.
    + intros k. rewrite Hlook. change (redis w1) with m. rewrite Hm.
      destruct (cursor + 100 <=? slotOf k)%nat eqn:Hhigh.
      * apply Nat.leb_le in Hhigh.
        assert (Hsame : redis w1 !! k = redis w !! k).
        { change (redis w1) with m. rewrite Hm.
          replace (slotOf k <? cursor + 100)%nat with false
            by (symmetry; apply Nat.ltb_ge; lia).
          now rewrite andb_false_r. }
        rewrite (owned_ext w w1 id k Hsame eq_refl).
        replace (slotOf k <? cursor + 100)%nat with false
          by (symmetry; apply Nat.ltb_ge; lia).
        replace (cursor <=? slotOf k)%nat with true
          by (symmetry; apply Nat.leb_le; lia).
        rewrite andb_false_r. reflexivity.
      * apply Nat.leb_gt in Hhigh. cbn [andb].
        replace (slotOf k <? cursor + 100)%nat with true
          by (symmetry; apply Nat.ltb_lt; lia).
        now rewrite andb_true_r.
    + rewrite Hn. change (redis w1) with m. exact Hcount.
  - apply Nat.ltb_ge in Hmore. change (0 =? 0)%nat with true. cbv iota.
    exists m, events, count'. split; [reflexivity |]. split; [| exact Hcount].
    intros k. rewrite Hm. pose proof (slotOf_bound k Hsize) as Hslot.
    replace (slotOf k <? cursor + 100)%nat with true
      by (symmetry; apply Nat.ltb_lt; lia).
    now rewrite andb_true_r.
Qed.
End OwnedFacts.

(** X13.  [deleteHashByFileId], given fuel for a walk through the table,
    returns the number of keys it has deleted, and these are exactly the
    live keys whose value reads [{fileId}_...]: the text before the first
    underscore of the value is the file id.  Every other key is left as it
    was, so a file id that holds an underscore itself owns no key. *)
Theorem deleteHashByFileId_deletes_owned_keys `{Env} (fuel : nat)
    (specifiedFileId : string) (w : World) :
  (0 < tableSize)%nat -> (tableSize <= 100 * fuel)%nat ->
  let run := deleteHashByFileId fuel specifiedFileId w in
  exists countDeleted,
    fst run = Returned countDeleted /\
    (forall key,
        redis (snd run) !! key
        = if owned w specifiedFileId key then None else redis w !! key) /\
    (countDeleted + size (redis (snd run)) = size (redis w))%nat /\
    (forall key,
        owned w specifiedFileId key = true <->
        exists e rest,
          liveEntry w key = Some e /\
          value e = specifiedFileId +:+ "_" +:+ rest /\
          Js.includes specifiedFileId "_" = false).
Proof.
  intros Hsize Hfuel run. subst run. unfold deleteHashByFileId.
  destruct (deleteHashByFileIdFrom_run fuel specifiedFileId 0 0 w)
    as (keyspace & events & n & -> & Hlook & Hn); [lia | lia | lia |].
  exists n. cbn [fst snd]. split; [reflexivity |].
  split; [exact Hlook |]. split; [exact Hn |].
  intros key. unfold owned. rewrite ownedBy_iff. split.
  - intros (rest & Hvalue & Hid).
    destruct (liveEntry w key) as [e |]; [| discriminate].
    injection Hvalue as Hvalue. eauto.
  - intros (e & rest & -> & Hvalue & Hid). exists rest. cbn [option_map].
    now rewrite Hvalue.
Qed.

(** ** [S3Service] and [ProfileController] *)

Section S3Runs.
Context `{Env}.

Lemma _generateS3Key_run type id filename w :
  S3Service._generateS3Key type id filename w
  = if String.eqb type "user" || String.eqb type "room"
    then (Returned (type +:+ "/" +:+ id +:+ "/" +:+ filename), w)
    else (Thrown (Js.newError ("[S3Service] Invalid type: " +:+ type)), w).
Proof.
  unfold S3Service._generateS3Key.
  destruct (String.eqb type "user") eqn:Huser.
  - apply String.eqb_eq in Huser as ->. reflexivity.
  - destruct (String.eqb type "room") eqn:Hroom; [| reflexivity].
    apply String.eqb_eq in Hroom as ->. reflexivity.
Qed.

(** [S3Service.uploadFile], case by case. *)
Lemma s3_uploadFile_run tempFile name filename type id w :
  let key := type +:+ "/" +:+ id +:+ "/" +:+ filename in
  S3Service.uploadFile tempFile name filename type id w
  = if String.eqb type "user" || String.eqb type "room"
    then
      match uploads w !! tempFile with
      | None =>
          (Thrown (Js.newError ("[S3Service] File not found: " +:+ tempFile)),
           setTrace w (trace w ++ [FsExists tempFile]))
      | Some data =>
          if s3Fails w
          then (Thrown (Js.mkError "S3ServiceException" "put failed"),
                setTrace w (trace w ++ [FsExists tempFile; S3Put key]))
          else (Returned ("https://" +:+ AWS_BUCKET_NAME +:+ ".s3."
                            +:+ AWS_REGION +:+ ".amazonaws.com/" +:+ key),
                setBucket
                  (setTrace w (trace w ++ [FsExists tempFile; S3Put key]))
                  (mkObject key data name :: bucket w))
      end
    else (Thrown (Js.newError ("[S3Service] Invalid type: " +:+ type)), w).
Proof.
  intros key. unfold S3Service.uploadFile, bind at 1.
  rewrite _generateS3Key_run. fold key.
  destruct (String.eqb type "user" || String.eqb type "room");
    [| reflexivity].
  unfold S3Service.existsSync, S3Service.putObject, tryCatch, bind, emit, ret,
    throw.
  destruct w as [u r s f b c d df sf t]. world_simpl.
  destruct (u !! tempFile) as [data |] eqn:Hdata.
  - rewrite bool_decide_eq_true_2 by eauto. cbn [negb].
    world_simpl. rewrite Hdata. destruct sf.
    + rewrite <- !app_assoc. reflexivity.
    + cbn [default from_option]. rewrite <- !app_assoc. reflexivity.
  - rewrite bool_decide_eq_false_2 by (intros [? ?]; discriminate).
    reflexivity.
Qed.
End S3Runs.

Section FileSizeFacts.

Lemma Qle_bool_1024 (b : Z) (d : positive) :
  Qle_bool 1024 (b # d) = (1024 * Z.pos d <=? b)%Z.
Proof. unfold Qle_bool. cbn [Qnum Qden]. f_equal. lia. Qed.

(** [toFixed(2)] of a rational that is not negative, by its numerator
    and denominator. *)
Lemma toFixed2_nonneg (b : Z) (d : positive) :
  (0 <= b)%Z ->
  S3Files.toFixed2 (b # d)
  = let n := ((200 * b + Z.pos d) / (2 * Z.pos d))%Z in
    S3Files.decimal (n / 100) +:+ "." +:+
    S3Files.decimal (n mod 100 / 10) +:+ S3Files.decimal (n mod 10).
Proof.
  intros Hb. unfold S3Files.toFixed2.
  assert (Hsign : Qle_bool 0 (b # d) = true).
  { unfold Qle_bool. cbn [Qnum Qden]. apply Z.leb_le. lia. }
  rewrite Hsign.
  assert (Hn : Qfloor (Qabs (b # d) * 100 + (1 # 2))%Q
               = ((200 * b + Z.pos d) / (2 * Z.pos d))%Z).
  { unfold Qabs, Qmult, Qplus, Qfloor. cbn [Qnum Qden].
    rewrite (Z.abs_eq b Hb). f_equal; lia. }
  rewrite Hn. reflexivity.
Qed.

(** Rounding to the nearest hundredth, halves upwards. *)
Lemma nearest_hundredth (b D : Z) :
  (0 < D)%Z ->
  let n := ((200 * b + D) / (2 * D))%Z in
  (2 * D * n <= 200 * b + D < 2 * D * (n + 1))%Z.
Proof.
  intros HD n. subst n.
  pose proof (Z.div_mod (200 * b + D) (2 * D)) as Hdm.
  pose proof (Z.mod_pos_bound (200 * b + D) (2 * D)) as Hbound.
  lia.
Qed.
End FileSizeFacts.

Section FileListFacts.
Context `{Env} `{S3Replies}.

Lemma split_whole sep f :
  Js.includes f (String sep EmptyString) = false ->
  S3Files.split sep f = [f].
Proof.
  induction f as [| c f IH]; intros Hnone; [reflexivity |].
  rewrite includes_one_cons in Hnone.
  apply orb_false_iff in Hnone as [Hc Hf].
  simpl. rewrite Hc, (IH Hf). reflexivity.
Qed.

Lemma split_append sep p f :
  exists first others,
    S3Files.split sep (p +:+ String sep f)
    = (first :: others) ++ S3Files.split sep f.
Proof.
  induction p as [| c p (first & others & IH)].
  - exists EmptyString, []. simpl. now rewrite Ascii.eqb_refl.
  - rewrite append_cons. simpl S3Files.split. rewrite IH.
    destruct (Ascii.eqb c sep).
    + exists EmptyString, (first :: others). reflexivity.
    + exists (String c first), others. reflexivity.
Qed.

Lemma last_app_cons {A} (l : list A) (x : A) (m : list A) (d : A) :
  List.last (l ++ x :: m) d = List.last (x :: m) d.
Proof.
  induction l as [| a l IH]; [reflexivity |].
  rewrite <- app_comm_cons.
  change (List.last (a :: l ++ x :: m) d)
    with (match l ++ x :: m with
          | [] => a
          | _ :: _ => List.last (l ++ x :: m) d
          end).
  destruct (l ++ x :: m) eqn:Hl; [now destruct l | exact IH].
Qed.

Lemma lastSegment_append p f :
  Js.includes f "/" = false ->
  S3Files.lastSegment (p +:+ "/" +:+ f) = f.
Proof.
  intros Hnone. unfold S3Files.lastSegment.
  change ("/" +:+ f) with (String "/" f).
  destruct (split_append "/" p f) as (first & others & ->).
  rewrite (split_whole "/" f Hnone). now rewrite last_app_cons.
Qed.

(** The promises of [getFileList] when every object has its metadata,
    and when one has not. *)
Lemma describe_all contents :
  S3Files.rejections (map S3Files.describe contents) = [] ->
  Forall2
    (fun item entry =>
       headObject (itemKey item) = inr (Some (entryOriginalName entry)) /\
       entryOriginalName entry <> EmptyString /\
       entryFilename entry = S3Files.lastSegment (itemKey item) /\
       entrySize entry = S3Files._formatFileSize (itemSize item) /\
       entryLastModified entry = itemLastModified item)
    contents (S3Files.fulfilments (map S3Files.describe contents)).
Proof.
  induction contents as [| item contents IH]; intros Hall; [constructor |].
  simpl in *. unfold S3Files.describe at 1 in Hall.
  unfold S3Files.describe at 1.
  destruct (headObject (itemKey item)) as [err | [name |]] eqn:Hhead;
    try discriminate.
  destruct name as [| c name]; [discriminate |].
  cbn [Js.truthy negb] in *. constructor; [| now apply IH].
  cbn [entryOriginalName entryFilename entrySize entryLastModified
       Js.toString].
  split; [exact Hhead |]. split; [discriminate |]. auto.
Qed.

Lemma rejections_In item contents :
  In item contents ->
  (forall name, headObject (itemKey item) = inr (Some name) ->
                name = EmptyString) ->
  S3Files.rejections (map S3Files.describe contents) <> [].
Proof.
  intros Hin Hbad. induction contents as [| a contents IH]; [contradiction |].
  simpl. destruct Hin as [-> | Hin].
  - unfold S3Files.describe at 1.
    destruct (headObject (itemKey item)) as [err | [name |]];
      [discriminate | | discriminate].
    rewrite (Hbad name eq_refl). discriminate.
  - destruct (S3Files.describe a); [discriminate | now apply IH].
Qed.

Lemma getFileList_run id w :
  id <> EmptyString ->
  S3Files.getFileList (Some id) w
  = match listObjectsV2 ("user/" +:+ id +:+ "/") with
    | inl err => (Thrown err, w)
    | inr None => (Returned [], w)
    | inr (Some contents) =>
        match S3Files.rejections (map S3Files.describe contents) with
        | [] => (Returned (S3Files.fulfilments (map S3Files.describe contents)),
                 w)
        | err :: others => (Thrown (firstRejection err others), w)
        end
    end.
Proof.
  intros Hid. unfold S3Files.getFileList.
  destruct id as [| c id]; [contradiction |].
  cbn [Js.truthy negb Js.toString]. unfold tryCatch.
  destruct (listObjectsV2 _) as [err | [[| item contents] |]];
    try reflexivity.
  unfold S3Files.promiseAll.
  destruct (S3Files.rejections _); reflexivity.
Qed.

(** [getFileList] answers a list or throws, and leaves the world as it
    is. *)
Lemma getFileList_outcome userId w :
  (exists entries, S3Files.getFileList userId w = (Returned entries, w)) \/
  (exists e, S3Files.getFileList userId w = (Thrown e, w)).
Proof.
  destruct userId as [[| c id] |]; try (right; eexists; reflexivity).
  rewrite getFileList_run by discriminate.
  destruct (listObjectsV2 _) as [err | [contents |]]; eauto.
  destruct (S3Files.rejections _); eauto.
Qed.
End FileListFacts.

(** X14.  [S3Service.uploadFile] puts an object only when all is well.
    It answers a location exactly when the type is [user] or [room], the
    file exists and S3 accepts the put; the bucket then holds one more
    object, under [{type}/{id}/{filename}], with the content of the file
    and the given name as its metadata, and the location is the URL of
    that key.  In every other case it throws and the bucket is as it was:
    a type that is neither is refused before the file is looked at. *)
Theorem s3_uploadFile_puts_valid_files_only `{Env}
    (tempFile name filename type id : string) (w : World) :
  let run := S3Service.uploadFile tempFile name filename type id w in
  let key := type +:+ "/" +:+ id +:+ "/" +:+ filename in
  let accepted :=
    (type = "user" \/ type = "room") /\
    is_Some (uploads w !! tempFile) /\ s3Fails w = false in
  (accepted ->
   fst run = Returned ("https://" +:+ AWS_BUCKET_NAME +:+ ".s3." +:+ AWS_REGION
                         +:+ ".amazonaws.com/" +:+ key) /\
   exists data,
     uploads w !! tempFile = Some data /\
     bucket (snd run) = mkObject key data name :: bucket w) /\
  (~ accepted -> (exists e, fst run = Thrown e) /\ bucket (snd run) = bucket w) /\
  (type <> "user" -> type <> "room" ->
   run = (Thrown (Js.newError ("[S3Service] Invalid type: " +:+ type)), w)) /\
  (type = "user" \/ type = "room" -> uploads w !! tempFile = None ->
   fst run = Thrown (Js.newError ("[S3Service] File not found: " +:+ tempFile))).
Proof.
  intros run key accepted. subst run accepted.
  rewrite s3_uploadFile_run. fold key.
  destruct (String.eqb type "user") eqn:Huser;
    [| destruct (String.eqb type "room") eqn:Hroom].
  - apply String.eqb_eq in Huser. cbn [orb].
    destruct (uploads w !! tempFile) as [data |] eqn:Hdata;
      [destruct (s3Fails w) eqn:Hs3 |].
    + split; [intros (_ & _ & ?); discriminate |].
      split; [intros _; split; [eauto | reflexivity] |].
      split; [congruence | discriminate].
    + split; [intros _; split; [reflexivity | eauto] |].
      split; [intros Hnot; exfalso; apply Hnot; eauto |].
      split; [congruence | discriminate].
    + split; [intros (_ & [? ?] & _); discriminate |].
      split; [intros _; split; [eauto | reflexivity] |].
      split; [congruence | reflexivity].
  - apply String.eqb_eq in Hroom. cbn [orb].
    destruct (uploads w !! tempFile) as [data |] eqn:Hdata;
      [destruct (s3Fails w) eqn:Hs3 |].
    + split; [intros (_ & _ & ?); discriminate |].
      split; [intros _; split; [eauto | reflexivity] |].
      split; [congruence | discriminate].
    + split; [intros _; split; [reflexivity | eauto] |].
      split; [intros Hnot; exfalso; apply Hnot; eauto |].
      split; [congruence | discriminate].
    + split; [intros (_ & [? ?] & _); discriminate |].
      split; [intros _; split; [eauto | reflexivity] |].
      split; [congruence | reflexivity].
  - apply String.eqb_neq in Huser, Hroom. cbn [orb].
    split; [intros ([? | ?] & _); contradiction |].
    split; [intros _; split; [eauto | reflexivity] |].
    split; [reflexivity | intros [? | ?]; contradiction].
Qed.

(** X15.  [_formatFileSize] shows a size in the largest unit, from Bytes
    to TB, that it reaches: Bytes below 1024, and a size of at least
    [1024^k] and below [1024^(k+1)] in the [k]-th unit, everything from
    [1024^4] on in TB.  The number shown is the size in that unit rounded
    to the nearest hundredth, a half upwards, with two decimals; a size
    below 1024 is shown whole, followed by [.00 Bytes]. *)
Theorem _formatFileSize_picks_unit_and_rounds (bytes : Z) :
  (0 <= bytes)%Z ->
  exists (k : nat) (n : Z),
    S3Files._formatFileSize bytes
    = S3Files.decimal (n / 100) +:+ "." +:+
      S3Files.decimal (n mod 100 / 10) +:+ S3Files.decimal (n mod 10) +:+
      " " +:+ nth k S3Files.units EmptyString /\
    (k <= 4)%nat /\
    (k = 0%nat \/ 1024 ^ Z.of_nat k <= bytes)%Z /\
    (k = 4%nat \/ bytes < 1024 ^ (Z.of_nat k + 1))%Z /\
    (2 * 1024 ^ Z.of_nat k * n <= 200 * bytes + 1024 ^ Z.of_nat k
     < 2 * 1024 ^ Z.of_nat k * (n + 1))%Z /\
    (bytes < 1024 ->
     S3Files._formatFileSize bytes = S3Files.decimal bytes +:+ ".00 Bytes")%Z.
Proof.
  intros Hbytes. unfold S3Files._formatFileSize, inject_Z.
  cbn [S3Files.scale S3Files.units length Nat.sub Nat.ltb Nat.leb andb].
  rewrite Qle_bool_1024. rewrite andb_true_r.
  destruct (1024 * 1 <=? bytes)%Z eqn:H1;
    [apply Z.leb_le in H1 | apply Z.leb_gt in H1].
  2:{ cbn [fst snd nth]. rewrite (toFixed2_nonneg bytes 1 Hbytes). cbv zeta.
      exists 0%nat, ((200 * bytes + 1) / (2 * 1))%Z.
      split; [now rewrite <- !append_assoc |].
      split; [lia |]. split; [now left |]. split; [right; lia |].
      split; [apply (nearest_hundredth bytes 1); lia |].
      intros _.
      replace ((200 * bytes + 1) / (2 * 1))%Z with (100 * bytes)%Z
        by (apply Z.div_unique with (r := 1%Z); lia).
      replace (100 * bytes / 100)%Z with bytes
        by (apply Z.div_unique with (r := 0%Z); lia).
      replace (100 * bytes mod 100)%Z with 0%Z
        by (apply Z.mod_unique with (q := bytes); lia).
      replace (100 * bytes mod 10)%Z with 0%Z
        by (apply Z.mod_unique with (q := (10 * bytes)%Z); lia).
      rewrite !append_assoc. reflexivity. }
  change ((bytes # 1) / 1024)%Q with (bytes * 1 # 1 * 1024)%Q.
  rewrite Qle_bool_1024, andb_true_r.
  destruct (1024 * Z.pos (1 * 1024) <=? bytes * 1)%Z eqn:H2;
    [apply Z.leb_le in H2 | apply Z.leb_gt in H2].
  2:{ cbn [fst snd nth].
      rewrite (toFixed2_nonneg (bytes * 1) (1 * 1024)) by lia. cbv zeta.
      eexists 1%nat, _.
      split; [now rewrite <- !append_assoc |].
      split; [lia |]. split; [right; lia |]. split; [right; lia |].
      split; [| lia].
      pose proof (nearest_hundredth (bytes * 1) (Z.pos (1 * 1024))
                    ltac:(lia)) as Hn.
      cbv zeta in Hn.
      change (1024 ^ Z.of_nat 1)%Z with 1024%Z.
      change (Z.pos (1 * 1024)) with 1024%Z in *. lia. }
  change ((bytes * 1 # 1 * 1024) / 1024)%Q
    with (bytes * 1 * 1 # 1 * 1024 * 1024)%Q.
  rewrite Qle_bool_1024, andb_true_r.
  destruct (1024 * Z.pos (1 * 1024 * 1024) <=? bytes * 1 * 1)%Z eqn:H3;
    [apply Z.leb_le in H3 | apply Z.leb_gt in H3].
  2:{ cbn [fst snd nth].
      rewrite (toFixed2_nonneg (bytes * 1 * 1) (1 * 1024 * 1024)) by lia.
      cbv zeta. eexists 2%nat, _.
      split; [now rewrite <- !append_assoc |].
      change (Z.pos (1 * 1024)) with 1024%Z in *.
      change (Z.pos (1 * 1024 * 1024)) with 1048576%Z in *.
      change (1024 ^ Z.of_nat 2)%Z with 1048576%Z.
      change (1024 ^ (Z.of_nat 2 + 1))%Z with 1073741824%Z.
      split; [lia |]. split; [right; lia |]. split; [right; lia |].
      split; [| lia].
      pose proof (nearest_hundredth (bytes * 1 * 1) 1048576 ltac:(lia)) as Hn.
      cbv zeta in Hn. lia. }
  change ((bytes * 1 * 1 # 1 * 1024 * 1024) / 1024)%Q
    with (bytes * 1 * 1 * 1 # 1 * 1024 * 1024 * 1024)%Q.
  rewrite Qle_bool_1024, andb_true_r.
  change (Z.pos (1 * 1024)) with 1024%Z in *.
  change (Z.pos (1 * 1024 * 1024)) with 1048576%Z in *.
  destruct (1024 * Z.pos (1 * 1024 * 1024 * 1024) <=? bytes * 1 * 1 * 1)%Z
    eqn:H4; [apply Z.leb_le in H4 | apply Z.leb_gt in H4].
  2:{ cbn [fst snd nth].
      rewrite (toFixed2_nonneg (bytes * 1 * 1 * 1) (1 * 1024 * 1024 * 1024))
        by lia.
      cbv zeta. eexists 3%nat, _.
      split; [now rewrite <- !append_assoc |].
      change (Z.pos (1 * 1024 * 1024 * 1024)) with 1073741824%Z in *.
      change (1024 ^ Z.of_nat 3)%Z with 1073741824%Z.
      change (1024 ^ (Z.of_nat 3 + 1))%Z with 1099511627776%Z.
      split; [lia |]. split; [right; lia |]. split; [right; lia |].
      split; [| lia].
      pose proof (nearest_hundredth (bytes * 1 * 1 * 1) 1073741824
                    ltac:(lia)) as Hn.
      cbv zeta in Hn. lia. }
  change ((bytes * 1 * 1 * 1 # 1 * 1024 * 1024 * 1024) / 1024)%Q
    with (bytes * 1 * 1 * 1 * 1 # 1 * 1024 * 1024 * 1024 * 1024)%Q.
  cbn [fst snd nth].
  rewrite (toFixed2_nonneg (bytes * 1 * 1 * 1 * 1)
             (1 * 1024 * 1024 * 1024 * 1024)) by lia.
  cbv zeta. eexists 4%nat, _.
  split; [now rewrite <- !append_assoc |].
  change (Z.pos (1 * 1024 * 1024 * 1024)) with 1073741824%Z in *.
  change (Z.pos (1 * 1024 * 1024 * 1024 * 1024)) with 1099511627776%Z in *.
  change (1024 ^ Z.of_nat 4)%Z with 1099511627776%Z.
  split; [lia |]. split; [right; lia |]. split; [now left |].
  split; [| lia].
  pose proof (nearest_hundredth (bytes * 1 * 1 * 1 * 1) 1099511627776
                ltac:(lia)) as Hn.
  cbv zeta in Hn. lia.
Qed.

(** X16.  [getFileList] asks S3 for the objects under [user/{userId}/]
    and answers one entry per object listed, in the order listed: the
    [originalname] of its metadata, the last segment of its key, its size
    as [_formatFileSize] shows it, and its date.  A reply without
    [Contents], or with none, gives the empty list.  One object without
    that metadata makes the whole call fail, with the error of one of the
    objects that fail; without a user id the call fails before S3 is
    asked. *)
Theorem getFileList_lists_every_object_or_fails `{Env} `{S3Replies}
    (userId : option string) (w : World) :
  let run := S3Files.getFileList userId w in
  snd run = w /\
  (Js.truthy userId = false ->
   fst run = Thrown (Js.newError "User ID is required to fetch the file list")) /\
  (forall id, userId = Some id -> id <> EmptyString ->
     match listObjectsV2 ("user/" +:+ id +:+ "/") with
     | inl err => fst run = Thrown err
     | inr None => fst run = Returned []
     | inr (Some contents) =>
         (forall entries, fst run = Returned entries ->
            Forall2
              (fun item entry =>
                 headObject (itemKey item)
                   = inr (Some (entryOriginalName entry)) /\
                 entryOriginalName entry <> EmptyString /\
                 entryFilename entry = S3Files.lastSegment (itemKey item) /\
                 entrySize entry = S3Files._formatFileSize (itemSize item) /\
                 entryLastModified entry = itemLastModified item)
              contents entries) /\
         (S3Files.rejections (map S3Files.describe contents) = [] ->
          exists entries, fst run = Returned entries) /\
         (forall item,
             In item contents ->
             (forall name, headObject (itemKey item) = inr (Some name) ->
                           name = EmptyString) ->
             exists e, fst run = Thrown e /\
                       In e (S3Files.rejections
                               (map S3Files.describe contents)))
     end).
Proof.
  intros run. subst run. split; [| split].
  - destruct (getFileList_outcome userId w) as [[entries ->] | [e ->]];
      reflexivity.
  - destruct userId as [[| c id] |]; try discriminate; reflexivity.
  - intros id -> Hid. rewrite (getFileList_run id w Hid).
    destruct (listObjectsV2 _) as [err | [contents |]]; try reflexivity.
    destruct (S3Files.rejections (map S3Files.describe contents))
      as [| err others] eqn:Hrejections; cbn [fst].
    + split; [| split].
      * intros entries [= <-]. now apply describe_all.
      * eauto.
      * intros item Hin Hbad. exfalso.
        now apply (rejections_In item contents Hin Hbad).
    + split; [discriminate |]. split; [discriminate |].
      intros item _ _. eexists. split; [reflexivity |].
      apply firstRejection_In.
Qed.

(** X17.  The key under which a blob is staged for a user lies under the
    prefix [getFileList] asks for that user, and the file name the list
    shows for it is the name it was staged with (a blob name holds no
    slash).  The key of a blob staged for a room lies under no user
    prefix. *)
Theorem staged_key_is_listed_under_its_name `{Env} (id filename : string)
    (w : World) :
  Js.includes filename "/" = false ->
  (exists key,
      S3Service._generateS3Key "user" id filename w = (Returned key, w) /\
      Js.startsWith key ("user/" +:+ id +:+ "/") = true /\
      S3Files.lastSegment key = filename) /\
  (exists key,
      S3Service._generateS3Key "room" id filename w = (Returned key, w) /\
      Js.startsWith key "user/" = false /\
      S3Files.lastSegment key = filename).
Proof.
  intros Hnone. split.
  - exists ("user/" +:+ id +:+ "/" +:+ filename). split; [reflexivity |].
    split.
    + rewrite <- (append_assoc id "/" filename), <- (append_assoc "user/").
      apply prefix_append.
    + rewrite <- (append_assoc "user/" id).
      now apply lastSegment_append.
  - exists ("room/" +:+ id +:+ "/" +:+ filename). split; [reflexivity |].
    split; [reflexivity |].
    rewrite <- (append_assoc "room/" id).
    now apply lastSegment_append.
Qed.

(** X18.  [getStagingFile] never answers a list of files.  It calls
    [getFileList], which answers an array, and reads the properties
    [files] and [lastKey] of it, which an array does not have: reading
    [files.length] throws, and the handler answers 500, as it does when
    [getFileList] fails.  So the answer is 400 when [type] or [id] is
    missing, and 500 otherwise; never 200 nor 404. *)
Theorem getStagingFile_never_lists `{Env} `{S3Replies}
    (type id lastKey : option string) (w : World) :
  let run := ProfileController.getStagingFile type id lastKey w in
  exists response,
    run = (Returned response, w) /\
    (status response = 400 \/ status response = 500)%Z /\
    (status response = 400%Z <-> Js.truthy type = false \/ Js.truthy id = false) /\
    Js.getField
      (match body response with Js.JObj fields => fields | _ => [] end) "file"
    = None.
Proof.
  intros run. subst run. unfold ProfileController.getStagingFile.
  destruct (Js.truthy type) eqn:Htype; [destruct (Js.truthy id) eqn:Hid |];
    cbn [negb orb].
  - unfold tryCatch, bind at 1.
    destruct (getFileList_outcome type w) as [[entries ->] | [e ->]].
    + cbn [ProfileController.getProperty]. cbn [String.eqb Ascii.eqb Bool.eqb].
      unfold bind, ProfileController.lengthOf, throw, ret.
      eexists. split; [reflexivity |]. cbn [status body].
      split; [now right |]. split; [| reflexivity].
      split; [discriminate | intros [? | ?]; discriminate].
    + unfold ret. eexists. split; [reflexivity |]. cbn [status body].
      split; [now right |]. split; [| reflexivity].
      split; [discriminate | intros [? | ?]; discriminate].
  - eexists. split; [reflexivity |]. cbn [status body].
    split; [now left |]. split; [| reflexivity]. split; auto.
  - eexists. split; [reflexivity |]. cbn [status body].
    split; [now left |]. split; [| reflexivity]. split; auto.
Qed.

(** X19.  [getPresignedUrl] always answers: 400 when [userId] or
    [filename] is missing or empty; otherwise it has the URL of the key
    [user/{userId}/{filename}] signed for one day, and answers 200 with
    that URL, or 500 with the message of the error when signing fails.
    The type being fixed to [user], the key is never refused. *)
Theorem getPresignedUrl_signs_the_user_key `{Env} `{S3Replies}
    (userId filename : option string) (w : World) :
  let run := ProfileController.getPresignedUrl userId filename w in
  (Js.truthy userId = false \/ Js.truthy filename = false ->
   run = (Returned (mkResponse 400
                      (Js.JObj [ ("message",
                                  Js.JStr "Filename and userId are required") ])),
          w)) /\
  (forall u f,
      userId = Some u -> filename = Some f ->
      u <> EmptyString -> f <> EmptyString ->
      run = (Returned
               match getSignedUrl ("user/" +:+ u +:+ "/" +:+ f) 86400 with
               | inr url =>
                   mkResponse 200
                     (Js.JObj [ ("message",
                                 Js.JStr "Presigned URL generated successfully");
                                ("url", Js.JStr url) ])
               | inl err =>
                   mkResponse 500
                     (Js.JObj [ ("message",
                                 Js.JStr "Failed to generate presigned URL");
                                ("error", Js.JStr (Js.message err)) ])
               end,
             w)).
Proof.
  intros run. subst run. unfold ProfileController.getPresignedUrl. split.
  - intros Hmissing.
    assert (Hor : negb (Js.truthy userId) || negb (Js.truthy filename) = true)
      by (destruct Hmissing as [-> | ->]; [reflexivity | apply orb_true_r]).
    now rewrite Hor.
  - intros u f -> -> Hu Hf.
    destruct u as [| c u]; [contradiction |].
    destruct f as [| d f]; [contradiction |].
    cbn [Js.truthy negb orb Js.toString].
    unfold tryCatch, bind at 1, S3Files.generatePresignedUrl, bind at 1.
    rewrite _generateS3Key_run. cbn [String.eqb Ascii.eqb Bool.eqb orb].
    unfold tryCatch.
    change (60 * 60 * 24 * 1)%Z with 86400%Z.
    destruct (getSignedUrl _ 86400) as [err | url]; reflexivity.
Qed.

(** ** What the operations leave alone, and the store under any requests *)

Section Frames.
Context `{Env}.
Context {X : Type} (part : World -> X).

Lemma keeps_ret {A} (a : A) : keeps part (ret a).
Proof. intros w. reflexivity. Qed.

Lemma keeps_throw {A} (e : Js.Error) : keeps part (throw (A := A) e).
Proof. intros w. reflexivity. Qed.

Lemma keeps_bind {A B} (c : Task A) (k : A -> Task B) :
  keeps part c -> (forall a, keeps part (k a)) -> keeps part (bind c k).
Proof.
  intros Hc Hk w. unfold bind. specialize (Hc w).
  destruct (c w) as [[a | e |] w']; cbn [snd] in *;
    [rewrite Hk | |]; exact Hc.
Qed.

Lemma keeps_tryCatch {A} (c : Task A) (handler : Js.Error -> Task A) :
  keeps part c -> (forall e, keeps part (handler e)) ->
  keeps part (tryCatch c handler).
Proof.
  intros Hc Hh w. unfold tryCatch. specialize (Hc w).
  destruct (c w) as [[a | e |] w']; cbn [snd] in *;
    [| rewrite Hh |]; exact Hc.
Qed.


Lemma keeps_logAndRethrow {A} (c : Task A) :
  keeps part c -> keeps part (RedisClient.logAndRethrow c).
Proof.
  intros Hc. unfold RedisClient.logAndRethrow.
  apply keeps_tryCatch; [exact Hc | intros e; apply keeps_throw].
Qed.
End Frames.

Section RedisFrames.
Context `{Env}.
Context {X : Type} (part : World -> X).
Hypothesis part_setTrace : forall w t, part (setTrace w t) = part w.
Hypothesis part_setRedis : forall w r, part (setRedis w r) = part w.

Lemma keeps_emit e : keeps part (emit e).
Proof. intros w. apply part_setTrace. Qed.

Lemma keeps_connect : keeps part RedisClient.connect.
Proof. apply keeps_logAndRethrow, keeps_emit. Qed.

Lemma keeps_clientGet key : keeps part (clientGet key).
Proof.
  unfold clientGet. apply keeps_bind; [apply keeps_emit |].
  intros _ w. reflexivity.
Qed.



Lemma keeps_get key : keeps part (RedisClient.get key).
Proof. apply keeps_logAndRethrow, keeps_clientGet. Qed.




(** [download] but for its put on S3. *)
Lemma keeps_localDownload file fileId :
  keeps part (InternetFileService._localDownload file fileId).
Proof.
  unfold InternetFileService._localDownload.
  apply keeps_bind.
  { unfold InternetFileService.openStream.
    apply keeps_bind; [apply keeps_emit |]. intros _ w.
    destruct (uploads w !! file); reflexivity. }
  intros stream. apply keeps_bind; [apply keeps_connect |].
  intros _. apply keeps_bind; [apply keeps_get | intros ?; apply keeps_ret].
Qed.

Lemma keeps_readdir : keeps part InternetFileService.readdir.
Proof.
  unfold InternetFileService.readdir.
  apply keeps_bind; [apply keeps_emit |]. intros _ w. reflexivity.
Qed.
End RedisFrames.

Section BucketFrames.
Context `{Env}.
Context {X : Type} (part : World -> X).
Hypothesis part_setTrace : forall w t, part (setTrace w t) = part w.
Hypothesis part_setRedis : forall w r, part (setRedis w r) = part w.
Hypothesis part_setBucket : forall w b, part (setBucket w b) = part w.

Lemma keeps_s3_uploadFile tempFile name filename type id :
  keeps part (S3Service.uploadFile tempFile name filename type id).
Proof.
  intros w. rewrite s3_uploadFile_run. cbv zeta.
  destruct (_ || _); [| reflexivity].
  destruct (uploads w !! tempFile); [destruct (s3Fails w) |]; cbn [snd];
    rewrite ?part_setBucket; apply part_setTrace.
Qed.

Lemma keeps_download way fileId type id :
  keeps part (InternetFileService.download way fileId type id).
Proof.
  unfold InternetFileService.download.
  apply keeps_bind; [now apply keeps_connect |].
  intros _. apply keeps_bind; [now apply keeps_get |].
  intros fileHash. apply keeps_bind; [now apply keeps_readdir |].
  intros files. cbv zeta.
  destruct (negb _); [apply keeps_throw |].
  destruct (String.eqb way "local"); [now apply keeps_localDownload |].
  destruct (String.eqb way "staging-area").
  - destruct (_ || _); [apply keeps_throw |].
    unfold InternetFileService._stagingAreaDownload.
    apply keeps_bind; [now apply keeps_connect |].
    intros _. apply keeps_bind; [now apply keeps_get |].
    intros originalFilename. cbv zeta.
    apply keeps_bind; [apply keeps_s3_uploadFile |].
    intros location. apply keeps_ret.
  - destruct (String.eqb way "google-cloud");
      [apply keeps_ret | apply keeps_throw].
Qed.
End BucketFrames.

Section StoreOutcomes.
Context `{Env}.




(** Whatever becomes of an upload, the directory and the filter are in
    step afterwards if they were before. *)
Lemma uploadFile_keeps_Consistent file w :
  hexDigests -> Consistent w ->
  (forall f, file = Some f -> collisionFree w (buffer f)) ->
  Consistent (snd (InternetFileService.uploadFile file w)).
Proof.
  intros Hhex Hcons Hfree. destruct file as [f |]; [| exact Hcons].
  destruct (decodeURIComponent (originalname f)) as [name |] eqn:Hname.
  - rewrite (uploadFile_run f name w Hname).
    destruct (CountingBloomFilter.has hashIndex (bloomFilter w) (buffer f))
      eqn:Hknown; [| destruct (diskFails w)]; cbn [snd].
    + now apply (Consistent_frame w).
    + now apply (Consistent_frame w).
    + apply (Consistent_write w _ (buffer f) (extname name)); auto.
  - rewrite (uploadFile_undecodable_run f w Hname).
    now apply (Consistent_frame w).
Qed.

End StoreOutcomes.

Section RequestFacts.
Context `{Env}.




End RequestFacts.

(** X20.  A download reads: whatever its way and its outcome, it leaves
    the directory, the Redis keyspace, the filter and the snapshot as they
    were.  The bucket changes only when a [staging-area] download returns,
    by the one object put. *)
Theorem download_changes_nothing_but_the_bucket `{Env} (way fileId : string)
    (type id : option string) (w : World) :
  let run := InternetFileService.download way fileId type id w in
  uploads (snd run) = uploads w /\ redis (snd run) = redis w /\
  bloomFilter (snd run) = bloomFilter w /\ snapshot (snd run) = snapshot w /\
  (bucket (snd run) = bucket w \/
   way = "staging-area" /\
   exists name location object,
     fst run = Returned (StagingAreaDownload fileId name location) /\
     bucket (snd run) = object :: bucket w).
Proof.
  intros run. subst run.
  split; [now apply (keeps_download uploads) |].
  split; [now apply (keeps_download redis) |].
  split; [now apply (keeps_download bloomFilter) |].
  split; [now apply (keeps_download snapshot) |].
  remember (InternetFileService.download way fileId type id w) as run
    eqn:Hrun.
  rewrite download_run in Hrun. cbv zeta in Hrun.
  destruct (negb _); [subst run; now left |].
  destruct (String.eqb way "local").
  { subst run. left. etransitivity;
      [now apply (keeps_localDownload bucket) | reflexivity]. }
  destruct (String.eqb way "staging-area") eqn:Hway.
  - apply String.eqb_eq in Hway.
    destruct (_ || _); [subst run; now left |].
    unfold InternetFileService._stagingAreaDownload, bind at 1 in Hrun.
    rewrite connect_run in Hrun. unfold bind at 1 in Hrun.
    rewrite get_run in Hrun. unfold bind at 1 in Hrun.
    rewrite s3_uploadFile_run in Hrun. cbv zeta in Hrun.
    destruct (_ || _); [| subst run; now left].
    match type of Hrun with
    | context [uploads ?w0 !! ?file] =>
        destruct (uploads w0 !! file) as [data |];
        [destruct (s3Fails w0) |]
    end; subst run; try (now left).
    right. split; [exact Hway |]. unfold ret. cbn [fst snd].
    eexists _, _, _. split; reflexivity.
  - subst run. destruct (String.eqb way "google-cloud"); now left.
Qed.


(** ** Uploads do not disturb one another *)

Section Isolation.
Context `{Env}.

Lemma filenameKey_inj (a b : string) : filenameKey a = filenameKey b -> a = b.
Proof.
  unfold filenameKey. intros Heq. apply append_inv_head in Heq.
  apply append_split in Heq as [-> _]; [reflexivity |].
  apply (f_equal String.length) in Heq. rewrite !append_length in Heq.
  simpl in Heq. lia.
Qed.

(** The record of an upload is not touched by the record of another
    file id. *)
Lemma recorded_keeps_record w file name fileId key :
  fileId <> randomUUID (drawn w) ->
  key = hashKey fileId \/ key = filenameKey fileId ->
  redis (recorded w file name) !! key = redis w !! key.
Proof.
  intros Hid Hkey. unfold recorded. cbn [redis].
  rewrite !lookup_insert_ne; [reflexivity | |].
  - intros Heq. destruct Hkey as [-> | ->].
    + apply hashKey_inj in Heq. congruence.
    + now apply hashKey_not_filenameKey in Heq.
  - intros Heq. destruct Hkey as [-> | ->].
    + symmetry in Heq. now apply hashKey_not_filenameKey in Heq.
    + apply filenameKey_inj in Heq. congruence.
Qed.
End Isolation.

(** X22.  A later upload does not disturb an earlier one: after two
    successful uploads, one after the other, of any two payloads (the
    same bytes or not), a [local] download of the file id the first upload
    answered still yields the bytes and the filename of the first. *)
Theorem later_upload_keeps_earlier_download `{Env} (file1 file2 : UploadedFile)
    (w w1 w2 : World) (answer1 answer2 : Js.JSON) :
  hexDigests -> Consistent w ->
  collisionFree w (buffer file1) -> collisionFree w1 (buffer file2) ->
  CountingBloomFilter.has hashIndex (bloomFilter w) (buffer file1) = false \/
    (exists blob, uploads w !! blob = Some (buffer file1)) ->
  randomUUID (drawn w) <> randomUUID (S (drawn w)) ->
  InternetFileService.uploadFile (Some file1) w = (Returned answer1, w1) ->
  InternetFileService.uploadFile (Some file2) w1 = (Returned answer2, w2) ->
  exists name1,
    decodeURIComponent (originalname file1) = Some name1 /\
    forall type id,
      fst (InternetFileService.download "local" (randomUUID (drawn w)) type id w2)
      = Returned (LocalDownload (buffer file1) (Some name1)).
Proof.
  intros Hhex Hcons Hfree1 Hfree2 Hstored Huuid Hrun1 Hrun2.
  destruct (uploadFile_Consistent file1 w answer1 w1 Hhex Hcons Hfree1 Hrun1)
    as [Hcons1 _].
  destruct (uploadFile_Consistent file2 w1 answer2 w2 Hhex Hcons1 Hfree2 Hrun2)
    as [Hcons2 _].
  destruct (uploadFile_returned_record file1 w answer1 w1 Hrun1)
    as (name1 & Hname1 & Hredis1 & Hclock1 & _).
  destruct (uploadFile_returned_record file2 w1 answer2 w2 Hrun2)
    as (name2 & Hname2 & Hredis2 & Hclock2 & _).
  destruct (uploadFile_returned file1 w answer1 w1 Hrun1)
    as (name1' & Hname1' & _ & Hdrawn1 & Hcase1).
  destruct (uploadFile_returned file2 w1 answer2 w2 Hrun2)
    as (name2' & Hname2' & _ & _ & Hcase2).
  assert (name1' = name1) by congruence. subst name1'.
  assert (name2' = name2) by congruence. subst name2'.
  exists name1. split; [exact Hname1 |].
  set (fileId := randomUUID (drawn w)).
  assert (Hother : fileId <> randomUUID (drawn w1))
    by (rewrite Hdrawn1; exact Huuid).
  (* the record of the first upload, in the last world *)
  destruct (recorded_entries w file1 name1) as [Hhash Hfile].
  fold fileId in Hhash, Hfile.
  assert (Hlive : forall key e,
             (key = hashKey fileId \/ key = filenameKey fileId) ->
             redis (recorded w file1 name1) !! key
             = Some (mkEntry e (Some (clock w + 3600 * 24 * 30 * 1000)%Z)) ->
             option_map value (liveEntry w2 key) = Some e).
  { intros key e Hkey Hentry. unfold liveEntry.
    rewrite Hredis2, (recorded_keeps_record w1 file2 name2 fileId key Hother Hkey).
    rewrite Hredis1, Hentry, Hclock2, Hclock1. unfold expired. cbn [expiry].
    replace (clock w + 3600 * 24 * 30 * 1000 <=? clock w)%Z with false
      by (symmetry; apply Z.leb_gt; lia).
    reflexivity. }
  pose proof (Hlive _ _ (or_introl eq_refl) Hhash) as Hhash2.
  pose proof (Hlive _ _ (or_intror eq_refl) Hfile) as Hfile2.
  (* the blob of the first payload, in the last world *)
  assert (Hblob1 : exists blob, uploads w1 !! blob = Some (buffer file1)).
  { destruct (CountingBloomFilter.has hashIndex (bloomFilter w) (buffer file1))
      eqn:Hknown.
    - subst w1. destruct Hstored as [? | Hblob]; [discriminate | exact Hblob].
    - destruct Hcase1 as [Hu _]. eexists. rewrite Hu. apply lookup_insert_eq. }
  destruct Hblob1 as [blob Hblob1].
  assert (Hblob2 : uploads w2 !! blob = Some (buffer file1)).
  { destruct (CountingBloomFilter.has hashIndex (bloomFilter w1) (buffer file2))
      eqn:Hknown.
    - subst w2. exact Hblob1.
    - destruct Hcase2 as [Hu _]. rewrite Hu.
      rewrite lookup_insert_ne; [exact Hblob1 |].
      intros Hsame. subst blob.
      apply (unknown_payload_has_no_blob w1 (buffer file2) _ (buffer file1)
               Hhex Hcons1 Hfree2 Hknown Hblob1).
      destruct (blob_named w1 Hcons1 _ _ Hblob1) as [ext Hext].
      symmetry. now apply digest_of_blob_name in Hext. }
  destruct (find_blob_of_digest w2 blob (buffer file1) Hhex Hcons2 Hblob2)
    as [Hfind Hnonempty].
  intros type id.
  rewrite (download_local_run fileId blob (buffer file1) type id w2);
    [| rewrite Hhash2; exact Hfind | exact Hnonempty | exact Hblob2 ].
  cbn [fst]. now rewrite Hfile2.
Qed.

(** ** A delete that finds the blob of its hash *)

Section DeleteOutcomes.
Context `{Env}.

Lemma filter_nothing {A} (f : A -> bool) (l : list A) :
  (forall x, In x l -> f x = false) -> List.filter f l = [].
Proof.
  induction l as [| a l IH]; intros Hall; [reflexivity |].
  simpl. rewrite (Hall a) by now left. apply IH. intros x Hx. apply Hall.
  now right.
Qed.

(** In a directory in step with its filter, once the blob of a digest
    is unlinked no file beginning with that digest is left. *)
Lemma no_blob_after_unlink w w' file data payload other :
  hexDigests -> Consistent w ->
  uploads w !! file = Some data ->
  sha256_hex data = sha256_hex payload ->
  uploads w' = delete file (uploads w) ->
  In other (listing w') ->
  Js.startsWith other (sha256_hex payload) = false.
Proof.
  intros Hhex Hcons Hdata Hdigest Hu Hin.
  apply listing_lookup in Hin as [d Hd]. rewrite Hu in Hd.
  apply lookup_delete_Some in Hd as [Hne Hd].
  destruct (Js.startsWith other (sha256_hex payload)) eqn:Hp; [| reflexivity].
  exfalso. apply Hne. symmetry.
  apply (blob_unique w Hcons other d file data Hd Hdata).
  rewrite Hdigest.
  destruct (blob_named w Hcons other d Hd) as [ext Hname].
  rewrite Hname in Hp. apply startsWith_same_length in Hp; [assumption |].
  destruct (Hhex d) as [-> _]. now destruct (Hhex payload) as [-> _].
Qed.
End DeleteOutcomes.

(** X23.  A delete that finds the blob of its hash.  On a directory in
    step with its filter, for a file id whose record holds the digest of a
    payload, when the first listed name that contains the digest begins
    with it: [deleteFile], given fuel for its scan, returns; the file
    unlinked holds content of that digest, and no file beginning with the
    digest is left; the directory and the filter are in step again, so
    what was taken out of the filter is the content unlinked; the snapshot
    saved is that of the new filter; the steps come in the order of the
    source; keys have only been deleted, and no record of the digest is
    left, neither key of it; and on that directory a download of a file id
    whose record holds the digest, or that has no record, fails with
    [File not found], whatever Redis holds by then. *)
Theorem deleteFile_removes_blob_of_hash `{Env} (fuel : nat)
    (fileId file : string) (payload data : Buffer) (w : World) :
  (0 < tableSize)%nat ->
  (tableSize <= 100 * fuel)%nat ->
  hexDigests -> Consistent w ->
  option_map value (liveEntry w (hashKey fileId)) = Some (sha256_hex payload) ->
  find (fun file => Js.includes file (sha256_hex payload)) (listing w)
    = Some file ->
  Js.startsWith file (sha256_hex payload) = true ->
  uploads w !! file = Some data ->
  let run := InternetFileService.deleteFile fuel fileId w in
  let w' := snd run in
  fst run = Returned (Js.JObj [ ("message",
                                 Js.JStr "File deleted successfully") ]) /\
  sha256_hex data = sha256_hex payload /\
  uploads w' = delete file (uploads w) /\
  blobsOfHash w' (sha256_hex payload) = [] /\
  Consistent w' /\
  snapshot w' = Some (CountingBloomFilter.saveAsJSON (bloomFilter w')) /\
  (exists scans,
      issued w w'
      = [ FsReaddir; RedisConnect; RedisGet (hashKey fileId);
          FsReadFile file; BloomRemove data; FsUnlink file;
          FilterSave (CountingBloomFilter.saveAsJSON (bloomFilter w'));
          RedisDel [hashKey fileId]; RedisDel [filenameKey fileId] ] ++ scans)%list /\
  redis w' ⊆ redis w /\
  (forall other,
      sharesHash w (Some (sha256_hex payload)) other ->
      redis w' !! hashKey other = None /\
      redis w' !! filenameKey other = None) /\
  (forall later way other type id,
      uploads later = uploads w' ->
      option_map value (liveEntry later (hashKey other))
        = Some (sha256_hex payload) \/
      liveEntry later (hashKey other) = None ->
      fst (InternetFileService.download way other type id later)
      = Thrown (Js.newError "File not found")).
Proof.
  intros Hsize Hfuel Hhex Hcons Hstored Hfind Hstarts Hdata run w'.
  set (h := sha256_hex payload) in *.
  assert (Hdigest : sha256_hex data = h).
  { destruct (blob_named w Hcons file data Hdata) as [ext Hname].
    rewrite Hname in Hstarts.
    apply startsWith_same_length in Hstarts; [assumption |].
    destruct (Hhex data) as [-> _]. subst h.
    now destruct (Hhex payload) as [-> _]. }
  assert (Hname : file <> EmptyString).
  { intros ->. destruct (blob_named w Hcons _ data Hdata) as [ext Hname].
    destruct (Hhex data) as [Hlen _].
    apply (f_equal String.length) in Hname.
    rewrite append_length, Hlen in Hname. discriminate. }
  set (filter' := CountingBloomFilter.remove hashIndex (bloomFilter w) data).
  set (keyspace1 := delete (filenameKey fileId) (delete (hashKey fileId) (redis w))).
  set (w1 := mkWorld (delete file (uploads w)) keyspace1
               (Some (CountingBloomFilter.saveAsJSON filter')) filter'
               (bucket w) (clock w) (drawn w) (diskFails w) (s3Fails w)
               (trace w ++
                  [ FsReaddir; RedisConnect; RedisGet (hashKey fileId);
                    FsReadFile file; BloomRemove data; FsUnlink file;
                    FilterSave (CountingBloomFilter.saveAsJSON filter');
                    RedisDel [hashKey fileId]; RedisDel [filenameKey fileId] ])).
  assert (Hsub1 : keyspace1 ⊆ redis w)
    by (etransitivity; apply delete_subseteq).
  assert (Hlive1 : forall key e,
             liveEntry w key = Some e ->
             keyspace1 !! key = None \/ liveEntry w1 key = Some e)
    by (intros key e Hl;
        exact (liveEntry_subseteq w w1 key e Hsub1 eq_refl Hl)).
  destruct (deleteFile_returns fuel fileId h file data w
              Hsize Hfuel Hstored Hfind Hname Hdata)
    as (m & scans & Hrun & Hsub & Hgone).
  fold filter' keyspace1 w1 in Hrun, Hsub, Hgone.
  subst w' run. rewrite Hrun. clear Hrun. cbn [fst snd].
  set (w' := setRedis (setTrace w1 (trace w1 ++ scans)) m).
  assert (Hu : uploads w' = delete file (uploads w)) by reflexivity.
  assert (Hcons' : Consistent w')
    by (apply (Consistent_unlink w w' file data Hcons Hdata); reflexivity).
  assert (Hnoblob : forall other, In other (listing w') ->
                                  Js.startsWith other h = false)
    by (intros other;
        apply (no_blob_after_unlink w w' file data payload other Hhex Hcons
                 Hdata Hdigest Hu)).
  assert (Hrecords : forall other, sharesHash w (Some h) other ->
                                   m !! hashKey other = None /\
                                   m !! filenameKey other = None).
  { intros other Hshares.
    destruct (liveEntry w (hashKey other)) as [e |] eqn:Hlive;
      [| unfold sharesHash in Hshares; rewrite Hlive in Hshares; discriminate].
    assert (Hvalue : Some (value e) = Some h)
      by (unfold sharesHash in Hshares; now rewrite Hlive in Hshares).
    assert (Hhk : m !! hashKey other = None).
    { destruct (Hlive1 _ _ Hlive) as [Hnone | Hstill].
      - destruct (m !! hashKey other) as [e' |] eqn:Hk; [| reflexivity].
        apply (lookup_weaken _ _ _ _ Hk) in Hsub. congruence.
      - refine (proj1 (Hgone other _)). unfold sharesHash.
        rewrite Hstill. exact Hvalue. }
    split; [exact Hhk |].
    destruct (decide (other = fileId)) as [-> | Hne].
    - destruct (m !! filenameKey fileId) as [e' |] eqn:Hk; [| reflexivity].
      apply (lookup_weaken _ _ _ _ Hk) in Hsub. unfold keyspace1 in Hsub.
      rewrite lookup_delete_eq in Hsub. discriminate.
    - destruct (Hlive1 _ _ Hlive) as [Hnone | Hstill].
      + exfalso. unfold keyspace1 in Hnone.
        rewrite lookup_delete_ne in Hnone
          by (intros Heq; symmetry in Heq;
              now apply hashKey_not_filenameKey in Heq).
        rewrite lookup_delete_ne in Hnone
          by (intros Heq; apply hashKey_inj in Heq; congruence).
        unfold liveEntry in Hlive. rewrite Hnone in Hlive. discriminate.
      + refine (proj2 (Hgone other _)). unfold sharesHash.
        rewrite Hstill. exact Hvalue. }
  split; [reflexivity |]. split; [exact Hdigest |]. split; [exact Hu |].
  split.
  { unfold blobsOfHash. apply filter_nothing. exact Hnoblob. }
  split; [exact Hcons' |]. split; [reflexivity |].
  split.
  { exists scans. unfold issued. apply issued_app. unfold w', w1. world_proj.
    rewrite <- app_assoc. reflexivity. }
  split; [etransitivity; [exact Hsub | exact Hsub1] |].
  split; [exact Hrecords |].
  intros later way other type id Hlater Hrecord.
  assert (Hlisting : listing later = listing w')
    by (unfold listing; now rewrite Hlater).
  assert (Hnone : forall blob, In blob (listing later) ->
            Js.startsWith blob
              (Js.toString (option_map value
                              (liveEntry later (hashKey other))))
            = false).
  { intros blob Hin. rewrite Hlisting in Hin.
    destruct Hrecord as [-> | ->].
    - now apply Hnoblob.
    - apply (blob_name_not_null w' blob Hhex (blob_named w' Hcons') Hin). }
  now rewrite (download_not_found_run way other type id later Hnone).
Qed.

(** ** The theorems at work on the concrete environment *)

Lemma upload_answers_id_and_name_witness :
  exists name,
    Demo.percentDecode "hello.txt" = Some name /\
    Js.JObj [ ("fileId", Js.JStr "3f1c2a9e-5b7d-4e21-9c0a-000000000000");
              ("fileName", Js.JStr "hello.txt") ]
      = Js.JObj [ ("fileId", Js.JStr (Demo.uuid 0)); ("fileName", Js.JStr name) ] /\
    (forall fields,
        Js.JObj [ ("fileId", Js.JStr "3f1c2a9e-5b7d-4e21-9c0a-000000000000");
                  ("fileName", Js.JStr "hello.txt") ] = Js.JObj fields ->
        Js.getField fields "alreadyExisted" = None).
Proof.
  apply (upload_answers_id_and_name (H := Demo.env) Demo.hello Demo.start
           (snd (InternetFileService.uploadFile (Some Demo.hello) Demo.start))).
  vm_compute. reflexivity.
Defined.

Lemma identical_uploads_share_one_blob_witness :
  let w1 := snd (InternetFileService.uploadFile (Some Demo.hello) Demo.start) in
  let w2 := snd (InternetFileService.uploadFile (Some Demo.hello) w1) in
  Consistent Demo.start /\
  uploads w2 = uploads w1 /\
  (length (blobsOfHash w2 (Demo.digest "ABC")) <= 1)%nat.
Proof.
  intros w1 w2. split; [exact demo_start_Consistent |].
  destruct (identical_uploads_share_one_blob (H := Demo.env)
              Demo.hello Demo.hello Demo.start w1 w2
              (uploadAnswer Demo.start "hello.txt")
              (uploadAnswer w1 "hello.txt"))
    as (_ & _ & _ & Huploads & _ & _ & Hone & _).
  - reflexivity.
  - exact demo_hexDigests.
  - exact demo_start_Consistent.
  - intros file data Hdata. unfold Demo.start in Hdata. simpl uploads in Hdata.
    rewrite lookup_empty in Hdata. discriminate.
  - vm_compute. discriminate.
  - vm_compute. reflexivity.
  - vm_compute. reflexivity.
  - split; [exact Huploads | exact Hone].
Defined.

Lemma download_dispatch_witness :
  let blob := Demo.digest "ABC" +:+ ".txt" in
  let w := snd (InternetFileService.uploadFile (Some Demo.hello) Demo.start) in
  find (fun file => Js.startsWith file (Demo.digest "ABC")) (listing w)
    = Some blob /\
  fst (InternetFileService.download "local" (Demo.uuid 0) None None w)
    = Returned (LocalDownload "ABC" (Some "hello.txt")).
Proof.
  intros blob w.
  assert (Hfind : find (fun file => Js.startsWith file (Demo.digest "ABC"))
                       (listing w) = Some blob) by (vm_compute; reflexivity).
  split; [exact Hfind |].
  destruct (download_dispatch (H := Demo.env) "local" (Demo.uuid 0) blob
              None None w)
    as (data & Hdata & Hlocal & _).
  - vm_compute. reflexivity.
  - discriminate.
  - assert (Hdata' : uploads w !! blob = Some "ABC") by (vm_compute; reflexivity).
    rewrite Hdata' in Hdata. injection Hdata as <-.
    exact (Hlocal eq_refl).
Defined.

Lemma added_content_is_found_witness :
  let ops := [OpAdd "XYZ"; OpAdd "ABC"; OpAdd "D"; OpRemove "XYZ"] in
  heldAfter ops [] = Some ["D"; "ABC"] /\
  CountingBloomFilter.has hashIndex (applyOps Demo.emptyFilter ops) "ABC" = true.
Proof.
  intros ops. split; [reflexivity |].
  destruct (added_content_is_found (H := Demo.env) 16 2 Demo.emptyFilter
              [OpAdd "XYZ"] [OpAdd "D"; OpRemove "XYZ"] ["D"; "ABC"] "ABC"
              Demo.start)
    as (Hhas & _).
  - reflexivity.
  - lia.
  - reflexivity.
  - repeat constructor; discriminate.
  - exact Hhas.
Defined.


Lemma download_without_blob_fails_witness :
  liveEntry Demo.start (hashKey "no-such-id") = None /\
  fst (InternetFileService.download "local" "no-such-id" None None Demo.start)
    = Thrown (Js.newError "File not found").
Proof.
  split; [reflexivity |].
  destruct (download_without_blob_fails (H := Demo.env) "local" "no-such-id"
              None None Demo.start)
    as [_ Hunresolved].
  destruct Hunresolved as (Hthrown & _).
  - reflexivity.
  - exact demo_hexDigests.
  - exact (blob_named Demo.start demo_start_Consistent).
  - exact Hthrown.
Defined.

Lemma setExpire_default_is_3am_today_witness :
  let w := snd (InternetFileService.uploadFile (Some Demo.hello) Demo.start) in
  let key := hashKey (Demo.uuid 0) in
  (3 * msPerHour < localTimeOfDay (clock w))%Z /\
  liveEntry w key <> None /\
  liveEntry (snd (RedisClient.setExpire key 0 w)) key = None.
Proof.
  intros w key.
  assert (Hlate : (3 * msPerHour < localTimeOfDay (clock w))%Z)
    by (vm_compute; reflexivity).
  split; [exact Hlate |]. split; [vm_compute; discriminate |].
  destruct (setExpire_default_is_3am_today (H := Demo.env) key w)
    as (_ & _ & _ & _ & _ & Hpast).
  exact (proj2 (Hpast Hlate)).
Defined.

(** ** More runs on the concrete environment *)

Section DemoRuns.
Lemma demo_start_collisionFree payload :
  collisionFree (H := Demo.env) Demo.start payload.
Proof.
  intros file data Hdata. unfold Demo.start in Hdata. simpl uploads in Hdata.
  rewrite lookup_empty in Hdata. discriminate.
Qed.

Lemma demo_uploaded_Consistent file :
  Consistent (H := Demo.env)
    (snd (InternetFileService.uploadFile (Some file) Demo.start)).
Proof.
  apply uploadFile_keeps_Consistent.
  - exact demo_hexDigests.
  - exact demo_start_Consistent.
  - intros f _. apply demo_start_collisionFree.
Qed.
End DemoRuns.



Lemma upload_then_local_download_witness :
  let w' := snd (InternetFileService.uploadFile (Some Demo.hello) Demo.start) in
  exists name,
    Demo.percentDecode "hello.txt" = Some name /\
    fst (InternetFileService.download "local" (Demo.uuid 0) None None w')
    = Returned (LocalDownload "ABC" (Some name)).
Proof.
  intros w'.
  destruct (upload_then_local_download (H := Demo.env) Demo.hello Demo.start w'
              (uploadAnswer Demo.start "hello.txt"))
    as (name & Hname & _ & Hdownload).
  - exact demo_hexDigests.
  - exact demo_start_Consistent.
  - apply demo_start_collisionFree.
  - left. vm_compute. reflexivity.
  - vm_compute. reflexivity.
  - exists name. split; [exact Hname | exact (Hdownload None None)].
Defined.

Lemma filter_false_positive_loses_upload_witness :
  let w := snd (InternetFileService.uploadFile (Some (mkFile "AB" "a.txt"))
                  Demo.start) in
  let run := InternetFileService.uploadFile (Some (mkFile "BA" "b.txt")) w in
  CountingBloomFilter.has hashIndex (bloomFilter w) "BA" = true /\
  fst run = Returned (Js.JObj [ ("fileId", Js.JStr (Demo.uuid 1));
                                ("fileName", Js.JStr "b.txt") ]) /\
  fst (InternetFileService.download "local" (Demo.uuid 1) None None (snd run))
    = Thrown (Js.newError "File not found").
Proof.
  intros w run.
  assert (Hknown : CountingBloomFilter.has hashIndex (bloomFilter w) "BA" = true)
    by (vm_compute; reflexivity).
  assert (Hu : uploads w = {[ Demo.digest "AB" +:+ ".txt" := "AB" ]})
    by (vm_compute; reflexivity).
  split; [exact Hknown |].
  destruct (filter_false_positive_loses_upload (H := Demo.env)
              (mkFile "BA" "b.txt") "b.txt" w)
    as (Hanswer & _ & Hdownload).
  - reflexivity.
  - exact demo_hexDigests.
  - exact (blob_named w (demo_uploaded_Consistent (mkFile "AB" "a.txt"))).
  - exact Hknown.
  - intros blob data Hdata. rewrite Hu in Hdata.
    apply lookup_singleton_Some in Hdata as [_ <-].
    vm_compute. discriminate.
  - split; [exact Hanswer | exact (Hdownload "local" None None)].
Defined.

Lemma upload_then_staging_download_witness :
  let w' := snd (InternetFileService.uploadFile (Some Demo.hello) Demo.start) in
  exists name blob,
    Demo.percentDecode "hello.txt" = Some name /\
    uploads w' !! blob = Some "ABC" /\
    bucket (snd (InternetFileService.download "staging-area" (Demo.uuid 0)
                   (Some "user") (Some "u1") w'))
    = [ mkObject ("user" +:+ "/" +:+ "u1" +:+ "/" +:+ blob) "ABC"
          (Demo.percentEncode name) ].
Proof.
  intros w'.
  destruct (upload_then_staging_download (H := Demo.env) Demo.hello Demo.start
              w' (uploadAnswer Demo.start "hello.txt") "user" "u1")
    as (name & blob & Hname & Hblob & _ & _ & _ & Hput).
  - exact demo_hexDigests.
  - exact demo_start_Consistent.
  - apply demo_start_collisionFree.
  - left. vm_compute. reflexivity.
  - vm_compute. reflexivity.
  - now left.
  - discriminate.
  - reflexivity.
  - exists name, blob. split; [exact Hname |]. split; [exact Hblob | exact Hput].
Defined.

Lemma record_expires_after_30_days_witness :
  let w' := snd (InternetFileService.uploadFile (Some Demo.hello) Demo.start) in
  liveEntry w' (hashKey (Demo.uuid 0)) <> None /\
  liveEntry (advance w' (30 * msPerDay)) (hashKey (Demo.uuid 0)) = None.
Proof.
  intros w'. split; [vm_compute; discriminate |].
  destruct (record_expires_after_30_days (H := Demo.env) Demo.hello Demo.start
              w' (uploadAnswer Demo.start "hello.txt") (30 * msPerDay))
    as (_ & Hlate).
  - exact demo_hexDigests.
  - exact demo_start_Consistent.
  - apply demo_start_collisionFree.
  - vm_compute. reflexivity.
  - exact (proj1 (Hlate ltac:(lia))).
Defined.

Lemma deleteFile_without_blob_fails_witness :
  fst (InternetFileService.deleteFile 3 "no-such-id" Demo.start)
    = Thrown (Js.newError "File not found") /\
  uploads (snd (InternetFileService.deleteFile 3 "no-such-id" Demo.start))
    = uploads Demo.start.
Proof.
  destruct (deleteFile_without_blob_fails (H := Demo.env) 3 "no-such-id"
              Demo.start)
    as (Hthrown & _ & Huploads & _).
  - intros file Hin.
    assert (Hlisting : listing Demo.start = []) by (vm_compute; reflexivity).
    rewrite Hlisting in Hin. destruct Hin.
  - split; [exact Hthrown | exact Huploads].
Defined.

Lemma deleteFile_keeps_store_consistent_witness :
  let blob := Demo.digest "ABC" +:+ ".txt" in
  let w := snd (InternetFileService.uploadFile (Some Demo.hello) Demo.start) in
  let w' := snd (InternetFileService.deleteFile 3 (Demo.uuid 0) w) in
  uploads w !! blob = Some "ABC" /\ Consistent w' /\ uploads w' !! blob = None.
Proof.
  intros blob w w'.
  assert (Hdata : uploads w !! blob = Some "ABC") by (vm_compute; reflexivity).
  split; [exact Hdata |].
  destruct (deleteFile_keeps_store_consistent (H := Demo.env) 3 (Demo.uuid 0)
              (Demo.digest "ABC") blob "ABC" w)
    as (Hcons & Hgone & _).
  - simpl. lia.
  - simpl. lia.
  - vm_compute. reflexivity.
  - vm_compute. reflexivity.
  - discriminate.
  - exact Hdata.
  - exact (demo_uploaded_Consistent Demo.hello).
  - split; [exact Hcons | exact Hgone].
Defined.

Lemma upload_after_deleteAllFiles_witness :
  let w := snd (InternetFileService.uploadFile (Some Demo.hello) Demo.start) in
  let w0 := snd (InternetFileService.deleteAllFiles 3 w) in
  let run := InternetFileService.uploadFile (Some Demo.hello) w0 in
  uploads (snd run) = {[ Demo.digest "ABC" +:+ ".txt" := "ABC" ]} /\
  fst (InternetFileService.download "local" (Demo.uuid 1) None None (snd run))
    = Returned (LocalDownload "ABC" (Some "hello.txt")).
Proof.
  intros w w0 run.
  destruct (upload_after_deleteAllFiles (H := Demo.env) 3 Demo.hello
              "hello.txt" w)
    as (_ & Huploads & Hdownload).
  - simpl. lia.
  - simpl. lia.
  - simpl. lia.
  - exact demo_hexDigests.
  - reflexivity.
  - vm_compute. reflexivity.
  - split; [exact Huploads | exact (Hdownload None None)].
Defined.


Lemma stored_value_readable_until_expiry_witness :
  let w1 := snd (RedisClient.set "k" "v" Demo.start) in
  let w2 := snd (RedisClient.setExpire "k" 60 w1) in
  fst (RedisClient.get "k" (advance w2 59999)) = Returned (Some "v") /\
  fst (RedisClient.get "k" (advance w2 60000)) = Returned None.
Proof.
  intros w1 w2. split.
  - exact (proj1 (proj2 (stored_value_readable_until_expiry (H := Demo.env)
                           "k" "v" 60 59999 Demo.start
                           ltac:(lia) ltac:(lia)))).
  - exact (proj1 (proj2 (stored_value_readable_until_expiry (H := Demo.env)
                           "k" "v" 60 60000 Demo.start
                           ltac:(lia) ltac:(lia)))).
Defined.

Lemma deleteHashByFileId_deletes_owned_keys_witness :
  let w1 := snd (RedisClient.set "room:1" "abc_report.pdf" Demo.start) in
  let w2 := snd (RedisClient.set "room:2" "xyz_notes.txt" w1) in
  let run := deleteHashByFileId 3 "abc" w2 in
  owned w2 "abc" "room:1" = true /\ owned w2 "abc" "room:2" = false /\
  exists countDeleted,
    fst run = Returned countDeleted /\
    redis (snd run) !! "room:1" = None /\
    redis (snd run) !! "room:2" = redis w2 !! "room:2".
Proof.
  intros w1 w2 run.
  assert (Hmine : owned w2 "abc" "room:1" = true) by (vm_compute; reflexivity).
  assert (Hother : owned w2 "abc" "room:2" = false) by (vm_compute; reflexivity).
  split; [exact Hmine |]. split; [exact Hother |].
  destruct (deleteHashByFileId_deletes_owned_keys (H := Demo.env) 3 "abc" w2)
    as (countDeleted & Hreturned & Hlook & _).
  - simpl. lia.
  - simpl. lia.
  - exists countDeleted. split; [exact Hreturned |]. unfold run. split.
    + rewrite (Hlook "room:1"). now rewrite Hmine.
    + rewrite (Hlook "room:2"). now rewrite Hother.
Defined.

Lemma _formatFileSize_picks_unit_and_rounds_witness :
  exists (k : nat) (n : Z),
    S3Files._formatFileSize 1536
    = S3Files.decimal (n / 100) +:+ "." +:+
      S3Files.decimal (n mod 100 / 10) +:+ S3Files.decimal (n mod 10) +:+
      " " +:+ nth k S3Files.units EmptyString /\
    (k <= 4)%nat.
Proof.
  destruct (_formatFileSize_picks_unit_and_rounds 1536 ltac:(lia))
    as (k & n & Hshown & Hk & _).
  exists k, n. split; [exact Hshown | exact Hk].
Defined.

Lemma staged_key_is_listed_under_its_name_witness :
  exists key,
    S3Service._generateS3Key "user" "u1" (Demo.digest "ABC" +:+ ".txt")
      Demo.start = (Returned key, Demo.start) /\
    S3Files.lastSegment key = Demo.digest "ABC" +:+ ".txt".
Proof.
  destruct (staged_key_is_listed_under_its_name (H := Demo.env) "u1"
              (Demo.digest "ABC" +:+ ".txt") Demo.start)
    as [(key & Hkey & _ & Hlast) _].
  - vm_compute. reflexivity.
  - exists key. split; [exact Hkey | exact Hlast].
Defined.


Lemma later_upload_keeps_earlier_download_witness :
  let other := mkFile "XYZ" "other.pdf" in
  let w1 := snd (InternetFileService.uploadFile (Some Demo.hello) Demo.start) in
  let w2 := snd (InternetFileService.uploadFile (Some other) w1) in
  exists name1,
    Demo.percentDecode "hello.txt" = Some name1 /\
    fst (InternetFileService.download "local" (Demo.uuid 0) None None w2)
    = Returned (LocalDownload "ABC" (Some name1)).
Proof.
  intros other w1 w2.
  assert (Hu : uploads w1 = {[ Demo.digest "ABC" +:+ ".txt" := "ABC" ]})
    by (vm_compute; reflexivity).
  destruct (later_upload_keeps_earlier_download (H := Demo.env) Demo.hello
              other Demo.start w1 w2 (uploadAnswer Demo.start "hello.txt")
              (uploadAnswer w1 "other.pdf"))
    as (name1 & Hname1 & Hdownload).
  - exact demo_hexDigests.
  - exact demo_start_Consistent.
  - apply demo_start_collisionFree.
  - intros file data Hdata Hsame. rewrite Hu in Hdata.
    apply lookup_singleton_Some in Hdata as [_ <-].
    vm_compute in Hsame. discriminate.
  - left. vm_compute. reflexivity.
  - vm_compute. discriminate.
  - vm_compute. reflexivity.
  - vm_compute. reflexivity.
  - exists name1. split; [exact Hname1 | exact (Hdownload None None)].
Defined.

Lemma deleteFile_removes_blob_of_hash_witness :
  let blob := Demo.digest "ABC" +:+ ".txt" in
  let w1 := snd (InternetFileService.uploadFile (Some Demo.hello) Demo.start) in
  let w := snd (InternetFileService.uploadFile
                  (Some (mkFile "ABC" "again.txt")) w1) in
  let w' := snd (InternetFileService.deleteFile 3 (Demo.uuid 0) w) in
  uploads w !! blob = Some "ABC" /\
  sharesHash w (Some (Demo.digest "ABC")) (Demo.uuid 1) /\
  uploads w' = delete blob (uploads w) /\
  Consistent w' /\
  redis w' !! hashKey (Demo.uuid 1) = None /\
  fst (InternetFileService.download "local" (Demo.uuid 1) None None w')
    = Thrown (Js.newError "File not found").
Proof.
  intros blob w1 w w'.
  assert (Hdata : uploads w !! blob = Some "ABC") by (vm_compute; reflexivity).
  assert (Hshares : sharesHash w (Some (Demo.digest "ABC")) (Demo.uuid 1))
    by (vm_compute; reflexivity).
  split; [exact Hdata |]. split; [exact Hshares |].
  destruct (deleteFile_removes_blob_of_hash (H := Demo.env) 3 (Demo.uuid 0)
              blob "ABC" "ABC" w)
    as (_ & _ & Huploads & _ & Hcons & _ & _ & _ & Hrecords & Hdownload).
  - simpl. lia.
  - simpl. lia.
  - exact demo_hexDigests.
  - apply uploadFile_keeps_Consistent.
    + exact demo_hexDigests.
    + exact (demo_uploaded_Consistent Demo.hello).
    + intros f [= <-] file data Hlook _.
      assert (Hu : uploads w1 = {[ blob := "ABC" ]}) by (vm_compute; reflexivity).
      rewrite Hu in Hlook. now apply lookup_singleton_Some in Hlook as [_ <-].
  - vm_compute. reflexivity.
  - vm_compute. reflexivity.
  - vm_compute. reflexivity.
  - exact Hdata.
  - split; [exact Huploads |]. split; [exact Hcons |].
    split; [exact (proj1 (Hrecords (Demo.uuid 1) Hshares)) |].
    apply (Hdownload w'); [reflexivity |].
    right. unfold liveEntry, w'.
    now rewrite (proj1 (Hrecords (Demo.uuid 1) Hshares)).
Defined.

Lemma upload_issues_record_first_witness :
  let full := mkWorld ∅ ∅ (Some (CountingBloomFilter.saveAsJSON Demo.emptyFilter))
                Demo.emptyFilter [] 1730455200000 0 true false [] in
  let run := InternetFileService.uploadFile (Some Demo.hello) full in
  Demo.percentDecode "hello.txt" = Some "hello.txt" /\
  issued full (snd run)
  = [ RandomUUID (Demo.uuid 0);
      RedisSet (hashKey (Demo.uuid 0)) (Demo.digest "ABC");
      RedisExpire (hashKey (Demo.uuid 0)) 2592000;
      RedisSet (filenameKey (Demo.uuid 0)) "hello.txt";
      RedisExpire (filenameKey (Demo.uuid 0)) 2592000;
      BloomHas "ABC" false;
      FsWriteFile (Demo.digest "ABC" +:+ ".txt") ] /\
  exists e, fst run = Thrown e.
Proof.
  intros full run. split; [reflexivity |].
  destruct (upload_issues_record_first (H := Demo.env) Demo.hello "hello.txt"
              full eq_refl)
    as [Hissued Hthrown].
  split.
  - etransitivity; [exact Hissued |]. vm_compute. reflexivity.
  - apply Hthrown; vm_compute; reflexivity.
Defined.
